(** * Polyglot codec: encoder, boundary locators and payload classifier

    A shallow embedding of the binary codec of the polyglot service
    (createPolyglot, findSequence, processPayload, decodeM4AContainer,
    decodePolyglot, decodePolyglotWithAI), of the host operations it calls
    (typed arrays, DataView, TextEncoder, TextDecoder, JSON.stringify), and
    the properties of its specification.

    Conventions.
    - A [Uint8Array] is a [list byte]; indices and lengths are in [Z], and the
      sentinel [-1] of the source is kept.
    - A JavaScript string is the list of its UTF-16 code units.
    - Loops that the source writes with [while] take a fuel argument and
      answer [None] when the fuel is used up. *)

From Stdlib Require Import ZArith List Bool Lia.
From Stdlib.Strings Require Import String Ascii Byte.
From Stdlib.Numbers Require Import DecimalString DecimalZ.
Import ListNotations.
Open Scope Z_scope.

(** ** Typed arrays *)

Definition Uint8Array := list byte.

Definition toZ (b : byte) : Z := Z.of_N (Byte.to_N b).

Definition byteOfZ (z : Z) : byte :=
  match Byte.of_N (Z.to_N (z mod 256)) with
  | Some b => b
  | None => x00
  end.

Definition len (a : Uint8Array) : Z := Z.of_nat (List.length a).

(** [a[i]]: [None] stands for [undefined] (index out of range). *)
Definition byteAt (a : Uint8Array) (i : Z) : option byte :=
  if i <? 0 then None else nth_error a (Z.to_nat i).

(** Relative index of [%TypedArray%.prototype.slice] / [subarray]. *)
Definition relIndex (length i : Z) : Z :=
  if i <? 0 then Z.max (length + i) 0 else Z.min i length.

Definition slice (a : Uint8Array) (start final : Z) : Uint8Array :=
  let k := relIndex (len a) start in
  let e := relIndex (len a) final in
  firstn (Z.to_nat (e - k)) (skipn (Z.to_nat k) a).

Definition sliceFrom (a : Uint8Array) (start : Z) : Uint8Array :=
  slice a start (len a).

Definition subarray := slice.

(** [DataView.prototype.getUint32(byteOffset, false)]: big-endian;
    [None] stands for the RangeError of an out-of-bounds read. *)
Definition getUint32 (a : Uint8Array) (byteOffset : Z) : option Z :=
  match byteAt a byteOffset, byteAt a (byteOffset + 1),
        byteAt a (byteOffset + 2), byteAt a (byteOffset + 3) with
  | Some b0, Some b1, Some b2, Some b3 =>
      Some (toZ b0 * 16777216 + toZ b1 * 65536 + toZ b2 * 256 + toZ b3)
  | _, _, _, _ => None
  end.

(** The four bytes written by [setUint32(0, value, false)] into a fresh
    4-byte buffer; the value is first reduced modulo 2^32 (ToUint32). *)
Definition setUint32 (value : Z) : Uint8Array :=
  let v := value mod 4294967296 in
  [byteOfZ (v / 16777216); byteOfZ (v / 65536); byteOfZ (v / 256); byteOfZ v].

(** [%TypedArray%.prototype.lastIndexOf(searchElement, fromIndex)]. *)
Fixpoint lastIndexDown (a : Uint8Array) (x : byte) (n : nat) (k : Z) : Z :=
  match n with
  | O => -1
  | S n' =>
      match byteAt a k with
      | Some b => if Byte.eqb b x then k else lastIndexDown a x n' (k - 1)
      | None => lastIndexDown a x n' (k - 1)
      end
  end.

Definition lastIndexOf (a : Uint8Array) (x : byte) (fromIndex : Z) : Z :=
  if len a =? 0 then -1
  else
    let k := if 0 <=? fromIndex then Z.min fromIndex (len a - 1)
             else len a + fromIndex in
    lastIndexDown a x (Z.to_nat (k + 1)) k.

(** ** Strings *)

Definition jsstring := list Z.

(** A literal of the source, as code units. *)
Definition str (s : string) : jsstring := map toZ (list_byte_of_string s).

Definition wfString (s : jsstring) : Prop := Forall (fun u => 0 <= u < 65536) s.

Fixpoint jsstring_eqb (s t : jsstring) : bool :=
  match s, t with
  | [], [] => true
  | u :: s', v :: t' => (u =? v) && jsstring_eqb s' t'
  | _, _ => false
  end.

Definition toAsciiLower (u : Z) : Z :=
  if (65 <=? u) && (u <=? 90) then u + 32 else u.

Definition startsWithStr (s prefix : jsstring) : bool :=
  jsstring_eqb (firstn (List.length prefix) s) prefix.

Definition endsWithStr (s suffix : jsstring) : bool :=
  (List.length suffix <=? List.length s)%nat &&
  jsstring_eqb (skipn (List.length s - List.length suffix) s) suffix.

(** ** TextDecoder

    [new TextDecoder().decode(bytes)]: the UTF-8 decoder of the Encoding
    standard, not fatal (malformed input yields U+FFFD), with a leading byte
    order mark removed, followed by the conversion of the code points to
    UTF-16 code units. *)

Inductive utf8State :=
| Start
| Cont (codePoint : Z) (remaining : nat) (lower upper : Z).

Definition utf8Lead (b : Z) : list Z * utf8State :=
  if b <=? 127 then ([b], Start)
  else if (194 <=? b) && (b <=? 223) then
    ([], Cont (Z.land b 31) 1 128 191)
  else if (224 <=? b) && (b <=? 239) then
    ([], Cont (Z.land b 15) 2 (if b =? 224 then 160 else 128)
                              (if b =? 237 then 159 else 191))
  else if (240 <=? b) && (b <=? 244) then
    ([], Cont (Z.land b 7) 3 (if b =? 240 then 144 else 128)
                             (if b =? 244 then 143 else 191))
  else ([65533], Start).

Definition utf8Step (st : utf8State) (b : Z) : list Z * utf8State :=
  match st with
  | Start => utf8Lead b
  | Cont cp remaining lower upper =>
      if (lower <=? b) && (b <=? upper) then
        let cp' := Z.lor (Z.shiftl cp 6) (Z.land b 63) in
        match remaining with
        | S (S r) => ([], Cont cp' (S r) 128 191)
        | _ => ([cp'], Start)
        end
      else
        let (out, st') := utf8Lead b in (65533 :: out, st')
  end.

Fixpoint utf8Decode (st : utf8State) (bytes : Uint8Array) : list Z :=
  match bytes with
  | [] => match st with Start => [] | Cont _ _ _ _ => [65533] end
  | b :: rest =>
      let (out, st') := utf8Step st (toZ b) in out ++ utf8Decode st' rest
  end.

Definition utf16Units (cp : Z) : list Z :=
  if cp <? 65536 then [cp]
  else [55296 + (cp - 65536) / 1024; 56320 + (cp - 65536) mod 1024].

Definition stripBOM (cps : list Z) : list Z :=
  match cps with
  | cp :: rest => if cp =? 65279 then rest else cps
  | [] => []
  end.

Definition TextDecoder_decode (bytes : Uint8Array) : jsstring :=
  flat_map utf16Units (stripBOM (utf8Decode Start bytes)).

(** ** findSequence *)

(** The inner [j] loop: does [needle] occur in [haystack] at index [i]? *)
Fixpoint matchAt (haystack : Uint8Array) (needle : list byte) (i : Z) : bool :=
  match needle with
  | [] => true
  | x :: needle' =>
      match byteAt haystack i with
      | Some b => if Byte.eqb b x then matchAt haystack needle' (i + 1) else false
      | None => false
      end
  end.

(** The outer loop, [n] iterations left, at index [i]. *)
Fixpoint findFrom (n : nat) (haystack : Uint8Array) (needle : list byte) (i : Z) : Z :=
  match n with
  | O => -1
  | S n' =>
      if matchAt haystack needle i then i
      else findFrom n' haystack needle (i + 1)
  end.

Definition findSequence (haystack : Uint8Array) (needle : list byte) (start : Z) : Z :=
  findFrom (Z.to_nat (len haystack - len needle - start + 1)) haystack needle start.

(** ** Signature registry *)

Record Signature := {
  sig : list byte;
  offset : option Z;
  mime : jsstring;
  ext : jsstring
}.

Definition signatures : list (string * Signature) :=
  [ ("PNG"%string,
      {| sig := [x89; x50; x4e; x47; x0d; x0a; x1a; x0a]; offset := None;
         mime := str "image/png"; ext := str "png" |});
    ("JPEG"%string,
      {| sig := [xff; xd8; xff]; offset := None;
         mime := str "image/jpeg"; ext := str "jpg" |});
    ("GIF87a"%string,
      {| sig := [x47; x49; x46; x38; x37; x61]; offset := None;
         mime := str "image/gif"; ext := str "gif" |});
    ("GIF89a"%string,
      {| sig := [x47; x49; x46; x38; x39; x61]; offset := None;
         mime := str "image/gif"; ext := str "gif" |});
    ("ZIP"%string,
      {| sig := [x50; x4b; x03; x04]; offset := None;
         mime := str "application/zip"; ext := str "zip" |});
    ("PDF"%string,
      {| sig := [x25; x50; x44; x46]; offset := None;
         mime := str "application/pdf"; ext := str "pdf" |});
    ("EXE"%string,
      {| sig := [x4d; x5a]; offset := None;
         mime := str "application/vnd.microsoft.portable-executable";
         ext := str "exe" |});
    ("APK"%string,
      {| sig := [x50; x4b; x03; x04]; offset := None;
         mime := str "application/vnd.android.package-archive";
         ext := str "apk" |}) ].

Fixpoint lookupSignature (key : string) (table : list (string * Signature)) : option Signature :=
  match table with
  | [] => None
  | (k, s) :: rest => if String.eqb k key then Some s else lookupSignature key rest
  end.


(** ** Values produced by JSON.parse

    Number values are modelled on the integers. *)

#[local] Set Warnings "-register-all".

Inductive json :=
| JNull
| JBool (b : bool)
| JNumber (n : Z)
| JString (s : jsstring)
| JArray (items : list json)
| JObject (members : list (jsstring * json)).

Fixpoint lookupMember (key : jsstring) (members : list (jsstring * json)) : option json :=
  match members with
  | [] => None
  | (k, v) :: rest => if jsstring_eqb k key then Some v else lookupMember key rest
  end.

(** Property read [v.key] for the keys the source reads ([name], [type],
    [splitIndex]), none of which is defined on a prototype.
    [None]: the read throws a TypeError ([v] is null);
    [Some None]: the property is [undefined]. *)
Definition getProperty (v : json) (key : jsstring) : option (option json) :=
  match v with
  | JNull => None
  | JObject members => Some (lookupMember key members)
  | _ => Some None
  end.

(** [typeof v === 'string'], giving the string. *)
Definition asString (v : option json) : option jsstring :=
  match v with
  | Some (JString s) => Some s
  | _ => None
  end.

(** [typeof v === 'number'], giving the number. *)
Definition asNumber (v : option json) : option Z :=
  match v with
  | Some (JNumber n) => Some n
  | _ => None
  end.

(** ** TextEncoder

    [new TextEncoder().encode(s)]: the string is read as code points, a
    surrogate that is not part of a pair is replaced by U+FFFD, and the code
    points are written by the UTF-8 encoder of the Encoding standard. *)

Definition isLeadSurrogate (u : Z) : bool := (55296 <=? u) && (u <=? 56319).
Definition isTrailSurrogate (u : Z) : bool := (56320 <=? u) && (u <=? 57343).
Definition isSurrogate (u : Z) : bool := (55296 <=? u) && (u <=? 57343).

(** The code points of a string: a lead surrogate followed by a trail
    surrogate is one code point, any other code unit is its own. *)
Fixpoint StringToCodePoints (s : jsstring) : list Z :=
  match s with
  | [] => []
  | u :: rest =>
      if isLeadSurrogate u then
        match rest with
        | v :: rest' =>
            if isTrailSurrogate v
            then (65536 + (u - 55296) * 1024 + (v - 56320)) :: StringToCodePoints rest'
            else u :: StringToCodePoints rest
        | [] => [u]
        end
      else u :: StringToCodePoints rest
  end.

Definition utf8Encode (cp : Z) : list byte :=
  if cp <=? 127 then [byteOfZ cp]
  else if cp <=? 2047 then
    [byteOfZ (Z.shiftr cp 6 + 192);
     byteOfZ (Z.lor 128 (Z.land cp 63))]
  else if cp <=? 65535 then
    [byteOfZ (Z.shiftr cp 12 + 224);
     byteOfZ (Z.lor 128 (Z.land (Z.shiftr cp 6) 63));
     byteOfZ (Z.lor 128 (Z.land cp 63))]
  else
    [byteOfZ (Z.shiftr cp 18 + 240);
     byteOfZ (Z.lor 128 (Z.land (Z.shiftr cp 12) 63));
     byteOfZ (Z.lor 128 (Z.land (Z.shiftr cp 6) 63));
     byteOfZ (Z.lor 128 (Z.land cp 63))].

Definition TextEncoder_encode (s : jsstring) : Uint8Array :=
  flat_map (fun cp => utf8Encode (if isSurrogate cp then 65533 else cp))
           (StringToCodePoints s).

(** ** JSON.stringify

    Without replacer or indentation, on the values of [json]; the members of
    an object are written in the order of the list, and a number as its
    decimal digits. *)

Definition hexDigit (d : Z) : Z := if d <? 10 then 48 + d else 87 + d.

(** [\uXXXX], in lower case. *)
Definition UnicodeEscape (c : Z) : jsstring :=
  [92; 117; hexDigit (c / 4096 mod 16); hexDigit (c / 256 mod 16);
   hexDigit (c / 16 mod 16); hexDigit (c mod 16)].

Definition quoteCodePoint (c : Z) : jsstring :=
  if c =? 8 then [92; 98]
  else if c =? 9 then [92; 116]
  else if c =? 10 then [92; 110]
  else if c =? 12 then [92; 102]
  else if c =? 13 then [92; 114]
  else if c =? 34 then [92; 34]
  else if c =? 92 then [92; 92]
  else if (c <? 32) || isSurrogate c then UnicodeEscape c
  else utf16Units c.

Definition QuoteJSONString (value : jsstring) : jsstring :=
  34 :: flat_map quoteCodePoint (StringToCodePoints value) ++ [34].

Definition digits (n : Z) : jsstring :=
  str (NilZero.string_of_int (Z.to_int n)).

Fixpoint JSON_stringify (v : json) : jsstring :=
  match v with
  | JNull => str "null"
  | JBool true => str "true"
  | JBool false => str "false"
  | JNumber n => digits n
  | JString s => QuoteJSONString s
  | JArray items =>
      let fix list (l : list json) : jsstring :=
        match l with
        | [] => []
        | [x] => JSON_stringify x
        | x :: rest => JSON_stringify x ++ 44 :: list rest
        end in
      91 :: list items ++ [93]
  | JObject members =>
      let fix list (l : list (jsstring * json)) : jsstring :=
        match l with
        | [] => []
        | [(k, x)] => QuoteJSONString k ++ 58 :: JSON_stringify x
        | (k, x) :: rest =>
            QuoteJSONString k ++ 58 :: JSON_stringify x ++ 44 :: list rest
        end in
      123 :: list members ++ [125]
  end.

(** ** Blobs and files *)

Module Blob.

Record t := mk {
  bytes : Uint8Array;
  type : jsstring
}.

(** The [type] option of the Blob constructor: empty when a code unit lies
    outside U+0020..U+007E, else converted to ASCII lower case. *)
Definition normalizeType (ty : jsstring) : jsstring :=
  if forallb (fun u => (32 <=? u) && (u <=? 126)) ty
  then map toAsciiLower ty else [].

(** [new Blob([data], { type })]. *)
Definition new (data : Uint8Array) (ty : jsstring) : t :=
  mk data (normalizeType ty).

Definition size (b : t) : Z := len (bytes b).

End Blob.

Module File.

Record t := mk {
  name : jsstring;
  type : jsstring;
  arrayBuffer : Uint8Array
}.

End File.

Module DecodedFile.

Record t := mk {
  blob : Blob.t;
  name : jsstring;
  type : jsstring;
  size : Z
}.

End DecodedFile.

Record CreatePolyglotResult := {
  blob : Blob.t;
  newContainerName : jsstring
}.

(** The result of an asynchronous function: fulfilled with a value, or
    rejected. *)
Inductive promise (A : Type) :=
| Resolved (a : A)
| Rejected.

Arguments Resolved {A} a.
Arguments Rejected {A}.

(** ** The platform

    The operations of the host that the codec calls and that have no
    definition here: the JSON parser and the two raster conversions of the
    container. [JSON_parse] answers [None] when it throws a SyntaxError; a
    conversion answers [None] when its promise is rejected. *)

Class Platform := {
  JSON_parse : jsstring -> option json;
  convertTextToPng : jsstring -> option Uint8Array;
  convertImage : File.t -> jsstring -> option Uint8Array
}.

(** The metadata object [{ name, type }] of the envelope. *)
Definition metadataObject (name type : jsstring) : json :=
  JObject [(str "name", JString name); (str "type", JString type)].

(** What the codec relies on: the parser reads the text that
    [JSON.stringify] writes for a metadata object back as that object. *)
Class PlatformLaws (P : Platform) : Prop := {
  parse_stringify :
    forall name type : jsstring,
      wfString name -> wfString type ->
      JSON_parse (JSON_stringify (metadataObject name type))
      = Some (metadataObject name type)
}.

(** ** Decoding: the payload classifier *)

Section Codec.

Context {P : Platform}.

(** One signature of the [for ... in signatures] loop of [processPayload]. *)
Definition signatureHit (payload : Uint8Array) (s : Signature) : option DecodedFile.t :=
  let startIndex := findSequence payload (sig s) 0 in
  if negb (startIndex =? -1) && (startIndex <? 16) then
    let fileData := sliceFrom payload startIndex in
    let name := str "hidden-file." ++ ext s in
    let blob := Blob.new fileData (mime s) in
    Some (DecodedFile.mk blob name (mime s) (Blob.size blob))
  else None.

(** The loop over the registry, in the order of the table. *)
Fixpoint signatureScan (payload : Uint8Array) (table : list (string * Signature)) : option DecodedFile.t :=
  match table with
  | [] => None
  | (_, s) :: rest =>
      match signatureHit payload s with
      | Some file => Some file
      | None => signatureScan payload rest
      end
  end.

(** How control leaves a [try] block: by a [return], by reaching its end,
    or by an exception that its [catch] handles. *)
Inductive tryOutcome :=
| Returned (file : DecodedFile.t)
| Completed
| Caught.

(** The [try] block of [processPayload]. A read outside the buffer, a
    SyntaxError of the parser and a property read on [null] are the
    exceptions it can raise. *)
Definition envelopeTier (payload : Uint8Array) : tryOutcome :=
  match getUint32 payload 0 with
  | None => Caught
  | Some metadataLength =>
      if (len payload >=? 4 + metadataLength) && (metadataLength >? 0)
         && (metadataLength <? len payload) then
        let metadataBuffer := slice payload 4 (4 + metadataLength) in
        let metadataString := TextDecoder_decode metadataBuffer in
        match JSON_parse metadataString with
        | None => Caught
        | Some metadata =>
            let fileData := sliceFrom payload (4 + metadataLength) in
            match getProperty metadata (str "name") with
            | None => Caught
            | Some name =>
                match asString name with
                | None => Completed
                | Some name =>
                    match getProperty metadata (str "type") with
                    | None => Caught
                    | Some type =>
                        match asString type with
                        | None => Completed
                        | Some type =>
                            if len fileData >? 0 then
                              let blob := Blob.new fileData type in
                              Returned (DecodedFile.mk blob name type (Blob.size blob))
                            else Completed
                        end
                    end
                end
            end
        end
      else Completed
  end.

(** The signature and generic tiers of [processPayload]. *)
Definition fallbackTiers (payload : Uint8Array) : option DecodedFile.t :=
  if len payload >? 0 then
    match signatureScan payload signatures with
    | Some file => Some file
    | None =>
        let blob := Blob.new payload (str "application/octet-stream") in
        Some (DecodedFile.mk blob (str "hidden-file.dat")
                (str "application/octet-stream") (Blob.size blob))
    end
  else None.

Definition processPayload (payload : Uint8Array) : option DecodedFile.t :=
  match (if len payload >? 4 then envelopeTier payload else Completed) with
  | Returned file => Some file
  | Completed | Caught => fallbackTiers payload
  end.

(** ** Decoding: the M4A box walker *)

(** [\s] of a regular expression without the [u] flag. *)
Definition isWhiteSpace (u : Z) : bool :=
  ((9 <=? u) && (u <=? 13)) || (u =? 32) || (u =? 160) || (u =? 5760)
  || ((8192 <=? u) && (u <=? 8202)) || (u =? 8232) || (u =? 8233)
  || (u =? 8239) || (u =? 8287) || (u =? 12288) || (u =? 65279).

Definition isBoxTypeUnit (u : Z) : bool :=
  ((97 <=? u) && (u <=? 122)) || ((65 <=? u) && (u <=? 90))
  || ((48 <=? u) && (u <=? 57)) || isWhiteSpace u.

(** [/^[a-zA-Z0-9\s]{4}$/.test(boxType)]. *)
Definition boxTypeTest (boxType : jsstring) : bool :=
  (List.length boxType =? 4)%nat && forallb isBoxTypeUnit boxType.

Inductive iteration :=
| Continue (offset : Z)
| Break (offset : Z).

(** After [offset += boxSize]: the test that closes the loop body. *)
Definition checkAdvance (data : Uint8Array) (currentBoxStart offset : Z) : iteration :=
  if offset >? len data then Break currentBoxStart else Continue offset.

(** One pass through the body of the [while] loop, entered at [offset].
    A read that throws leaves through the [catch] with [offset] unchanged. *)
Definition walkBox (data : Uint8Array) (offset : Z) : iteration :=
  let currentBoxStart := offset in
  match getUint32 data offset with
  | None => Break offset
  | Some boxSize =>
      let boxType := TextDecoder_decode (subarray data (offset + 4) (offset + 8)) in
      if negb (boxTypeTest boxType) then Break offset
      else if boxSize =? 1 then
        if offset + 16 >? len data then Break offset
        else
          match getUint32 data (offset + 8) with
          | None => Break offset
          | Some sizeHigh =>
              if sizeHigh >? 0 then Break offset
              else
                match getUint32 data (offset + 12) with
                | None => Break offset
                | Some boxSize => checkAdvance data currentBoxStart (offset + boxSize)
                end
          end
      else if boxSize =? 0 then Break (len data)
      else checkAdvance data currentBoxStart (offset + boxSize)
  end.

(** The [while (offset + 8 <= data.length)] loop: the offset it ends with,
    or [None] when [fuel] passes do not end it. *)
Fixpoint walkBoxes (fuel : nat) (data : Uint8Array) (offset : Z) : option Z :=
  match fuel with
  | O => None
  | S fuel' =>
      if offset + 8 <=? len data then
        match walkBox data offset with
        | Continue offset' => walkBoxes fuel' data offset'
        | Break offset' => Some offset'
        end
      else Some offset
  end.

Inductive ExecutableType := exe | apk.

(** [expectedType.toUpperCase()]. *)
Definition toUpperCase (t : ExecutableType) : string :=
  match t with
  | exe => "EXE"%string
  | apk => "APK"%string
  end.

(** What [decodeM4AContainer] does once the loop has left [splitIndex]. *)
Definition extractAt (data : Uint8Array) (expectedType : ExecutableType) (splitIndex : Z) : option DecodedFile.t :=
  if (splitIndex >? 0) && (splitIndex <? len data) then
    let payload := sliceFrom data splitIndex in
    let signatureKey := toUpperCase expectedType in
    match lookupSignature signatureKey signatures with
    | Some s =>
        if findSequence payload (sig s) 0 =? 0 then
          let blob := Blob.new payload (mime s) in
          Some (DecodedFile.mk blob (str "hidden." ++ ext s) (mime s) (Blob.size blob))
        else None
    | None => None
    end
  else None.

Definition decodeM4AContainer (fuel : nat) (data : Uint8Array) (expectedType : ExecutableType) : option (option DecodedFile.t) :=
  match walkBoxes fuel data 0 with
  | None => None
  | Some splitIndex => Some (extractAt data expectedType splitIndex)
  end.

(** ** Decoding: orchestration *)

Record DecodeOptions := {
  executableType : option ExecutableType
}.

Definition PNG_header : list byte := [x89; x50; x4e; x47].
Definition PNG_full_eof : list byte :=
  [x00; x00; x00; x00; x49; x45; x4e; x44; xae; x42; x60; x82].
Definition PNG_eof_len : Z := 12.
Definition JPEG_header : list byte := [xff; xd8; xff].
Definition JPEG_eof : list byte := [xff; xd9].
Definition JPEG_eof_len : Z := 2.
Definition GIF_header : list byte := [x47; x49; x46].
Definition GIF_eof : byte := x3b.
Definition GIF_eof_len : Z := 1.

Definition startsWith (arr : Uint8Array) (prefix : list byte) : bool :=
  if len arr <? len prefix then false else matchAt arr prefix 0.

(** The [while (searchOffset < data.length)] loop of the JPEG branch: the
    value of [lastKnownIndex] it ends with. *)
Fixpoint jpegScan (fuel : nat) (data : Uint8Array) (lastKnownIndex searchOffset : Z) : option Z :=
  match fuel with
  | O => None
  | S fuel' =>
      if searchOffset <? len data then
        let tempIndex := findSequence data JPEG_eof searchOffset in
        if negb (tempIndex =? -1) then jpegScan fuel' data tempIndex (tempIndex + 1)
        else Some lastKnownIndex
      else Some lastKnownIndex
  end.

Definition locatePNG (data : Uint8Array) : Z :=
  let eofIndex := findSequence data PNG_full_eof 0 in
  if negb (eofIndex =? -1) then eofIndex + PNG_eof_len else -1.

Definition locateJPEG (fuel : nat) (data : Uint8Array) : option Z :=
  match jpegScan fuel data (-1) 0 with
  | None => None
  | Some lastKnownIndex =>
      Some (if negb (lastKnownIndex =? -1) then lastKnownIndex + JPEG_eof_len else -1)
  end.

Definition locateGIF (data : Uint8Array) : Z :=
  let eofIndex := lastIndexOf data GIF_eof (len data - 2) in
  if negb (eofIndex =? -1) then eofIndex + GIF_eof_len else -1.

(** The value of [splitIndex] after the chain of marker tests. *)
Definition locateBoundary (fuel : nat) (data : Uint8Array) : option Z :=
  if startsWith data PNG_header then Some (locatePNG data)
  else if startsWith data JPEG_header then locateJPEG fuel data
  else if startsWith data GIF_header then Some (locateGIF data)
  else Some (-1).

(** [name.toLowerCase()], on the ASCII letters (no other code unit is mapped
    to one of [.m4a]). *)
Definition toLowerCase (s : jsstring) : jsstring := map toAsciiLower s.

Definition isM4A (polyglotFile : File.t) : bool :=
  endsWithStr (toLowerCase (File.name polyglotFile)) (str ".m4a")
  || jsstring_eqb (File.type polyglotFile) (str "audio/mp4").

(** The part of [decodePolyglot] that follows the M4A attempt. *)
Definition decodeByMarkers (fuel : nat) (data : Uint8Array) : option (option DecodedFile.t) :=
  match locateBoundary fuel data with
  | None => None
  | Some splitIndex =>
      if negb (splitIndex =? -1) && (splitIndex <? len data) then
        let payload := sliceFrom data splitIndex in
        Some (processPayload payload)
      else Some None
  end.

Definition decodePolyglot (fuel : nat) (polyglotFile : File.t) (options : option DecodeOptions) : option (option DecodedFile.t) :=
  let data := File.arrayBuffer polyglotFile in
  match (if isM4A polyglotFile
         then match options with Some o => executableType o | None => None end
         else None) with
  | Some expectedType =>
      match decodeM4AContainer fuel data expectedType with
      | None => None
      | Some (Some result) => Some (Some result)
      | Some None => decodeByMarkers fuel data
      end
  | None => decodeByMarkers fuel data
  end.

(** ** Decoding with the oracle

    [response] is the text of the model's answer, [None] when the request
    fails. The request itself (the prompt built from the file) is not part of
    the model. A failure inside the [try] is rethrown, so the promise is
    rejected. *)
Definition decodePolyglotWithAI (polyglotFile : File.t) (response : option jsstring) : promise (option DecodedFile.t) :=
  let data := File.arrayBuffer polyglotFile in
  match response with
  | None => Rejected
  | Some text =>
      match JSON_parse text with
      | None => Rejected
      | Some jsonResponse =>
          match getProperty jsonResponse (str "splitIndex") with
          | None => Rejected
          | Some splitIndex =>
              match asNumber splitIndex with
              | Some splitIndex =>
                  if (splitIndex >? 0) && (splitIndex <? len data) then
                    let payload := sliceFrom data splitIndex in
                    Resolved (processPayload payload)
                  else Resolved None
              | None => Resolved None
              end
          end
      end
  end.

(** ** Encoding *)

(** [s.lastIndexOf('.')]. *)
Fixpoint lastIndexOfUnit (s : jsstring) (u : Z) (i : Z) : Z :=
  match s with
  | [] => -1
  | v :: s' =>
      let later := lastIndexOfUnit s' u (i + 1) in
      if negb (later =? -1) then later else if v =? u then i else -1
  end.

(** [s.substring(0, final)]. *)
Definition substring0 (s : jsstring) (final : Z) : jsstring :=
  firstn (Z.to_nat final) s.

(** [target.set(source, offset)] on typed arrays; [None] stands for the
    RangeError of a source that does not fit. *)
Definition set (target source : Uint8Array) (offset : Z) : option Uint8Array :=
  if (offset <? 0) || (offset + len source >? len target) then None
  else Some (firstn (Z.to_nat offset) target ++ source
             ++ skipn (Z.to_nat (offset + len source)) target).

(** [new Uint8Array(length)]. *)
Definition newUint8Array (length : Z) : Uint8Array := repeat x00 (Z.to_nat length).

(** The container actually used and its name: the PNG rendering when the
    automatic conversion applies. *)
Definition finalContainer (containerFile : File.t) (autoConvert : bool) : option File.t :=
  let isConvertibleText := startsWithStr (File.type containerFile) (str "text/") in
  let isPoorImageContainer :=
    existsb (jsstring_eqb (File.type containerFile))
            [str "image/bmp"; str "image/webp"; str "image/tiff"] in
  if autoConvert && (isConvertibleText || isPoorImageContainer) then
    let prefix := substring0 (File.name containerFile)
                    (lastIndexOfUnit (File.name containerFile) 46 0) in
    let originalNameNoExt :=
      match prefix with [] => File.name containerFile | _ => prefix end in
    let newContainerName := originalNameNoExt ++ str ".png" in
    match (if isConvertibleText
           then convertTextToPng (TextDecoder_decode (File.arrayBuffer containerFile))
           else convertImage containerFile (str "image/png")) with
    | Some convertedBlob => Some (File.mk newContainerName (str "image/png") convertedBlob)
    | None => None
    end
  else Some containerFile.

(** [hiddenFile.type || 'application/octet-stream']. *)
Definition recordedType (hiddenFile : File.t) : jsstring :=
  match File.type hiddenFile with
  | [] => str "application/octet-stream"
  | ty => ty
  end.

(** The metadata header of the hidden file, as bytes. *)
Definition metadataBufferOf (hiddenFile : File.t) : Uint8Array :=
  let metadata := metadataObject (File.name hiddenFile) (recordedType hiddenFile) in
  let metadataString := JSON_stringify metadata in
  TextEncoder_encode metadataString.

Definition createPolyglot (containerFile hiddenFile : File.t) (autoConvert : bool) : promise CreatePolyglotResult :=
  match finalContainer containerFile autoConvert with
  | None => Rejected
  | Some finalContainerFile =>
      let newContainerName := File.name finalContainerFile in
      let containerBuffer := File.arrayBuffer finalContainerFile in
      let hiddenBuffer := File.arrayBuffer hiddenFile in
      let metadataBuffer := metadataBufferOf hiddenFile in
      let metadataLength := len metadataBuffer in
      let lengthBuffer := setUint32 metadataLength in
      let combinedLength :=
        len containerBuffer + len lengthBuffer + metadataLength + len hiddenBuffer in
      let combinedArray := newUint8Array combinedLength in
      let offset := 0 in
      match set combinedArray containerBuffer offset with
      | None => Rejected
      | Some combinedArray =>
          let offset := offset + len containerBuffer in
          match set combinedArray lengthBuffer offset with
          | None => Rejected
          | Some combinedArray =>
              let offset := offset + len lengthBuffer in
              match set combinedArray metadataBuffer offset with
              | None => Rejected
              | Some combinedArray =>
                  let offset := offset + metadataLength in
                  match set combinedArray hiddenBuffer offset with
                  | None => Rejected
                  | Some combinedArray =>
                      Resolved {| blob := Blob.new combinedArray (File.type finalContainerFile);
                                  newContainerName := newContainerName |}
                  end
              end
          end
      end
  end.

End Codec.

(** ** A reference platform

    One implementation of the platform interface, used to run the codec on
    concrete inputs. Its parser reads JSON values whose numbers have no
    fraction and no exponent. The conversions of the container always
    fail. *)

Module Reference.

Definition hexValue (u : Z) : option Z :=
  if (48 <=? u) && (u <=? 57) then Some (u - 48)
  else if (97 <=? u) && (u <=? 102) then Some (u - 87)
  else if (65 <=? u) && (u <=? 70) then Some (u - 55)
  else None.

Definition simpleEscape (e : Z) : option Z :=
  if e =? 34 then Some 34 else if e =? 92 then Some 92
  else if e =? 47 then Some 47 else if e =? 98 then Some 8
  else if e =? 102 then Some 12 else if e =? 110 then Some 10
  else if e =? 114 then Some 13 else if e =? 116 then Some 9
  else None.

Definition hex4 (a b c d : Z) : option Z :=
  match hexValue a, hexValue b, hexValue c, hexValue d with
  | Some a, Some b, Some c, Some d => Some (a * 4096 + b * 256 + c * 16 + d)
  | _, _, _, _ => None
  end.

Definition consTo (u : Z) (r : option (jsstring * list Z)) : option (jsstring * list Z) :=
  match r with
  | Some (s, rest) => Some (u :: s, rest)
  | None => None
  end.

(** The characters of a string, after its opening quote. *)
Fixpoint parseChars (input : list Z) : option (jsstring * list Z) :=
  match input with
  | [] => None
  | u :: rest =>
      if u =? 34 then Some ([], rest)
      else if u =? 92 then
        match rest with
        | e :: rest1 =>
            if e =? 117 then
              match rest1 with
              | a :: b :: c :: d :: rest2 =>
                  match hex4 a b c d with
                  | Some v => consTo v (parseChars rest2)
                  | None => None
                  end
              | _ => None
              end
            else
              match simpleEscape e with
              | Some v => consTo v (parseChars rest1)
              | None => None
              end
        | [] => None
        end
      else if u <? 32 then None
      else consTo u (parseChars rest)
  end.

Fixpoint skipWs (input : list Z) : list Z :=
  match input with
  | u :: rest =>
      if (u =? 32) || (u =? 9) || (u =? 10) || (u =? 13) then skipWs rest else input
  | [] => []
  end.

Definition isDigit (u : Z) : bool := (48 <=? u) && (u <=? 57).

Fixpoint parseDigits (input : list Z) (acc : Z) : Z * list Z :=
  match input with
  | u :: rest => if isDigit u then parseDigits rest (acc * 10 + (u - 48)) else (acc, input)
  | [] => (acc, [])
  end.

(** An integer: an optional minus sign, then [0] or digits without a leading
    zero. *)
Definition parseInteger (input : list Z) : option (Z * list Z) :=
  let (negative, input1) :=
    match input with
    | u :: rest => if u =? 45 then (true, rest) else (false, input)
    | [] => (false, [])
    end in
  match input1 with
  | u :: rest =>
      if u =? 48 then Some (0, rest)
      else if isDigit u then
        let (n, rest') := parseDigits input1 0 in
        Some (if negative then - n else n, rest')
      else None
  | [] => None
  end.

Definition expect (word : jsstring) (input : list Z) : option (list Z) :=
  if startsWithStr input word then Some (skipn (List.length word) input) else None.

Fixpoint parseValue (fuel : nat) (input : list Z) : option (json * list Z) :=
  match fuel with
  | O => None
  | S fuel' =>
      match skipWs input with
      | [] => None
      | u :: rest =>
          if u =? 34 then
            match parseChars rest with
            | Some (s, rest') => Some (JString s, rest')
            | None => None
            end
          else if u =? 123 then
            match skipWs rest with
            | v :: rest' =>
                if v =? 125 then Some (JObject [], rest')
                else
                  match parseMembers fuel' (skipWs rest) with
                  | Some (members, rest'') => Some (JObject members, rest'')
                  | None => None
                  end
            | [] => None
            end
          else if u =? 91 then
            match skipWs rest with
            | v :: rest' =>
                if v =? 93 then Some (JArray [], rest')
                else
                  match parseItems fuel' (skipWs rest) with
                  | Some (items, rest'') => Some (JArray items, rest'')
                  | None => None
                  end
            | [] => None
            end
          else if u =? 110 then option_map (pair JNull) (expect (str "null") (u :: rest))
          else if u =? 116 then option_map (pair (JBool true)) (expect (str "true") (u :: rest))
          else if u =? 102 then option_map (pair (JBool false)) (expect (str "false") (u :: rest))
          else
            match parseInteger (u :: rest) with
            | Some (n, rest') => Some (JNumber n, rest')
            | None => None
            end
      end
  end

with parseMembers (fuel : nat) (input : list Z) : option (list (jsstring * json) * list Z) :=
  match fuel with
  | O => None
  | S fuel' =>
      match input with
      | u :: rest =>
          if u =? 34 then
            match parseChars rest with
            | Some (key, rest1) =>
                match skipWs rest1 with
                | c :: rest2 =>
                    if c =? 58 then
                      match parseValue fuel' rest2 with
                      | Some (v, rest3) =>
                          match skipWs rest3 with
                          | d :: rest4 =>
                              if d =? 125 then Some ([(key, v)], rest4)
                              else if d =? 44 then
                                match parseMembers fuel' (skipWs rest4) with
                                | Some (members, rest5) => Some ((key, v) :: members, rest5)
                                | None => None
                                end
                              else None
                          | [] => None
                          end
                      | None => None
                      end
                    else None
                | [] => None
                end
            | None => None
            end
          else None
      | [] => None
      end
  end

with parseItems (fuel : nat) (input : list Z) : option (list json * list Z) :=
  match fuel with
  | O => None
  | S fuel' =>
      match parseValue fuel' input with
      | Some (v, rest) =>
          match skipWs rest with
          | d :: rest1 =>
              if d =? 93 then Some ([v], rest1)
              else if d =? 44 then
                match parseItems fuel' rest1 with
                | Some (items, rest2) => Some (v :: items, rest2)
                | None => None
                end
              else None
          | [] => None
          end
      | None => None
      end
  end.

(** Members read later win over earlier members of the same name. *)
Fixpoint lastWins (members : list (jsstring * json)) : list (jsstring * json) :=
  match members with
  | [] => []
  | (k, v) :: rest =>
      match lookupMember k (lastWins rest) with
      | Some _ => lastWins rest
      | None => (k, v) :: lastWins rest
      end
  end.

Definition parse (text : jsstring) : option json :=
  match parseValue (S (List.length text)) text with
  | Some (v, rest) =>
      match skipWs rest with
      | [] =>
          match v with
          | JObject members => Some (JObject (lastWins members))
          | _ => Some v
          end
      | _ => None
      end
  | None => None
  end.

Definition platform : Platform := {|
  JSON_parse := parse;
  convertTextToPng := fun _ => None;
  convertImage := fun _ _ => None
|}.

End Reference.


(** ** Further functions of the service *)

(** *** detectFileType *)

(** The [for ... in signatures] loop of [detectFileType]. *)
Fixpoint detectLoop (data : Uint8Array) (table : list (string * Signature)) : option (jsstring * jsstring) :=
  match table with
  | [] => None
  | (_, s) :: rest =>
      let offset := match offset s with Some o => o | None => 0 end in
      if len data <? offset + len (sig s) then detectLoop data rest
      else if matchAt data (sig s) offset then Some (mime s, ext s)
      else detectLoop data rest
  end.

Definition detectFileType (data : Uint8Array) : option (jsstring * jsstring) :=
  detectLoop data signatures.

(** *** bytesToHex *)

(** [b.toString(16).padStart(2, '0')]. *)
Definition byteToHex (b : byte) : jsstring :=
  [hexDigit (toZ b / 16); hexDigit (toZ b mod 16)].

Definition bytesToHex (bytes : Uint8Array) : jsstring :=
  flat_map byteToHex bytes.

(** *** The request of decodePolyglotWithAI

    The parts of the prompt that depend on the file. *)

Definition promptContainerType (polyglotFile : File.t) : jsstring :=
  let data := File.arrayBuffer polyglotFile in
  let containerType :=
    match File.type polyglotFile with
    | [] => str "unknown"
    | ty => ty
    end in
  if jsstring_eqb containerType (str "application/octet-stream")
     || match containerType with [] => true | _ => false end
  then
    match detectFileType data with
    | Some (mime, _) => mime
    | None => containerType
    end
  else containerType.

(** [bytesToHex(data.slice(0, 256))]. *)
Definition promptFirstBytes (data : Uint8Array) : jsstring :=
  bytesToHex (slice data 0 256).

(** [bytesToHex(data.slice(-1024))]. *)
Definition promptLastBytes (data : Uint8Array) : jsstring :=
  bytesToHex (sliceFrom data (-1024)).

(** *** convertTextToPng: the layout of the lines

    [fits line] stands for [ctx.measureText(line).width < maxWidth - padding * 2]. *)

(** [s.split(sep)] for a separator of one code unit. *)
Fixpoint split (sep : Z) (s : jsstring) : list jsstring :=
  match s with
  | [] => [[]]
  | u :: rest =>
      if u =? sep then [] :: split sep rest
      else
        match split sep rest with
        | w :: ws => (u :: w) :: ws
        | [] => [[u]]
        end
  end.

(** The loop over [words[1..]] and the push that follows it. *)
Fixpoint wrapWords (fits : jsstring -> bool) (currentLine : jsstring) (words : list jsstring) : list jsstring :=
  match words with
  | [] => [currentLine]
  | word :: rest =>
      if fits (currentLine ++ str " " ++ word)
      then wrapWords fits (currentLine ++ str " " ++ word) rest
      else currentLine :: wrapWords fits word rest
  end.

Definition wrapParagraph (fits : jsstring -> bool) (paragraph : jsstring) : list jsstring :=
  match split 32 paragraph with
  | first :: rest => wrapWords fits first rest
  | [] => wrapWords fits [] []
  end.

(** The array [lines] that [convertTextToPng] draws. *)
Definition textLines (fits : jsstring -> bool) (text : jsstring) : list jsstring :=
  flat_map (wrapParagraph fits) (split 10 text).

(** [canvas.height]. *)
Definition canvasHeight (fits : jsstring -> bool) (text : jsstring) : Z :=
  Z.of_nat (List.length (textLines fits text)) * 20 + 20 * 2.

(** [lines.join(sep)]. *)
Fixpoint join (sep : jsstring) (parts : list jsstring) : jsstring :=
  match parts with
  | [] => []
  | [part] => part
  | part :: rest => part ++ sep ++ join sep rest
  end.

(** *** The image service *)

(** [name.substring(0, name.lastIndexOf('.')) || name]. *)
Definition originalNameNoExt (name : jsstring) : jsstring :=
  match substring0 name (lastIndexOfUnit name 46 0) with
  | [] => name
  | prefix => prefix
  end.

(** [targetMimeType.split('/')[1] || 'dat']. *)
Definition newExtension (targetMimeType : jsstring) : jsstring :=
  match nth_error (split 47 targetMimeType) 1 with
  | Some (u :: extension) => u :: extension
  | _ => str "dat"
  end.

Module ConvertResult.

Record t := mk {
  blob : Blob.t;
  name : jsstring
}.

End ConvertResult.

Module ImageService.

(** [canvas] is the blob that [canvas.toBlob] delivers, [None] when the
    image does not load, the context is missing or no blob is delivered. *)
Definition convertImage (imageFile : File.t) (targetMimeType : jsstring)
    (canvas : option Blob.t) : promise ConvertResult.t :=
  if negb (startsWithStr (File.type imageFile) (str "image/")) then Rejected
  else
    match canvas with
    | Some blob =>
        let newName :=
          originalNameNoExt (File.name imageFile) ++ str "." ++ newExtension targetMimeType in
        Resolved (ConvertResult.mk blob newName)
    | None => Rejected
    end.

End ImageService.

(** *** The decode handler of the application *)

(** What the handler leaves in the state of the page. *)
Record DecodeState := {
  extractedFile : option DecodedFile.t;
  decodeError : option jsstring
}.

Definition noHiddenFileMessage (isM4aFile useAiDecode : bool) (executableType : ExecutableType) : jsstring :=
  if isM4aFile then
    str "Could not find a hidden " ++ str (toUpperCase executableType)
    ++ str " file in the M4A container. Try the other executable type or AI-assisted decoding."
  else if useAiDecode then
    str "AI-assisted decoding could not find a hidden file. The file may not contain hidden data or the format is too complex."
  else
    str "No hidden file found. The file might not be a supported polyglot (e.g. PNG, JPG, GIF container) or it contains no hidden data.".

Section Application.

Context {P : Platform}.

(** [handleDecodeFile], from the state [previous] of the page: [response] is
    the answer of the oracle, should it be asked; [None] when the decode does
    not return within [fuel]. *)
Definition handleDecodeFile (fuel : nat) (previous : DecodeState)
    (decodeFile : option File.t)
    (useAiDecode isM4aFile : bool) (executableType : ExecutableType)
    (response : option jsstring) : option DecodeState :=
  match decodeFile with
  | None =>
      Some {| extractedFile := extractedFile previous;
              decodeError := Some (str "Please select a file to decode.") |}
  | Some decodeFile =>
      let decodeOptions :=
        if isM4aFile then Some {| executableType := Some executableType |} else None in
      match decodePolyglot fuel decodeFile decodeOptions with
      | None => None
      | Some result =>
          let afterAi :=
            match result with
            | None =>
                if useAiDecode then decodePolyglotWithAI decodeFile response
                else Resolved result
            | Some _ => Resolved result
            end in
          match afterAi with
          | Rejected =>
              Some {| extractedFile := None;
                      decodeError :=
                        Some (str "The AI model failed to process the file. Please try again.") |}
          | Resolved (Some file) =>
              Some {| extractedFile := Some file; decodeError := None |}
          | Resolved None =>
              Some {| extractedFile := None;
                      decodeError :=
                        Some (noHiddenFileMessage isM4aFile useAiDecode executableType) |}
          end
      end
  end.

End Application.

(** ** Vocabulary of the properties *)

(** [needle] occurs in [payload] at [i] and nowhere before. *)
Definition firstOccurrence (payload : Uint8Array) (needle : list byte) (i : Z) : Prop :=
  0 <= i /\ matchAt payload needle i = true
  /\ forall j, 0 <= j < i -> matchAt payload needle j = false.

(** [needle] does not occur in [payload] at an offset below 16. *)
Definition absentBelow16 (payload : Uint8Array) (needle : list byte) : Prop :=
  forall j, 0 <= j < 16 -> matchAt payload needle j = false.

(** The file the signature tier makes of signature [s] found at [i]. *)
Definition signatureFile (payload : Uint8Array) (s : Signature) (i : Z) : DecodedFile.t :=
  let blob := Blob.new (sliceFrom payload i) (mime s) in
  DecodedFile.mk blob (str "hidden-file." ++ ext s) (mime s) (Blob.size blob).

(** The file of the generic tier. *)
Definition genericFile (payload : Uint8Array) : DecodedFile.t :=
  let blob := Blob.new payload (str "application/octet-stream") in
  DecodedFile.mk blob (str "hidden-file.dat") (str "application/octet-stream")
    (Blob.size blob).

Definition shiftIteration (k : Z) (it : iteration) : iteration :=
  match it with
  | Continue o => Continue (k + o)
  | Break o => Break (k + o)
  end.

(** The offsets at which the walker starts a pass through the loop body. *)
Inductive Reaches (data : Uint8Array) : Z -> Prop :=
| Reaches_start : Reaches data 0
| Reaches_next (o o' : Z) :
    Reaches data o -> o + 8 <= len data -> walkBox data o = Continue o' ->
    Reaches data o'.

(** The size a box header declares: the 32-bit field, or the 64-bit extended
    size when the field is 1. *)
Definition declaredSize (data : Uint8Array) (o : Z) : option Z :=
  match getUint32 data o with
  | Some size =>
      if size =? 1 then
        match getUint32 data (o + 8), getUint32 data (o + 12) with
        | Some high, Some low => Some (high * 4294967296 + low)
        | _, _ => None
        end
      else Some size
  | None => None
  end.

(** A box: the size field, the type tag, the body. *)
Definition box (size : Z) (boxType body : list byte) : Uint8Array :=
  setUint32 size ++ boxType ++ body.

(** A type tag that the walker accepts. *)
Definition wellFormedType (boxType : list byte) : Prop :=
  len boxType = 4 /\ boxTypeTest (TextDecoder_decode boxType) = true.

(** The file [decodeM4AContainer] makes of a payload for signature [s]. *)
Definition hintedFile (s : Signature) (payload : Uint8Array) : DecodedFile.t :=
  let blob := Blob.new payload (mime s) in
  DecodedFile.mk blob (str "hidden." ++ ext s) (mime s) (Blob.size blob).

Definition EXE : Signature :=
  {| sig := [x4d; x5a]; offset := None;
     mime := str "application/vnd.microsoft.portable-executable";
     ext := str "exe" |}.

Definition withHint (t : ExecutableType) : option DecodeOptions :=
  Some {| executableType := Some t |}.

(** A box of type [ftyp] whose 32-bit size is 1 and whose extended size is
    0. *)
Definition stallingBuffer : Uint8Array :=
  [x00; x00; x00; x01; x66; x74; x79; x70;
   x00; x00; x00; x00; x00; x00; x00; x00].

(** The characters [QuoteJSONString] writes between the quotes. *)
Definition quotedChars (value : jsstring) : jsstring :=
  flat_map quoteCodePoint (StringToCodePoints value).

(** A string without a surrogate outside a pair. *)
Inductive WellFormed : jsstring -> Prop :=
| WellFormed_nil : WellFormed []
| WellFormed_unit (u : Z) (s : jsstring) :
    0 <= u < 65536 -> isSurrogate u = false -> WellFormed s -> WellFormed (u :: s)
| WellFormed_pair (u v : Z) (s : jsstring) :
    isLeadSurrogate u = true -> isTrailSurrogate v = true -> WellFormed s ->
    WellFormed (u :: v :: s).

(** A Unicode scalar value. *)
Definition isScalar (cp : Z) : Prop :=
  0 <= cp <= 1114111 /\ isSurrogate cp = false.

(** The bytes [createPolyglot] writes after the container. *)
Definition appended (hiddenFile : File.t) : Uint8Array :=
  setUint32 (len (metadataBufferOf hiddenFile))
  ++ metadataBufferOf hiddenFile ++ File.arrayBuffer hiddenFile.

(** The hidden file as the envelope tier returns it. *)
Definition recoveredFile (hiddenFile : File.t) : DecodedFile.t :=
  DecodedFile.mk (Blob.new (File.arrayBuffer hiddenFile) (recordedType hiddenFile))
    (File.name hiddenFile) (recordedType hiddenFile)
    (len (File.arrayBuffer hiddenFile)).

(** A buffer made of boxes with 32-bit sizes and accepted type tags. *)
Inductive Boxes : Uint8Array -> Prop :=
| Boxes_nil : Boxes []
| Boxes_cons (size : Z) (boxType body rest : list byte) :
    wellFormedType boxType -> size = 8 + len body -> size < 4294967296 ->
    Boxes rest -> Boxes (box size boxType body ++ rest).

(** ** Sample inputs *)

Definition jpegSample : Uint8Array :=
  [xff; xd8; xff; x00; xff; xd9; x01; xff; xd9; x02; xff; xd9; xaa].

Definition jpegFile : File.t :=
  File.mk (str "photo.jpg") (str "image/jpeg") jpegSample.

Definition gifSample : Uint8Array := [x47; x49; x46; x3b; x00; x3b].

Definition ftyp : list byte := [x66; x74; x79; x70].
Definition moov : list byte := [x6d; x6f; x6f; x76].
Definition free : list byte := [x66; x72; x65; x65].
Definition aaaa : list byte := [x61; x61; x61; x61].
Definition zeros8 : list byte := [x00; x00; x00; x00; x00; x00; x00; x00].

Definition truncatedM4A : Uint8Array :=
  box 8 ftyp [] ++ [x00; x00; x00; x20] ++ moov.

Definition exeTail : list byte := [x90; x00].

Definition m4aSample : Uint8Array :=
  box 8 ftyp [] ++ box 16 moov zeros8 ++ box 8 free [] ++ x4d :: x5a :: exeTail.

Definition m4aFile (data : Uint8Array) : File.t :=
  File.mk (str "song.m4a") (str "audio/mp4") data.

Definition shortM4A : Uint8Array := box 8 ftyp [] ++ [x4d; x5a; x90].

(** Three boxes of sizes 8, 16 and 8, then bytes that begin with 4D 5A and
    read on as the header of a box of type [aaaa]. *)
Definition giantBuffer (zeros : list byte) : Uint8Array :=
  box 8 ftyp [] ++ box 16 moov zeros8 ++ box 8 free []
  ++ x4d :: x5a :: ([x00; x00] ++ aaaa ++ zeros).

(** With 0x4D5A0000 - 8 bytes after that header. *)
Definition giantTail : list byte :=
  [x00; x00] ++ aaaa ++ repeat x00 (Z.to_nat 1297743864).

Definition giantM4A : Uint8Array := giantBuffer (repeat x00 (Z.to_nat 1297743864)).

Definition pngMagic : list byte := [x89; x50; x4e; x47; x0d; x0a; x1a; x0a].

Definition pngAt15 : Uint8Array := repeat x00 15 ++ pngMagic ++ [x01].
Definition pngAt16 : Uint8Array := repeat x00 16 ++ pngMagic ++ [x01].

Definition PNG : Signature :=
  {| sig := pngMagic; offset := None; mime := str "image/png"; ext := str "png" |}.

Definition sampleContainer : File.t :=
  File.mk (str "photo.png") (str "image/png") [x89; x50; x4e; x47].

Definition sampleHidden : File.t :=
  File.mk (str "note.txt") (str "text/plain") [x68; x69].

Definition untypedHidden : File.t := File.mk (str "note.xyz") [] [x68; x69].

Definition emptyHidden : File.t := File.mk (str "empty.txt") (str "text/plain") [].

Definition oracleAnswer (splitIndex : Z) : jsstring :=
  JSON_stringify (JObject [(str "splitIndex", JNumber splitIndex)]).


Definition ZIP : Signature :=
  {| sig := [x50; x4b; x03; x04]; offset := None;
     mime := str "application/zip"; ext := str "zip" |}.

Definition zipSample : Uint8Array := [x50; x4b; x03; x04; x14; x00].

Definition pngStart : Uint8Array := pngMagic ++ [x01].

(** A box [ftyp], then a box [moov] of size 0, which runs to the end. *)
Definition sizeZeroM4A : Uint8Array :=
  box 8 ftyp [] ++ [x00; x00; x00; x00] ++ moov ++ [x4d; x5a; x90; x00].

(** The header and the end chunk of a PNG file. *)
Definition pngBytes : Uint8Array := PNG_header ++ PNG_full_eof.

Definition pngContainer : File.t :=
  File.mk (str "photo.png") (str "image/png") pngBytes.

Definition jpegContainer : File.t :=
  File.mk (str "photo.jpg") (str "image/jpeg") [xff; xd8; xff; xe0; xff; xd9].

Definition gifContainer : File.t :=
  File.mk (str "anim.gif") (str "image/gif") [x47; x49; x46; x38; x39; x61; x3b].

Definition jpegHeaderOnly : Uint8Array := [xff; xd8; xff; xe0; x00; x10].


Definition m4aContainer : File.t :=
  m4aFile (box 8 ftyp [] ++ box 16 moov zeros8 ++ []).

Definition bmpContainer : File.t :=
  File.mk (str "scan.old.bmp") (str "image/bmp") [x42; x4d].

(** A hidden file in which the JPEG end marker occurs. *)
Definition jpegHidden : File.t :=
  File.mk (str "inner.jpg") (str "image/jpeg") jpegSample.

(** The polyglot of a container used as it is, and the file it is saved as. *)
Definition polyglotResult (containerFile hiddenFile : File.t) : CreatePolyglotResult :=
  {| blob := Blob.new (File.arrayBuffer containerFile ++ appended hiddenFile)
                      (File.type containerFile);
     newContainerName := File.name containerFile |}.

Definition polyglotOf (containerFile hiddenFile : File.t) : File.t :=
  File.mk (File.name containerFile) (File.type containerFile)
    (File.arrayBuffer containerFile ++ appended hiddenFile).

(** A platform whose conversions deliver a fixed PNG. *)
Definition convertingPlatform : Platform := {|
  JSON_parse := Reference.parse;
  convertTextToPng := fun _ => Some pngBytes;
  convertImage := fun _ _ => Some pngBytes
|}.

Definition convertedResult (hiddenFile : File.t) : CreatePolyglotResult :=
  {| blob := Blob.new (pngBytes ++ appended hiddenFile) (str "image/png");
     newContainerName := str "scan.old.png" |}.

Definition pngCanvas : Blob.t := Blob.new pngBytes (str "image/png").

Definition emptyState : DecodeState :=
  {| extractedFile := None; decodeError := None |}.

Definition foundState (hiddenFile : File.t) : DecodeState :=
  {| extractedFile := Some (recoveredFile hiddenFile); decodeError := None |}.


(** * Properties *)

(** ** Bytes and typed arrays *)

Lemma toZ_range (b : byte) : 0 <= toZ b < 256.
Proof.
  unfold toZ. pose proof (Byte.to_N_bounded b). lia.
Qed.

Lemma toZ_byteOfZ (z : Z) : toZ (byteOfZ z) = z mod 256.
Proof.
  unfold byteOfZ, toZ.
  pose proof (Z.mod_pos_bound z 256 ltac:(lia)) as Hm.
  destruct (Byte.of_N (Z.to_N (z mod 256))) as [b|] eqn:E.
  - apply Byte.to_of_N in E. rewrite E. lia.
  - apply Byte.of_N_None_iff in E. lia.
Qed.

Lemma byteOfZ_toZ (b : byte) : byteOfZ (toZ b) = b.
Proof.
  unfold byteOfZ, toZ. pose proof (Byte.to_N_bounded b).
  rewrite Z.mod_small by lia. rewrite N2Z.id, Byte.of_to_N. reflexivity.
Qed.

Lemma toZ_inj (a b : byte) : toZ a = toZ b -> a = b.
Proof.
  intros H. rewrite <- (byteOfZ_toZ a), <- (byteOfZ_toZ b), H. reflexivity.
Qed.

Lemma len_nonneg (a : Uint8Array) : 0 <= len a.
Proof. unfold len. lia. Qed.

Lemma len_app (a b : Uint8Array) : len (a ++ b) = len a + len b.
Proof. unfold len. rewrite length_app. lia. Qed.

Lemma len_cons (x : byte) (a : Uint8Array) : len (x :: a) = 1 + len a.
Proof. unfold len. simpl List.length. lia. Qed.

Lemma len_nil : len [] = 0.
Proof. reflexivity. Qed.

Lemma len_zero_nil (a : Uint8Array) : len a = 0 -> a = [].
Proof. destruct a; [reflexivity | rewrite len_cons; pose proof (len_nonneg a); lia]. Qed.

Lemma byteAt_range (a : Uint8Array) (i : Z) (b : byte) :
  byteAt a i = Some b -> 0 <= i < len a.
Proof.
  unfold byteAt, len. destruct (Z.ltb_spec i 0); [discriminate|].
  intros E. assert (nth_error a (Z.to_nat i) <> None) as N by congruence.
  apply nth_error_Some in N. lia.
Qed.

Lemma byteAt_defined (a : Uint8Array) (i : Z) :
  0 <= i < len a -> exists b, byteAt a i = Some b.
Proof.
  unfold byteAt, len. intros H. destruct (Z.ltb_spec i 0); [lia|].
  destruct (nth_error a (Z.to_nat i)) eqn:E; [eauto|].
  apply nth_error_None in E. lia.
Qed.

Lemma byteAt_outside (a : Uint8Array) (i : Z) :
  len a <= i -> byteAt a i = None.
Proof.
  unfold byteAt, len. intros H. destruct (Z.ltb_spec i 0); [reflexivity|].
  apply nth_error_None. lia.
Qed.

Lemma byteAt_cons_0 (x : byte) (a : Uint8Array) : byteAt (x :: a) 0 = Some x.
Proof. reflexivity. Qed.

Lemma byteAt_cons_S (x : byte) (a : Uint8Array) (i : Z) :
  0 < i -> byteAt (x :: a) i = byteAt a (i - 1).
Proof.
  intros H. unfold byteAt.
  destruct (Z.ltb_spec i 0); [lia|]. destruct (Z.ltb_spec (i - 1) 0); [lia|].
  replace (Z.to_nat i) with (S (Z.to_nat (i - 1))) by lia. reflexivity.
Qed.

Lemma byteAt_app_l (a b : Uint8Array) (i : Z) :
  i < len a -> byteAt (a ++ b) i = byteAt a i.
Proof.
  unfold byteAt, len. intros H. destruct (Z.ltb_spec i 0); [reflexivity|].
  apply nth_error_app1. lia.
Qed.

Lemma byteAt_app_r (a b : Uint8Array) (i : Z) :
  len a <= i -> byteAt (a ++ b) i = byteAt b (i - len a).
Proof.
  unfold byteAt, len. intros H.
  destruct (Z.ltb_spec i 0); [lia|].
  destruct (Z.ltb_spec (i - Z.of_nat (List.length a)) 0); [lia|].
  rewrite nth_error_app2 by lia. f_equal. lia.
Qed.

Lemma byteAt_skipn (a : Uint8Array) (k i : Z) :
  0 <= k -> 0 <= i -> byteAt (skipn (Z.to_nat k) a) i = byteAt a (k + i).
Proof.
  intros Hk Hi. unfold byteAt.
  destruct (Z.ltb_spec i 0); [lia|]. destruct (Z.ltb_spec (k + i) 0); [lia|].
  rewrite nth_error_skipn. f_equal. lia.
Qed.

(** [slice] between two indices inside the array. *)
Lemma slice_inside (a : Uint8Array) (start final : Z) :
  0 <= start <= final -> final <= len a ->
  slice a start final = firstn (Z.to_nat (final - start)) (skipn (Z.to_nat start) a).
Proof.
  intros H1 H2. unfold slice, relIndex.
  destruct (Z.ltb_spec start 0); [lia|]. destruct (Z.ltb_spec final 0); [lia|].
  rewrite !Z.min_l by lia. reflexivity.
Qed.

Lemma sliceFrom_inside (a : Uint8Array) (start : Z) :
  0 <= start <= len a -> sliceFrom a start = skipn (Z.to_nat start) a.
Proof.
  intros H. unfold sliceFrom. rewrite slice_inside by lia.
  apply firstn_all2. rewrite length_skipn. unfold len in *. lia.
Qed.

Lemma len_sliceFrom (a : Uint8Array) (start : Z) :
  0 <= start <= len a -> len (sliceFrom a start) = len a - start.
Proof.
  intros H. rewrite sliceFrom_inside by lia. unfold len in *.
  rewrite length_skipn. lia.
Qed.

Lemma sliceFrom_app (a b : Uint8Array) : sliceFrom (a ++ b) (len a) = b.
Proof.
  rewrite sliceFrom_inside by (rewrite len_app; pose proof (len_nonneg a); pose proof (len_nonneg b); lia).
  unfold len. rewrite Nat2Z.id. rewrite skipn_app, skipn_all, Nat.sub_diag. reflexivity.
Qed.

Lemma slice_app_middle (a b c : Uint8Array) :
  slice (a ++ b ++ c) (len a) (len a + len b) = b.
Proof.
  pose proof (len_nonneg a); pose proof (len_nonneg b); pose proof (len_nonneg c).
  rewrite slice_inside by (rewrite ?len_app; lia).
  replace (len a + len b - len a) with (len b) by lia.
  unfold len. rewrite !Nat2Z.id. rewrite skipn_app, skipn_all, Nat.sub_diag. simpl.
  rewrite firstn_app, firstn_all, Nat.sub_diag. simpl. apply app_nil_r.
Qed.

Lemma getUint32_range (a : Uint8Array) (i v : Z) :
  getUint32 a i = Some v -> 0 <= v < 4294967296.
Proof.
  unfold getUint32.
  destruct (byteAt a i) as [b0|]; [|discriminate].
  destruct (byteAt a (i + 1)) as [b1|]; [|discriminate].
  destruct (byteAt a (i + 2)) as [b2|]; [|discriminate].
  destruct (byteAt a (i + 3)) as [b3|]; [|discriminate].
  intros E. inversion E; subst.
  pose proof (toZ_range b0); pose proof (toZ_range b1).
  pose proof (toZ_range b2); pose proof (toZ_range b3). lia.
Qed.

Lemma getUint32_defined (a : Uint8Array) (i : Z) :
  0 <= i -> i + 4 <= len a -> exists v, getUint32 a i = Some v.
Proof.
  intros H1 H2. unfold getUint32.
  destruct (byteAt_defined a i ltac:(lia)) as [b0 ->].
  destruct (byteAt_defined a (i + 1) ltac:(lia)) as [b1 ->].
  destruct (byteAt_defined a (i + 2) ltac:(lia)) as [b2 ->].
  destruct (byteAt_defined a (i + 3) ltac:(lia)) as [b3 ->].
  eauto.
Qed.

Lemma big_endian_digits (w : Z) :
  0 <= w < 4294967296 ->
  (w / 16777216) mod 256 * 16777216 + (w / 65536) mod 256 * 65536
  + (w / 256) mod 256 * 256 + w mod 256 = w.
Proof.
  intros Hm.
  rewrite (Z.mod_small (w / 16777216))
    by (split; [apply Z.div_pos; lia | apply Z.div_lt_upper_bound; lia]).
  pose proof (Z.div_mod w 256 ltac:(lia)) as D1.
  pose proof (Z.div_mod (w / 256) 256 ltac:(lia)) as D2.
  pose proof (Z.div_mod (w / 65536) 256 ltac:(lia)) as D3.
  assert (w / 256 / 256 = w / 65536) as Q1 by (rewrite Z.div_div by lia; reflexivity).
  assert (w / 65536 / 256 = w / 16777216) as Q2 by (rewrite Z.div_div by lia; reflexivity).
  rewrite Q1 in D2. rewrite Q2 in D3.
  generalize dependent (w / 16777216). generalize dependent (w / 65536 mod 256).
  generalize dependent (w / 65536). generalize dependent (w / 256 mod 256).
  generalize dependent (w / 256). generalize dependent (w mod 256).
  intros. lia.
Qed.

Lemma getUint32_head (b0 b1 b2 b3 : byte) (rest : Uint8Array) :
  getUint32 (b0 :: b1 :: b2 :: b3 :: rest) 0
  = Some (toZ b0 * 16777216 + toZ b1 * 65536 + toZ b2 * 256 + toZ b3).
Proof. reflexivity. Qed.

(** A length written by [setUint32] is read back by [getUint32]. *)
Lemma getUint32_setUint32 (v : Z) (rest : Uint8Array) :
  getUint32 (setUint32 v ++ rest) 0 = Some (v mod 4294967296).
Proof.
  unfold setUint32. cbv zeta. cbn [app]. rewrite getUint32_head.
  rewrite !toZ_byteOfZ. f_equal.
  apply big_endian_digits. apply Z.mod_pos_bound. lia.
Qed.

(** ** findSequence *)

Lemma matchAt_bounds (h : Uint8Array) (needle : list byte) (i : Z) :
  needle <> [] -> matchAt h needle i = true -> 0 <= i /\ i + len needle <= len h.
Proof.
  revert i. induction needle as [|x needle IH]; intros i Hne Hm; [congruence|].
  simpl in Hm. destruct (byteAt h i) as [b|] eqn:E; [|discriminate].
  apply byteAt_range in E. destruct (Byte.eqb b x); [|discriminate].
  rewrite len_cons. destruct needle as [|y needle'].
  - rewrite len_nil. lia.
  - specialize (IH (i + 1) ltac:(discriminate) Hm). lia.
Qed.

Lemma matchAt_outside (h : Uint8Array) (needle : list byte) (i : Z) :
  needle <> [] -> len h < i + len needle -> matchAt h needle i = false.
Proof.
  intros Hne Hlt. destruct (matchAt h needle i) eqn:E; [|reflexivity].
  apply matchAt_bounds in E; [lia | assumption].
Qed.

Lemma findFrom_spec (n : nat) (h : Uint8Array) (needle : list byte) (i : Z) :
  (findFrom n h needle i = -1
   /\ forall j, i <= j < i + Z.of_nat n -> matchAt h needle j = false)
  \/ (i <= findFrom n h needle i < i + Z.of_nat n
      /\ matchAt h needle (findFrom n h needle i) = true
      /\ forall j, i <= j < findFrom n h needle i -> matchAt h needle j = false).
Proof.
  revert i. induction n as [|n IH]; intros i.
  - left. split; [reflexivity | intros; lia].
  - simpl findFrom. destruct (matchAt h needle i) eqn:E.
    + right. repeat split; try lia; assumption.
    + destruct (IH (i + 1)) as [[Hr Hall] | (Hr & Hm & Hall)].
      * left. split; [assumption|]. intros j Hj.
        destruct (Z.eq_dec j i) as [->|]; [assumption | apply Hall; lia].
      * right. split; [lia|]. split; [assumption|]. intros j Hj.
        destruct (Z.eq_dec j i) as [->|]; [assumption | apply Hall; lia].
Qed.

(** [findSequence] returns the first occurrence at or after [start]. *)
Lemma findSequence_found (h : Uint8Array) (needle : list byte) (start p : Z) :
  needle <> [] -> start <= p -> matchAt h needle p = true ->
  (forall j, start <= j < p -> matchAt h needle j = false) ->
  findSequence h needle start = p.
Proof.
  intros Hne Hsp Hm Hfirst. unfold findSequence.
  pose proof (matchAt_bounds h needle p Hne Hm) as [Hp0 Hp1].
  set (n := Z.to_nat (len h - len needle - start + 1)).
  assert (p < start + Z.of_nat n) as Hn by (unfold n; lia).
  destruct (findFrom_spec n h needle start) as [[_ Hall] | (Hr & Hmr & Hall)].
  - rewrite Hall in Hm by lia. discriminate.
  - destruct (Z.lt_trichotomy (findFrom n h needle start) p) as [L | [E | G]].
    + rewrite Hfirst in Hmr by lia. discriminate.
    + assumption.
    + rewrite Hall in Hm by lia. discriminate.
Qed.

Lemma findSequence_none (h : Uint8Array) (needle : list byte) (start : Z) :
  (forall j, start <= j -> matchAt h needle j = false) ->
  findSequence h needle start = -1 \/ findSequence h needle start < start.
Proof.
  intros Hall. unfold findSequence.
  destruct (findFrom_spec (Z.to_nat (len h - len needle - start + 1)) h needle start)
    as [[Hr _] | (Hr & Hmr & _)].
  - left. assumption.
  - rewrite Hall in Hmr by lia. discriminate.
Qed.

Lemma findSequence_absent (h : Uint8Array) (needle : list byte) (start : Z) :
  0 <= start ->
  (forall j, start <= j -> matchAt h needle j = false) ->
  findSequence h needle start = -1.
Proof.
  intros H0 Hall. destruct (findSequence_none h needle start Hall) as [E | L]; [assumption|].
  unfold findSequence in *.
  destruct (findFrom_spec (Z.to_nat (len h - len needle - start + 1)) h needle start)
    as [[Hr _] | (Hr & Hmr & _)]; [assumption | lia].
Qed.

(** What a result of [findSequence] says about the haystack. *)
Lemma findSequence_result (h : Uint8Array) (needle : list byte) (start : Z) :
  needle <> [] -> 0 <= start ->
  (findSequence h needle start = -1
   /\ forall j, start <= j -> matchAt h needle j = false)
  \/ (start <= findSequence h needle start
      /\ matchAt h needle (findSequence h needle start) = true
      /\ forall j, start <= j < findSequence h needle start -> matchAt h needle j = false).
Proof.
  intros Hne H0. unfold findSequence.
  set (n := Z.to_nat (len h - len needle - start + 1)).
  destruct (findFrom_spec n h needle start) as [[Hr Hall] | (Hr & Hmr & Hall)].
  - left. split; [assumption|]. intros j Hj.
    destruct (Z.lt_ge_cases j (start + Z.of_nat n)) as [L | G].
    + apply Hall. lia.
    + apply matchAt_outside; [assumption|]. unfold n in G. lia.
  - right. split; [lia|]. split; assumption.
Qed.

(** ** The payload classifier *)

Lemma signatures_nonempty (k : string) (s : Signature) :
  In (k, s) signatures -> sig s <> [].
Proof.
  unfold signatures. simpl.
  intros H; repeat (destruct H as [H | H]; [inversion H; subst; simpl; discriminate|]).
  contradiction.
Qed.

Lemma signatureHit_found (payload : Uint8Array) (s : Signature) (i : Z) :
  sig s <> [] -> firstOccurrence payload (sig s) i -> i < 16 ->
  signatureHit payload s = Some (signatureFile payload s i).
Proof.
  intros Hne (H0 & Hm & Hfirst) H16. unfold signatureHit.
  rewrite (findSequence_found payload (sig s) 0 i Hne H0 Hm Hfirst).
  destruct (Z.eqb_spec i (-1)); [lia|]. destruct (Z.ltb_spec i 16); [|lia].
  reflexivity.
Qed.

Lemma signatureHit_absent (payload : Uint8Array) (s : Signature) :
  sig s <> [] -> absentBelow16 payload (sig s) -> signatureHit payload s = None.
Proof.
  intros Hne Habs. unfold signatureHit.
  destruct (findSequence_result payload (sig s) 0 Hne ltac:(lia)) as [[E _] | (Hr & Hm & _)].
  - rewrite E. reflexivity.
  - destruct (Z.eqb_spec (findSequence payload (sig s) 0) (-1)); [reflexivity|].
    destruct (Z.ltb_spec (findSequence payload (sig s) 0) 16); [|reflexivity].
    rewrite Habs in Hm by lia. discriminate.
Qed.

Lemma signatureScan_absent (payload : Uint8Array) (table : list (string * Signature)) :
  (forall k s, In (k, s) table -> sig s <> [] /\ absentBelow16 payload (sig s)) ->
  signatureScan payload table = None.
Proof.
  induction table as [|[k s] table IH]; intros H; [reflexivity|].
  simpl. destruct (H k s (or_introl eq_refl)) as [Hne Habs].
  rewrite signatureHit_absent by assumption.
  apply IH. intros k' s' Hin. apply (H k'). right. assumption.
Qed.

Lemma signatureScan_found (payload : Uint8Array) (before after : list (string * Signature))
    (k : string) (s : Signature) (i : Z) :
  (forall k' s', In (k', s') before -> sig s' <> [] /\ absentBelow16 payload (sig s')) ->
  sig s <> [] -> firstOccurrence payload (sig s) i -> i < 16 ->
  signatureScan payload (before ++ (k, s) :: after) = Some (signatureFile payload s i).
Proof.
  induction before as [|[k' s'] before IH]; intros Hb Hne Hocc H16.
  - simpl. rewrite (signatureHit_found payload s i) by assumption. reflexivity.
  - simpl. destruct (Hb k' s' (or_introl eq_refl)) as [Hne' Habs'].
    rewrite signatureHit_absent by assumption.
    apply IH; try assumption. intros k'' s'' Hin. apply (Hb k''). right. assumption.
Qed.

Section Classifier.

Context {P : Platform}.

Lemma processPayload_nonempty (payload : Uint8Array) :
  payload <> [] -> exists file, processPayload payload = Some file.
Proof.
  intros Hne. unfold processPayload.
  assert (exists file, fallbackTiers payload = Some file) as Hfall.
  { unfold fallbackTiers.
    assert (0 < len payload) as Hpos.
    { destruct payload; [congruence|]. rewrite len_cons. pose proof (len_nonneg payload). lia. }
    destruct (Z.gtb_spec (len payload) 0); [|lia].
    destruct (signatureScan payload signatures); eauto. }
  destruct (if len payload >? 4 then envelopeTier payload else Completed); eauto.
Qed.

(** C2. A payload whose leading big-endian length field [N] is 0 or exceeds
    the bytes that remain after the field is not decoded as an envelope:
    the [try] block is left at its end, without a [return] and without an
    exception, and the classifier returns the result of the signature and
    generic tiers. *)
Theorem envelope_bound_check (payload : Uint8Array) (N : Z) :
  getUint32 payload 0 = Some N ->
  N = 0 \/ N > len payload - 4 ->
  envelopeTier payload = Completed
  /\ processPayload payload = fallbackTiers payload.
Proof.
  intros HN Hbad.
  assert (envelopeTier payload = Completed) as Henv.
  { unfold envelopeTier. rewrite HN.
    destruct (Z.geb_spec (len payload) (4 + N)); simpl; [|reflexivity].
    destruct (Z.gtb_spec N 0); simpl; [|reflexivity]. lia. }
  split; [assumption|]. unfold processPayload. rewrite Henv.
  destruct (len payload >? 4); reflexivity.
Qed.

(** C9. For a payload that the envelope tier does not decode:
    the first signature of the registry, in table order, whose first
    occurrence in the payload lies at an offset below 16 gives the file,
    sliced from that occurrence, named [hidden-file.<ext>], with the MIME
    of the registry; when no signature occurs below offset 16 a payload that
    is not empty is returned whole as [hidden-file.dat] of type
    [application/octet-stream]; the empty payload gives nothing. *)
Theorem signature_window (payload : Uint8Array) :
  (forall file,
      (if len payload >? 4 then envelopeTier payload else Completed) <> Returned file) ->
  (forall before after k s i,
      signatures = before ++ (k, s) :: after ->
      (forall k' s', In (k', s') before -> absentBelow16 payload (sig s')) ->
      firstOccurrence payload (sig s) i -> i < 16 ->
      processPayload payload = Some (signatureFile payload s i))
  /\ ((forall k s, In (k, s) signatures -> absentBelow16 payload (sig s)) ->
      payload <> [] ->
      processPayload payload = Some (genericFile payload))
  /\ (payload = [] -> processPayload payload = None).
Proof.
  intros Henv.
  assert (processPayload payload = fallbackTiers payload) as ->.
  { unfold processPayload.
    destruct (if len payload >? 4 then envelopeTier payload else Completed) as [file| |];
      [exfalso; apply (Henv file); reflexivity | reflexivity | reflexivity]. }
  unfold fallbackTiers.
  split; [|split].
  - intros before after k s i Htable Hbefore Hocc H16.
    assert (sig s <> []) as Hne.
    { apply (signatures_nonempty k). rewrite Htable. apply in_or_app. right. left. reflexivity. }
    assert (0 < len payload) as Hpos.
    { destruct Hocc as (H0 & Hm & _). apply matchAt_bounds in Hm; [|assumption].
      destruct (sig s); [congruence|]. rewrite len_cons in Hm.
      pose proof (len_nonneg l). lia. }
    destruct (Z.gtb_spec (len payload) 0); [|lia].
    rewrite Htable. rewrite (signatureScan_found payload before after k s i); try assumption; [reflexivity|].
    intros k' s' Hin. split; [|eapply Hbefore; eassumption].
    apply (signatures_nonempty k'). rewrite Htable. apply in_or_app. left. assumption.
  - intros Hall Hne.
    assert (0 < len payload) as Hpos.
    { destruct payload; [congruence|]. rewrite len_cons. pose proof (len_nonneg payload). lia. }
    destruct (Z.gtb_spec (len payload) 0); [|lia].
    rewrite signatureScan_absent; [reflexivity|].
    intros k s Hin. split; [eapply signatures_nonempty; eassumption | eapply Hall; eassumption].
  - intros ->. reflexivity.
Qed.

End Classifier.

(** ** The encoder *)

Lemma skipn_repeat (x : byte) (k m : nat) :
  skipn k (repeat x m) = repeat x (m - k).
Proof.
  revert k. induction m as [|m IH]; intros [|k]; simpl; try reflexivity. apply IH.
Qed.

(** Writing [source] at the end of the part of the array already filled. *)
Lemma set_fill (filled source : Uint8Array) (m : nat) :
  (List.length source <= m)%nat ->
  set (filled ++ repeat x00 m) source (len filled)
  = Some ((filled ++ source) ++ repeat x00 (m - List.length source)).
Proof.
  intros Hm. unfold set.
  pose proof (len_nonneg filled).
  assert (len (filled ++ repeat x00 m) = len filled + Z.of_nat m) as Hlen
    by (rewrite len_app; unfold len; rewrite repeat_length; reflexivity).
  rewrite Hlen.
  destruct (Z.ltb_spec (len filled) 0); [lia|].
  destruct (Z.gtb_spec (len filled + len source) (len filled + Z.of_nat m));
    [unfold len in *; lia|].
  simpl orb. cbv iota. f_equal. unfold len.
  rewrite Nat2Z.id. rewrite firstn_app, firstn_all, Nat.sub_diag. simpl firstn.
  rewrite app_nil_r.
  replace (Z.to_nat (Z.of_nat (List.length filled) + Z.of_nat (List.length source)))
    with (List.length filled + List.length source)%nat by lia.
  rewrite skipn_app.
  rewrite (skipn_all2 filled) by lia.
  replace (List.length filled + List.length source - List.length filled)%nat
    with (List.length source) by lia.
  rewrite skipn_repeat. rewrite <- app_assoc. reflexivity.
Qed.

Lemma set_fill_start (source : Uint8Array) (m : nat) :
  (List.length source <= m)%nat ->
  set (repeat x00 m) source 0 = Some (source ++ repeat x00 (m - List.length source)).
Proof. intros Hm. exact (set_fill [] source m Hm). Qed.

(** The four writes of [createPolyglot] into the fresh array. *)
Lemma set_four (a b c d : Uint8Array) :
  match set (newUint8Array (len a + len b + len c + len d)) a 0 with
  | Some arr1 =>
      match set arr1 b (0 + len a) with
      | Some arr2 =>
          match set arr2 c (0 + len a + len b) with
          | Some arr3 => set arr3 d (0 + len a + len b + len c)
          | None => None
          end
      | None => None
      end
  | None => None
  end = Some (a ++ b ++ c ++ d).
Proof.
  unfold newUint8Array.
  replace (Z.to_nat (len a + len b + len c + len d))
    with (List.length a + (List.length b + (List.length c + List.length d)))%nat
    by (unfold len; lia).
  rewrite Z.add_0_l.
  rewrite set_fill_start by lia.
  replace (List.length a + (List.length b + (List.length c + List.length d)) - List.length a)%nat
    with (List.length b + (List.length c + List.length d))%nat by lia.
  rewrite (set_fill a b) by lia.
  replace (List.length b + (List.length c + List.length d) - List.length b)%nat
    with (List.length c + List.length d)%nat by lia.
  rewrite <- (len_app a b).
  rewrite (set_fill (a ++ b) c) by lia.
  replace (List.length c + List.length d - List.length c)%nat
    with (List.length d) by lia.
  rewrite <- (len_app (a ++ b) c).
  rewrite (set_fill ((a ++ b) ++ c) d) by lia.
  rewrite Nat.sub_diag. simpl repeat. rewrite app_nil_r.
  rewrite <- !app_assoc. reflexivity.
Qed.

Section Encoder.

Context {P : Platform}.

(** The blob of [createPolyglot] is the container followed by the length
    prefix, the metadata and the hidden bytes; the call is rejected only when
    the conversion of the container is. *)
Lemma createPolyglot_bytes (containerFile hiddenFile : File.t) (autoConvert : bool) :
  createPolyglot containerFile hiddenFile autoConvert
  = match finalContainer containerFile autoConvert with
    | None => Rejected
    | Some finalContainerFile =>
        Resolved {| blob := Blob.new
                      (File.arrayBuffer finalContainerFile
                       ++ setUint32 (len (metadataBufferOf hiddenFile))
                       ++ metadataBufferOf hiddenFile
                       ++ File.arrayBuffer hiddenFile)
                      (File.type finalContainerFile);
                    newContainerName := File.name finalContainerFile |}
    end.
Proof.
  unfold createPolyglot.
  destruct (finalContainer containerFile autoConvert) as [f|]; [|reflexivity].
  cbv zeta.
  pose proof (set_four (File.arrayBuffer f) (setUint32 (len (metadataBufferOf hiddenFile)))
                (metadataBufferOf hiddenFile) (File.arrayBuffer hiddenFile)) as H4.
  destruct (set _ (File.arrayBuffer f) 0) as [arr1|]; [|discriminate].
  destruct (set arr1 _ _) as [arr2|]; [|discriminate].
  destruct (set arr2 _ _) as [arr3|]; [|discriminate].
  rewrite H4. reflexivity.
Qed.

End Encoder.

(** ** UTF-8 and UTF-16 *)

Lemma lor_shiftl_low (c r n : Z) :
  0 <= n -> 0 <= r < 2 ^ n -> Z.lor (Z.shiftl c n) r = c * 2 ^ n + r.
Proof.
  intros Hn Hr.
  assert (Z.land (Z.shiftl c n) r = 0) as Hland.
  { rewrite <- (Z.mod_small r (2 ^ n)) by lia.
    rewrite <- Z.land_ones by lia.
    rewrite (Z.land_comm r). rewrite Z.land_assoc.
    rewrite (Z.land_ones (Z.shiftl c n)) by lia.
    rewrite Z.shiftl_mul_pow2 by lia. rewrite Z.mod_mul by lia. reflexivity. }
  pose proof (Z.add_lor_land (Z.shiftl c n) r) as H.
  rewrite Hland, Z.add_0_r in H. rewrite H.
  rewrite Z.shiftl_mul_pow2 by lia. reflexivity.
Qed.

Lemma land_63 (x : Z) : Z.land x 63 = x mod 64.
Proof. change 63 with (Z.ones 6). rewrite Z.land_ones by lia. reflexivity. Qed.

Lemma land_31 (x : Z) : Z.land x 31 = x mod 32.
Proof. change 31 with (Z.ones 5). rewrite Z.land_ones by lia. reflexivity. Qed.

Lemma land_15 (x : Z) : Z.land x 15 = x mod 16.
Proof. change 15 with (Z.ones 4). rewrite Z.land_ones by lia. reflexivity. Qed.

Lemma land_7 (x : Z) : Z.land x 7 = x mod 8.
Proof. change 7 with (Z.ones 3). rewrite Z.land_ones by lia. reflexivity. Qed.

(** A continuation byte written by the encoder. *)
Lemma continuation_byte (x : Z) :
  Z.lor 128 (Z.land x 63) = 128 + x mod 64.
Proof.
  rewrite land_63. change 128 with (Z.shiftl 2 6) at 1.
  rewrite lor_shiftl_low by (try lia; apply Z.mod_pos_bound; lia). reflexivity.
Qed.

(** The code point accumulated by the decoder. *)
Lemma accumulate (cp b : Z) :
  Z.lor (Z.shiftl cp 6) (Z.land b 63) = cp * 64 + b mod 64.
Proof.
  rewrite land_63. rewrite lor_shiftl_low by (try lia; apply Z.mod_pos_bound; lia).
  reflexivity.
Qed.

Lemma toZ_byteOfZ_small (z : Z) : 0 <= z < 256 -> toZ (byteOfZ z) = z.
Proof. intros H. rewrite toZ_byteOfZ. apply Z.mod_small. assumption. Qed.

Ltac arith := Z.div_mod_to_equations; lia.

(** The decoder reads back what the encoder writes for a scalar value. *)
Lemma utf8Decode_utf8Encode (cp : Z) (rest : Uint8Array) :
  isScalar cp ->
  utf8Decode Start (utf8Encode cp ++ rest) = cp :: utf8Decode Start rest.
Proof.
  intros [Hrange Hsur]. unfold isSurrogate in Hsur. unfold utf8Encode.
  rewrite !continuation_byte. rewrite !Z.shiftr_div_pow2 by lia.
  change (2 ^ 6) with 64. change (2 ^ 12) with 4096. change (2 ^ 18) with 262144.
  destruct (Z.leb_spec cp 127).
  - cbn [app utf8Decode utf8Step]. rewrite toZ_byteOfZ_small by lia.
    unfold utf8Lead. destruct (Z.leb_spec cp 127); [reflexivity | lia].
  - destruct (Z.leb_spec cp 2047).
    + cbn [app utf8Decode utf8Step].
      rewrite !toZ_byteOfZ_small by arith.
      unfold utf8Lead.
      destruct (Z.leb_spec (cp / 64 + 192) 127); [arith|].
      destruct (Z.leb_spec 194 (cp / 64 + 192)); [|arith].
      destruct (Z.leb_spec (cp / 64 + 192) 223); [|arith].
      simpl andb. cbv iota. cbn [utf8Step].
      destruct (Z.leb_spec 128 (128 + cp mod 64)); [|arith].
      destruct (Z.leb_spec (128 + cp mod 64) 191); [|arith].
      simpl andb. cbv iota zeta. rewrite accumulate, land_31.
      cbn [app]. f_equal. arith.
    + destruct (Z.leb_spec cp 65535).
      * cbn [app utf8Decode utf8Step].
        rewrite !toZ_byteOfZ_small by arith.
        unfold utf8Lead.
        destruct (Z.leb_spec (cp / 4096 + 224) 127); [arith|].
        destruct (Z.leb_spec 194 (cp / 4096 + 224)); [|arith].
        destruct (Z.leb_spec (cp / 4096 + 224) 223); [arith|].
        destruct (Z.leb_spec 224 (cp / 4096 + 224)); [|arith].
        destruct (Z.leb_spec (cp / 4096 + 224) 239); [|arith].
        simpl andb. cbv iota. cbn [utf8Step].
        assert (((if cp / 4096 + 224 =? 224 then 160 else 128) <=? 128 + cp / 64 mod 64)
                && (128 + cp / 64 mod 64 <=? (if cp / 4096 + 224 =? 237 then 159 else 191))
                = true) as ->.
        { apply andb_true_iff. split; apply Z.leb_le.
          - destruct (Z.eqb_spec (cp / 4096 + 224) 224); arith.
          - destruct (Z.eqb_spec (cp / 4096 + 224) 237); [|arith].
            destruct (Z.leb_spec 55296 cp); simpl in Hsur.
            + destruct (Z.leb_spec cp 57343); [discriminate | arith].
            + arith. }
        cbv iota zeta. cbn [utf8Step].
        rewrite !accumulate, land_15.
        destruct (Z.leb_spec 128 (128 + cp mod 64)); [|arith].
        destruct (Z.leb_spec (128 + cp mod 64) 191); [|arith].
        simpl andb. cbv iota. cbn [app]. f_equal. arith.
      * cbn [app utf8Decode utf8Step].
        rewrite !toZ_byteOfZ_small by arith.
        unfold utf8Lead.
        destruct (Z.leb_spec (cp / 262144 + 240) 127); [arith|].
        destruct (Z.leb_spec 194 (cp / 262144 + 240)); [|arith].
        destruct (Z.leb_spec (cp / 262144 + 240) 223); [arith|].
        destruct (Z.leb_spec 224 (cp / 262144 + 240)); [|arith].
        destruct (Z.leb_spec (cp / 262144 + 240) 239); [arith|].
        destruct (Z.leb_spec 240 (cp / 262144 + 240)); [|arith].
        destruct (Z.leb_spec (cp / 262144 + 240) 244); [|arith].
        simpl andb. cbv iota. cbn [utf8Step].
        assert (((if cp / 262144 + 240 =? 240 then 144 else 128) <=? 128 + cp / 4096 mod 64)
                && (128 + cp / 4096 mod 64 <=? (if cp / 262144 + 240 =? 244 then 143 else 191))
                = true) as ->.
        { apply andb_true_iff. split; apply Z.leb_le.
          - destruct (Z.eqb_spec (cp / 262144 + 240) 240); arith.
          - destruct (Z.eqb_spec (cp / 262144 + 240) 244); arith. }
        cbv iota zeta. cbn [utf8Step].
        rewrite !accumulate, land_7.
        destruct (Z.leb_spec 128 (128 + cp / 64 mod 64)); [|arith].
        destruct (Z.leb_spec (128 + cp / 64 mod 64) 191); [|arith].
        simpl andb. cbv iota zeta. cbn [utf8Step]. rewrite !accumulate.
        destruct (Z.leb_spec 128 (128 + cp mod 64)); [|arith].
        destruct (Z.leb_spec (128 + cp mod 64) 191); [|arith].
        simpl andb. cbv iota. cbn [app]. f_equal. arith.
Qed.

Lemma WellFormed_app (s t : jsstring) :
  WellFormed s -> WellFormed t -> WellFormed (s ++ t).
Proof.
  induction 1; intros Ht; cbn [app]; [assumption | |].
  - apply WellFormed_unit; auto.
  - apply WellFormed_pair; auto.
Qed.

Lemma WellFormed_ascii (s : jsstring) :
  Forall (fun u => 0 <= u < 128) s -> WellFormed s.
Proof.
  induction 1 as [|u s Hu _ IH]; [constructor|].
  apply WellFormed_unit; [lia | | assumption].
  unfold isSurrogate. destruct (Z.leb_spec 55296 u); [lia | reflexivity].
Qed.

(** The code points of a well-formed string are scalar values, and their
    UTF-16 encoding is the string. *)
Lemma StringToCodePoints_unit (u : Z) (s : jsstring) :
  isSurrogate u = false ->
  StringToCodePoints (u :: s) = u :: StringToCodePoints s.
Proof.
  intros H. cbn [StringToCodePoints]. unfold isSurrogate, isLeadSurrogate in *.
  destruct (Z.leb_spec 55296 u); [|reflexivity].
  destruct (Z.leb_spec u 56319); [|reflexivity].
  destruct (Z.leb_spec u 57343); [discriminate | lia].
Qed.

Lemma StringToCodePoints_pair (u v : Z) (s : jsstring) :
  isLeadSurrogate u = true -> isTrailSurrogate v = true ->
  StringToCodePoints (u :: v :: s)
  = (65536 + (u - 55296) * 1024 + (v - 56320)) :: StringToCodePoints s.
Proof.
  intros Hu Hv. cbn [StringToCodePoints]. rewrite Hu, Hv. reflexivity.
Qed.

Lemma surrogate_bounds (u : Z) :
  (isLeadSurrogate u = true -> 55296 <= u <= 56319)
  /\ (isTrailSurrogate u = true -> 56320 <= u <= 57343).
Proof.
  unfold isLeadSurrogate, isTrailSurrogate.
  split; intros H; apply andb_true_iff in H; destruct H as [H1 H2];
    apply Z.leb_le in H1; apply Z.leb_le in H2; lia.
Qed.

Lemma utf16Units_pair (u v : Z) :
  isLeadSurrogate u = true -> isTrailSurrogate v = true ->
  utf16Units (65536 + (u - 55296) * 1024 + (v - 56320)) = [u; v].
Proof.
  intros Hu Hv.
  apply (proj1 (surrogate_bounds u)) in Hu. apply (proj2 (surrogate_bounds v)) in Hv.
  unfold utf16Units.
  destruct (Z.ltb_spec (65536 + (u - 55296) * 1024 + (v - 56320)) 65536); [lia|].
  f_equal; [|f_equal]; arith.
Qed.

Lemma pair_isScalar (u v : Z) :
  isLeadSurrogate u = true -> isTrailSurrogate v = true ->
  isScalar (65536 + (u - 55296) * 1024 + (v - 56320)).
Proof.
  intros Hu Hv.
  apply (proj1 (surrogate_bounds u)) in Hu. apply (proj2 (surrogate_bounds v)) in Hv.
  split; [lia|]. unfold isSurrogate.
  destruct (Z.leb_spec 55296 (65536 + (u - 55296) * 1024 + (v - 56320))); [|reflexivity].
  destruct (Z.leb_spec (65536 + (u - 55296) * 1024 + (v - 56320)) 57343); [lia | reflexivity].
Qed.

Lemma TextEncoder_encode_unit (u : Z) (s : jsstring) :
  isSurrogate u = false ->
  TextEncoder_encode (u :: s) = utf8Encode u ++ TextEncoder_encode s.
Proof.
  intros H. unfold TextEncoder_encode. rewrite StringToCodePoints_unit by assumption.
  cbn [flat_map]. rewrite H. reflexivity.
Qed.

Lemma TextEncoder_encode_pair (u v : Z) (s : jsstring) :
  isLeadSurrogate u = true -> isTrailSurrogate v = true ->
  TextEncoder_encode (u :: v :: s)
  = utf8Encode (65536 + (u - 55296) * 1024 + (v - 56320)) ++ TextEncoder_encode s.
Proof.
  intros Hu Hv. unfold TextEncoder_encode. rewrite StringToCodePoints_pair by assumption.
  cbn [flat_map]. rewrite (proj2 (pair_isScalar u v Hu Hv)). reflexivity.
Qed.

Lemma utf8Decode_TextEncoder_encode (s : jsstring) :
  WellFormed s ->
  utf8Decode Start (TextEncoder_encode s) = StringToCodePoints s
  /\ flat_map utf16Units (StringToCodePoints s) = s.
Proof.
  induction 1 as [|u s Hu Hsur _ [IH1 IH2] | u v s Hu Hv _ [IH1 IH2]].
  - split; reflexivity.
  - rewrite TextEncoder_encode_unit, StringToCodePoints_unit by assumption.
    rewrite utf8Decode_utf8Encode by (split; [lia | assumption]).
    rewrite IH1. split; [reflexivity|]. cbn [flat_map]. rewrite IH2.
    unfold utf16Units. destruct (Z.ltb_spec u 65536); [reflexivity | lia].
  - rewrite TextEncoder_encode_pair, StringToCodePoints_pair by assumption.
    rewrite utf8Decode_utf8Encode by (apply pair_isScalar; assumption).
    rewrite IH1. split; [reflexivity|]. cbn [flat_map]. rewrite IH2.
    rewrite utf16Units_pair by assumption. reflexivity.
Qed.

(** Text that is well formed and does not begin with a byte order mark
    survives encoding and decoding. *)
Lemma TextDecoder_decode_TextEncoder_encode (u : Z) (s : jsstring) :
  WellFormed (u :: s) -> 0 <= u < 128 ->
  TextDecoder_decode (TextEncoder_encode (u :: s)) = u :: s.
Proof.
  intros Hwf Hu. destruct (utf8Decode_TextEncoder_encode (u :: s) Hwf) as [H1 H2].
  unfold TextDecoder_decode. rewrite H1.
  assert (isSurrogate u = false) as Hsur
    by (unfold isSurrogate; destruct (Z.leb_spec 55296 u); [lia | reflexivity]).
  rewrite StringToCodePoints_unit in * by assumption.
  cbn [stripBOM]. destruct (Z.eqb_spec u 65279); [lia|]. assumption.
Qed.

(** ** JSON text *)

Lemma hexDigit_ascii (d : Z) : 0 <= d < 16 -> 0 <= hexDigit d < 128.
Proof.
  intros H. unfold hexDigit. destruct (d <? 10); lia.
Qed.

Lemma UnicodeEscape_ascii (c : Z) : Forall (fun v => 0 <= v < 128) (UnicodeEscape c).
Proof.
  unfold UnicodeEscape.
  repeat constructor; try lia; apply hexDigit_ascii; apply Z.mod_pos_bound; lia.
Qed.

(** What [QuoteJSONString] writes for a code unit that is not part of a
    pair is well formed. *)
Lemma quoteCodePoint_unit_wf (u : Z) :
  0 <= u < 65536 -> WellFormed (quoteCodePoint u).
Proof.
  intros Hu. unfold quoteCodePoint.
  repeat match goal with
         | |- WellFormed (if ?c =? ?k then _ else _) =>
             destruct (Z.eqb_spec c k);
             [apply WellFormed_ascii; repeat constructor; lia|]
         end.
  destruct ((u <? 32) || isSurrogate u) eqn:E.
  - apply WellFormed_ascii, UnicodeEscape_ascii.
  - apply orb_false_iff in E. destruct E as [_ Hsur].
    unfold utf16Units. destruct (Z.ltb_spec u 65536); [|lia].
    apply WellFormed_unit; [assumption | assumption | constructor].
Qed.

Lemma quoteCodePoint_pair (u v : Z) :
  isLeadSurrogate u = true -> isTrailSurrogate v = true ->
  quoteCodePoint (65536 + (u - 55296) * 1024 + (v - 56320)) = [u; v].
Proof.
  intros Hu Hv. rewrite <- (utf16Units_pair u v Hu Hv).
  destruct (pair_isScalar u v Hu Hv) as [_ Hsur].
  apply (proj1 (surrogate_bounds u)) in Hu. apply (proj2 (surrogate_bounds v)) in Hv.
  unfold quoteCodePoint.
  repeat match goal with
         | |- (if ?c =? ?k then _ else _) = _ => destruct (Z.eqb_spec c k); [lia|]
         end.
  rewrite Hsur. destruct (Z.ltb_spec (65536 + (u - 55296) * 1024 + (v - 56320)) 32); [lia|].
  reflexivity.
Qed.

(** How [quotedChars] follows the structure of the string. *)
Lemma quotedChars_cases (u : Z) (s : jsstring) :
  (exists v s', s = v :: s' /\ isLeadSurrogate u = true /\ isTrailSurrogate v = true
                /\ quotedChars (u :: s) = u :: v :: quotedChars s')
  \/ quotedChars (u :: s) = quoteCodePoint u ++ quotedChars s.
Proof.
  unfold quotedChars. cbn [StringToCodePoints].
  destruct (isLeadSurrogate u) eqn:Hu; [|right; reflexivity].
  destruct s as [|v s']; [right; reflexivity|].
  destruct (isTrailSurrogate v) eqn:Hv; [|right; reflexivity].
  left. exists v, s'. repeat split; try assumption.
  cbn [flat_map]. rewrite quoteCodePoint_pair by assumption. reflexivity.
Qed.

Lemma quotedChars_wf (value : jsstring) :
  wfString value -> WellFormed (quotedChars value).
Proof.
  assert (forall n value, (List.length value <= n)%nat -> wfString value ->
                          WellFormed (quotedChars value)) as H.
  { induction n as [|n IH]; intros [|u s] Hlen Hwf; try (constructor; fail);
      [simpl in Hlen; lia|].
    inversion Hwf as [|? ? Hu Hs]; subst.
    destruct (quotedChars_cases u s) as [(v & s' & -> & Hlead & Htrail & ->) | ->].
    - inversion Hs; subst. apply WellFormed_pair; try assumption.
      apply IH; [simpl in Hlen; lia | assumption].
    - apply WellFormed_app; [apply quoteCodePoint_unit_wf; assumption|].
      apply IH; [simpl in Hlen; lia | assumption]. }
  intros Hwf. apply (H (List.length value)); [lia | assumption].
Qed.

(** The text written for a metadata object. *)
Lemma JSON_stringify_metadata (name type : jsstring) :
  JSON_stringify (metadataObject name type)
  = [123; 34; 110; 97; 109; 101; 34; 58; 34] ++ quotedChars name
    ++ [34; 44; 34; 116; 121; 112; 101; 34; 58; 34] ++ quotedChars type
    ++ [34; 125].
Proof.
  unfold metadataObject. cbn [JSON_stringify]. unfold QuoteJSONString.
  change (flat_map quoteCodePoint (StringToCodePoints (str "name")))
    with [110; 97; 109; 101].
  change (flat_map quoteCodePoint (StringToCodePoints (str "type")))
    with [116; 121; 112; 101].
  fold (quotedChars name). fold (quotedChars type).
  cbn [app]. repeat (rewrite <- app_assoc; cbn [app]). reflexivity.
Qed.

Lemma JSON_stringify_metadata_wf (name type : jsstring) :
  wfString name -> wfString type ->
  WellFormed (JSON_stringify (metadataObject name type)).
Proof.
  intros Hn Ht. rewrite JSON_stringify_metadata.
  repeat apply WellFormed_app; try (apply quotedChars_wf; assumption);
    apply WellFormed_ascii; repeat constructor; lia.
Qed.

(** The metadata header is decoded to the text it was encoded from. *)
Lemma TextDecoder_decode_metadata (name type : jsstring) :
  wfString name -> wfString type ->
  TextDecoder_decode (TextEncoder_encode (JSON_stringify (metadataObject name type)))
  = JSON_stringify (metadataObject name type).
Proof.
  intros Hn Ht. pose proof (JSON_stringify_metadata_wf name type Hn Ht) as Hwf.
  rewrite JSON_stringify_metadata in *. cbn [app] in *.
  apply TextDecoder_decode_TextEncoder_encode; [assumption | lia].
Qed.

Lemma TextEncoder_encode_metadata_nonempty (name type : jsstring) :
  TextEncoder_encode (JSON_stringify (metadataObject name type)) <> [].
Proof.
  rewrite JSON_stringify_metadata. cbn [app].
  rewrite TextEncoder_encode_unit by reflexivity. discriminate.
Qed.

(** ** The envelope round trip *)

Lemma wfString_str (s : string) : wfString (str s).
Proof.
  unfold wfString, str. apply Forall_forall. intros u Hin.
  apply in_map_iff in Hin. destruct Hin as (b & <- & _).
  pose proof (toZ_range b). lia.
Qed.

Lemma wfString_recordedType (hiddenFile : File.t) :
  wfString (File.type hiddenFile) -> wfString (recordedType hiddenFile).
Proof.
  unfold recordedType. destruct (File.type hiddenFile); intros H;
    [apply wfString_str | assumption].
Qed.

Section EnvelopeTier.

Context {P : Platform}.

(** When the envelope tier returns a file. *)
Lemma envelopeTier_reads (payload : Uint8Array) (N : Z) (metadata : json)
    (name type : jsstring) :
  getUint32 payload 0 = Some N ->
  0 < N -> 4 + N < len payload ->
  JSON_parse (TextDecoder_decode (slice payload 4 (4 + N))) = Some metadata ->
  getProperty metadata (str "name") = Some (Some (JString name)) ->
  getProperty metadata (str "type") = Some (Some (JString type)) ->
  envelopeTier payload
  = Returned (DecodedFile.mk (Blob.new (sliceFrom payload (4 + N)) type) name type
                (len (sliceFrom payload (4 + N)))).
Proof.
  intros HN Hpos Hlt Hparse Hname Htype. unfold envelopeTier. rewrite HN.
  assert (((len payload >=? 4 + N) && (N >? 0) && (N <? len payload)) = true) as ->.
  { rewrite !andb_true_iff. repeat split.
    - apply Z.geb_le. lia.
    - apply Z.gtb_lt. lia.
    - apply Z.ltb_lt. lia. }
  cbv zeta. rewrite Hparse, Hname. cbn [asString]. rewrite Htype. cbn [asString].
  assert ((len (sliceFrom payload (4 + N)) >? 0) = true) as ->.
  { apply Z.gtb_lt. rewrite len_sliceFrom by lia. lia. }
  reflexivity.
Qed.

End EnvelopeTier.

Section RoundTrip.

Context {P : Platform} {laws : PlatformLaws P}.

(** The envelope written for a hidden file that is not empty is read back by
    the envelope tier. *)
Lemma envelopeTier_envelope (hiddenFile : File.t) :
  wfString (File.name hiddenFile) -> wfString (File.type hiddenFile) ->
  File.arrayBuffer hiddenFile <> [] ->
  len (metadataBufferOf hiddenFile) < 4294967296 ->
  envelopeTier (setUint32 (len (metadataBufferOf hiddenFile))
                ++ metadataBufferOf hiddenFile ++ File.arrayBuffer hiddenFile)
  = Returned (DecodedFile.mk
                (Blob.new (File.arrayBuffer hiddenFile) (recordedType hiddenFile))
                (File.name hiddenFile) (recordedType hiddenFile)
                (len (File.arrayBuffer hiddenFile))).
Proof.
  intros Hname Htype Hbytes Hbound.
  set (md := metadataBufferOf hiddenFile) in *.
  set (h := File.arrayBuffer hiddenFile) in *.
  assert (md <> []) as Hmd by (apply TextEncoder_encode_metadata_nonempty).
  assert (0 < len md) as Hmdpos.
  { destruct md; [congruence|]. rewrite len_cons. pose proof (len_nonneg md). lia. }
  assert (0 < len h) as Hhpos.
  { destruct h; [congruence|]. rewrite len_cons. pose proof (len_nonneg h). lia. }
  assert (len (setUint32 (len md)) = 4) as HL by reflexivity.
  assert (sliceFrom (setUint32 (len md) ++ md ++ h) (4 + len md) = h) as Hfile.
  { rewrite app_assoc. rewrite <- HL, <- len_app. apply sliceFrom_app. }
  rewrite (envelopeTier_reads _ (len md)
             (metadataObject (File.name hiddenFile) (recordedType hiddenFile))
             (File.name hiddenFile) (recordedType hiddenFile)).
  - rewrite Hfile. reflexivity.
  - rewrite getUint32_setUint32. rewrite Z.mod_small by lia. reflexivity.
  - assumption.
  - rewrite !len_app, HL. lia.
  - rewrite <- HL. rewrite slice_app_middle. unfold md, metadataBufferOf. cbv zeta.
    rewrite TextDecoder_decode_metadata
      by (try assumption; apply wfString_recordedType; assumption).
    apply parse_stringify; [assumption | apply wfString_recordedType; assumption].
  - reflexivity.
  - reflexivity.
Qed.

(** C1 (amended). When [createPolyglot] produces a blob for a hidden file
    that is not empty and whose metadata header is shorter than 2^32 bytes,
    the payload classifier applied to the bytes that follow the container
    returns the hidden bytes, the hidden file's name, and its media type,
    the latter replaced by [application/octet-stream] when the hidden file
    has none. *)
Theorem envelope_roundtrip (containerFile hiddenFile : File.t) (autoConvert : bool)
    (result : CreatePolyglotResult) :
  createPolyglot containerFile hiddenFile autoConvert = Resolved result ->
  wfString (File.name hiddenFile) -> wfString (File.type hiddenFile) ->
  File.arrayBuffer hiddenFile <> [] ->
  len (metadataBufferOf hiddenFile) < 4294967296 ->
  exists finalContainerFile,
    finalContainer containerFile autoConvert = Some finalContainerFile
    /\ processPayload
         (sliceFrom (Blob.bytes (blob result))
                    (len (File.arrayBuffer finalContainerFile)))
       = Some (DecodedFile.mk
                 (Blob.new (File.arrayBuffer hiddenFile) (recordedType hiddenFile))
                 (File.name hiddenFile) (recordedType hiddenFile)
                 (len (File.arrayBuffer hiddenFile))).
Proof.
  intros Hcreate Hname Htype Hbytes Hbound.
  rewrite createPolyglot_bytes in Hcreate.
  destruct (finalContainer containerFile autoConvert) as [f|]; [|discriminate].
  exists f. split; [reflexivity|].
  assert (Blob.bytes (blob result)
          = File.arrayBuffer f ++ setUint32 (len (metadataBufferOf hiddenFile))
            ++ metadataBufferOf hiddenFile ++ File.arrayBuffer hiddenFile) as ->
    by (injection Hcreate as <-; reflexivity).
  rewrite sliceFrom_app.
  unfold processPayload.
  rewrite envelopeTier_envelope by assumption.
  assert (len (setUint32 (len (metadataBufferOf hiddenFile))) = 4) as HL by reflexivity.
  rewrite !len_app, HL.
  assert (metadataBufferOf hiddenFile <> []) as Hmd
    by (apply TextEncoder_encode_metadata_nonempty).
  destruct (metadataBufferOf hiddenFile) as [|x md]; [congruence|].
  rewrite len_cons. pose proof (len_nonneg md). pose proof (len_nonneg (File.arrayBuffer hiddenFile)).
  destruct (Z.gtb_spec (4 + (1 + len md + len (File.arrayBuffer hiddenFile))) 4); [|lia].
  reflexivity.
Qed.

End RoundTrip.

(** ** The oracle path *)

Section Oracle.

Context {P : Platform}.

(** A boundary found by a locator, once accepted, is classified by
    [processPayload] on the bytes from the boundary on. *)
Lemma decodeByMarkers_classifies (fuel : nat) (data : Uint8Array) (splitIndex : Z) :
  locateBoundary fuel data = Some splitIndex ->
  0 < splitIndex < len data ->
  decodeByMarkers fuel data = Some (processPayload (sliceFrom data splitIndex)).
Proof.
  intros Hloc Hrange. unfold decodeByMarkers. rewrite Hloc.
  destruct (Z.eqb_spec splitIndex (-1)); [lia|].
  destruct (Z.ltb_spec splitIndex (len data)); [|lia]. reflexivity.
Qed.

(** C8. Whatever number the oracle answers as [splitIndex]: when
    0 < splitIndex < length, the decode is fulfilled with the result of the
    payload classifier on the bytes from [splitIndex] on, which is the result
    of the marker path for a locator that finds the same boundary, and a
    file is returned; for any other number (0, -1, or one outside the buffer)
    it is fulfilled with no file. *)
Theorem oracle_split_index (polyglotFile : File.t) (text : jsstring)
    (jsonResponse : json) (splitIndex : Z) :
  JSON_parse text = Some jsonResponse ->
  getProperty jsonResponse (str "splitIndex") = Some (Some (JNumber splitIndex)) ->
  let data := File.arrayBuffer polyglotFile in
  let result := decodePolyglotWithAI polyglotFile (Some text) in
  (0 < splitIndex < len data ->
     result = Resolved (processPayload (sliceFrom data splitIndex))
     /\ (forall fuel, locateBoundary fuel data = Some splitIndex ->
           decodeByMarkers fuel data = Some (processPayload (sliceFrom data splitIndex)))
     /\ exists file, result = Resolved (Some file))
  /\ (~ 0 < splitIndex < len data -> result = Resolved None).
Proof.
  intros Hparse Hprop data result.
  assert (result
          = if (splitIndex >? 0) && (splitIndex <? len data)
            then Resolved (processPayload (sliceFrom data splitIndex))
            else Resolved None) as Hresult.
  { unfold result, decodePolyglotWithAI. rewrite Hparse, Hprop. reflexivity. }
  split.
  - intros Hrange.
    assert (result = Resolved (processPayload (sliceFrom data splitIndex))) as Hr.
    { rewrite Hresult.
      destruct (Z.gtb_spec splitIndex 0); [|lia].
      destruct (Z.ltb_spec splitIndex (len data)); [|lia]. reflexivity. }
    split; [assumption|]. split.
    + intros fuel Hloc. apply decodeByMarkers_classifies; assumption.
    + destruct (processPayload_nonempty (sliceFrom data splitIndex)) as [file Hfile].
      * intros Hnil. pose proof (len_sliceFrom data splitIndex ltac:(lia)) as Hlen.
        rewrite Hnil, len_nil in Hlen. lia.
      * exists file. rewrite Hr, Hfile. reflexivity.
  - intros Hout. rewrite Hresult.
    destruct (Z.gtb_spec splitIndex 0); [|reflexivity].
    destruct (Z.ltb_spec splitIndex (len data)); [lia | reflexivity].
Qed.

End Oracle.

(** ** The JPEG and GIF locators *)

Lemma startsWith_matchAt (data : Uint8Array) (prefix : list byte) :
  startsWith data prefix = true -> matchAt data prefix 0 = true.
Proof.
  unfold startsWith. destruct (len data <? len prefix); [discriminate | trivial].
Qed.

Lemma matchAt_head (data : Uint8Array) (x : byte) (needle : list byte) (i : Z) :
  matchAt data (x :: needle) i = true -> byteAt data i = Some x.
Proof.
  simpl. destruct (byteAt data i) as [b|]; [|discriminate].
  destruct (Byte.eqb b x) eqn:E; [|discriminate].
  intros _. apply Byte.byte_dec_bl in E. congruence.
Qed.

Lemma startsWith_JPEG_not_PNG (data : Uint8Array) :
  startsWith data JPEG_header = true -> startsWith data PNG_header = false.
Proof.
  intros H. apply startsWith_matchAt, matchAt_head in H.
  destruct (startsWith data PNG_header) eqn:E; [|reflexivity].
  apply startsWith_matchAt, matchAt_head in E. congruence.
Qed.

Lemma startsWith_GIF_not_others (data : Uint8Array) :
  startsWith data GIF_header = true ->
  startsWith data PNG_header = false /\ startsWith data JPEG_header = false.
Proof.
  intros H. apply startsWith_matchAt, matchAt_head in H. split.
  - destruct (startsWith data PNG_header) eqn:E; [|reflexivity].
    apply startsWith_matchAt, matchAt_head in E. congruence.
  - destruct (startsWith data JPEG_header) eqn:E; [|reflexivity].
    apply startsWith_matchAt, matchAt_head in E. congruence.
Qed.

(** The scan ends on the last end marker. *)
Lemma jpegScan_last (data : Uint8Array) (p : Z) :
  matchAt data JPEG_eof p = true ->
  (forall q, p < q -> matchAt data JPEG_eof q = false) ->
  forall (fuel : nat) (lastKnownIndex searchOffset : Z),
    0 <= searchOffset <= p ->
    (Z.to_nat (p - searchOffset) + 2 <= fuel)%nat ->
    jpegScan fuel data lastKnownIndex searchOffset = Some p.
Proof.
  intros Hp Hlast.
  assert (JPEG_eof <> []) as Hne by discriminate.
  pose proof (matchAt_bounds data JPEG_eof p Hne Hp) as [Hp0 Hp1].
  change (len JPEG_eof) with 2 in Hp1.
  induction fuel as [|fuel IH]; intros lastKnownIndex searchOffset Hs Hfuel; [lia|].
  simpl jpegScan.
  destruct (Z.ltb_spec searchOffset (len data)); [|lia].
  destruct (findSequence_result data JPEG_eof searchOffset Hne ltac:(lia))
    as [[E Hall] | (Hr & Hm & Hfirst)].
  - rewrite Hall in Hp by lia. discriminate.
  - set (t := findSequence data JPEG_eof searchOffset) in *.
    destruct (Z.eqb_spec t (-1)); [lia|]. simpl negb. cbv iota.
    assert (t <= p) as Htp.
    { destruct (Z.le_gt_cases t p); [assumption|]. rewrite Hlast in Hm by lia. discriminate. }
    destruct (Z.eq_dec t p) as [->|Hneq].
    + destruct fuel as [|fuel]; [lia|]. simpl jpegScan.
      destruct (Z.ltb_spec (p + 1) (len data)); [|reflexivity].
      rewrite (findSequence_absent data JPEG_eof (p + 1)) by (try lia; intros; apply Hlast; lia).
      reflexivity.
    + apply IH; lia.
Qed.

(** C3. In a buffer that begins with the JPEG signature FF D8 FF and whose
    last end marker FF D9 is at index [p], the boundary located is [p + 2],
    however many end markers lie before [p]. *)
Theorem jpeg_last_marker (data : Uint8Array) (p : Z) (fuel : nat) :
  startsWith data JPEG_header = true ->
  matchAt data JPEG_eof p = true ->
  (forall q, p < q -> matchAt data JPEG_eof q = false) ->
  (List.length data < fuel)%nat ->
  locateJPEG fuel data = Some (p + 2)
  /\ locateBoundary fuel data = Some (p + 2).
Proof.
  intros Hsig Hp Hlast Hfuel.
  pose proof (matchAt_bounds data JPEG_eof p ltac:(discriminate) Hp) as [Hp0 Hp1].
  change (len JPEG_eof) with 2 in Hp1.
  assert (locateJPEG fuel data = Some (p + 2)) as HJ.
  { unfold locateJPEG.
    rewrite (jpegScan_last data p Hp Hlast fuel (-1) 0) by (unfold len in *; lia).
    destruct (Z.eqb_spec p (-1)); [lia|]. reflexivity. }
  split; [assumption|].
  unfold locateBoundary. rewrite startsWith_JPEG_not_PNG by assumption.
  rewrite Hsig. assumption.
Qed.

(** The downward search returns the highest index at or below [k] that
    holds [x]. *)
Lemma lastIndexDown_found (a : Uint8Array) (x : byte) (p : Z) :
  byteAt a p = Some x ->
  forall (n : nat) (k : Z),
    p <= k -> k - Z.of_nat n < p ->
    (forall q, p < q <= k -> byteAt a q <> Some x) ->
    lastIndexDown a x n k = p.
Proof.
  intros Hp. induction n as [|n IH]; intros k Hk Hn Hlast; [lia|].
  simpl lastIndexDown.
  destruct (Z.eq_dec k p) as [->|Hneq].
  - rewrite Hp. replace (Byte.eqb x x) with true; [reflexivity|].
    symmetry. apply Byte.byte_dec_lb. reflexivity.
  - assert (lastIndexDown a x n (k - 1) = p) as Hrec
      by (apply IH; [lia | lia | intros q Hq; apply Hlast; lia]).
    destruct (byteAt a k) as [b|] eqn:E; [|assumption].
    destruct (Byte.eqb b x) eqn:Eb; [|assumption].
    apply Byte.byte_dec_bl in Eb. subst b.
    exfalso. apply (Hlast k); [lia | assumption].
Qed.

(** C4 (amended). In a buffer that begins with the GIF signature, the
    backward search that starts at index length - 2 returns the last
    occurrence of the trailer byte 3B at an index not above length - 2, and
    the boundary is that index plus one; the final byte of the buffer is not
    examined. *)
Theorem gif_backward_search (data : Uint8Array) (p : Z) :
  startsWith data GIF_header = true ->
  byteAt data p = Some GIF_eof ->
  p <= len data - 2 ->
  (forall q, p < q <= len data - 2 -> byteAt data q <> Some GIF_eof) ->
  lastIndexOf data GIF_eof (len data - 2) = p
  /\ locateGIF data = p + 1
  /\ (forall fuel, locateBoundary fuel data = Some (p + 1)).
Proof.
  intros Hsig Hp Hle Hlast.
  pose proof (byteAt_range data p GIF_eof Hp) as Hrange.
  assert (lastIndexOf data GIF_eof (len data - 2) = p) as Hidx.
  { unfold lastIndexOf.
    destruct (Z.eqb_spec (len data) 0); [lia|].
    destruct (Z.leb_spec 0 (len data - 2)); [|lia].
    rewrite Z.min_l by lia.
    apply lastIndexDown_found; try assumption; lia. }
  assert (locateGIF data = p + 1) as HG.
  { unfold locateGIF. rewrite Hidx. destruct (Z.eqb_spec p (-1)); [lia | reflexivity]. }
  split; [assumption|]. split; [assumption|].
  intros fuel. unfold locateBoundary.
  destruct (startsWith_GIF_not_others data Hsig) as [-> ->].
  rewrite Hsig, HG. reflexivity.
Qed.

(** ** The M4A box walker *)

Lemma byteAt_app_shift (pre rest : Uint8Array) (k : Z) :
  0 <= k -> byteAt (pre ++ rest) (len pre + k) = byteAt rest k.
Proof.
  intros Hk. pose proof (len_nonneg pre).
  rewrite byteAt_app_r by lia. f_equal. lia.
Qed.

Lemma getUint32_app_shift (pre rest : Uint8Array) (k : Z) :
  0 <= k -> getUint32 (pre ++ rest) (len pre + k) = getUint32 rest k.
Proof.
  intros Hk. unfold getUint32.
  rewrite <- !Z.add_assoc. rewrite !byteAt_app_shift by lia. reflexivity.
Qed.

Lemma slice_app_shift (pre rest : Uint8Array) (a b : Z) :
  0 <= a -> 0 <= b ->
  slice (pre ++ rest) (len pre + a) (len pre + b) = slice rest a b.
Proof.
  intros Ha Hb. pose proof (len_nonneg pre). pose proof (len_nonneg rest).
  unfold slice, relIndex. rewrite len_app.
  destruct (Z.ltb_spec (len pre + a) 0); [lia|].
  destruct (Z.ltb_spec (len pre + b) 0); [lia|].
  destruct (Z.ltb_spec a 0); [lia|]. destruct (Z.ltb_spec b 0); [lia|].
  replace (Z.min (len pre + a) (len pre + len rest)) with (len pre + Z.min a (len rest)) by lia.
  replace (Z.min (len pre + b) (len pre + len rest)) with (len pre + Z.min b (len rest)) by lia.
  replace (len pre + Z.min b (len rest) - (len pre + Z.min a (len rest)))
    with (Z.min b (len rest) - Z.min a (len rest)) by lia.
  f_equal.
  replace (Z.to_nat (len pre + Z.min a (len rest)))
    with (List.length pre + Z.to_nat (Z.min a (len rest)))%nat by (unfold len in *; lia).
  rewrite skipn_app. rewrite skipn_all2 by lia.
  replace (List.length pre + Z.to_nat (Z.min a (len rest)) - List.length pre)%nat
    with (Z.to_nat (Z.min a (len rest))) by lia.
  reflexivity.
Qed.

(** An iteration that continues does not move the offset backwards. *)
Lemma walkBox_monotone (data : Uint8Array) (o o' : Z) :
  walkBox data o = Continue o' -> o <= o' <= len data.
Proof.
  unfold walkBox, checkAdvance.
  destruct (getUint32 data o) as [size|] eqn:Es; [|discriminate].
  apply getUint32_range in Es.
  destruct (negb _); [discriminate|].
  destruct (size =? 1).
  - destruct (o + 16 >? len data); [discriminate|].
    destruct (getUint32 data (o + 8)) as [hi|]; [|discriminate].
    destruct (hi >? 0); [discriminate|].
    destruct (getUint32 data (o + 12)) as [lo|] eqn:El; [|discriminate].
    apply getUint32_range in El.
    destruct (Z.gtb_spec (o + lo) (len data)); [discriminate|].
    intros E; inversion E; lia.
  - destruct (size =? 0); [discriminate|].
    destruct (Z.gtb_spec (o + size) (len data)); [discriminate|].
    intros E; inversion E; lia.
Qed.

Lemma walkBox_shift (pre rest : Uint8Array) (o : Z) :
  0 <= o ->
  walkBox (pre ++ rest) (len pre + o) = shiftIteration (len pre) (walkBox rest o).
Proof.
  intros Ho. unfold walkBox, checkAdvance, subarray.
  rewrite getUint32_app_shift by lia.
  destruct (getUint32 rest o) as [size|]; [|reflexivity].
  rewrite <- !Z.add_assoc. rewrite slice_app_shift by lia.
  destruct (negb _); [reflexivity|].
  rewrite len_app.
  destruct (size =? 1).
  - destruct (Z.gtb_spec (len pre + (o + 16)) (len pre + len rest));
      destruct (Z.gtb_spec (o + 16) (len rest)); try lia; [reflexivity|].
    rewrite !getUint32_app_shift by lia.
    destruct (getUint32 rest (o + 8)) as [hi|]; [|reflexivity].
    destruct (hi >? 0); [reflexivity|].
    destruct (getUint32 rest (o + 12)) as [lo|]; [|reflexivity].
    rewrite <- ?Z.add_assoc.
    destruct (Z.gtb_spec (len pre + (o + lo)) (len pre + len rest));
      destruct (Z.gtb_spec (o + lo) (len rest)); try lia; reflexivity.
  - destruct (size =? 0); [reflexivity|].
    rewrite <- ?Z.add_assoc.
    destruct (Z.gtb_spec (len pre + (o + size)) (len pre + len rest));
      destruct (Z.gtb_spec (o + size) (len rest)); try lia; reflexivity.
Qed.

Lemma walkBoxes_shift (pre rest : Uint8Array) (fuel : nat) (o : Z) :
  0 <= o ->
  walkBoxes fuel (pre ++ rest) (len pre + o)
  = option_map (Z.add (len pre)) (walkBoxes fuel rest o).
Proof.
  revert o. induction fuel as [|fuel IH]; intros o Ho; [reflexivity|].
  simpl walkBoxes. rewrite len_app.
  destruct (Z.leb_spec (len pre + o + 8) (len pre + len rest));
    destruct (Z.leb_spec (o + 8) (len rest)); try lia; [|reflexivity].
  rewrite walkBox_shift by lia.
  destruct (walkBox rest o) as [o'|o'] eqn:E; simpl shiftIteration; [|reflexivity].
  apply walkBox_monotone in E. apply IH. lia.
Qed.

Lemma walkBoxes_S (fuel : nat) (data : Uint8Array) (o : Z) :
  walkBoxes (S fuel) data o
  = if o + 8 <=? len data then
      match walkBox data o with
      | Continue o' => walkBoxes fuel data o'
      | Break o' => Some o'
      end
    else Some o.
Proof. reflexivity. Qed.

(** More fuel does not change a result. *)
Lemma walkBoxes_more_fuel (data : Uint8Array) (fuel fuel' : nat) (o result : Z) :
  walkBoxes fuel data o = Some result -> (fuel <= fuel')%nat ->
  walkBoxes fuel' data o = Some result.
Proof.
  revert fuel' o. induction fuel as [|fuel IH]; intros fuel' o H Hle; [discriminate|].
  destruct fuel' as [|fuel']; [lia|]. simpl in *.
  destruct (o + 8 <=? len data); [|assumption].
  destruct (walkBox data o); [|assumption]. apply IH; [assumption | lia].
Qed.

Lemma Reaches_nonneg (data : Uint8Array) (o : Z) : Reaches data o -> 0 <= o.
Proof.
  induction 1 as [|o o' _ IH _ Hstep]; [lia|].
  apply walkBox_monotone in Hstep. lia.
Qed.

(** A result of the loop started at a reached offset is a result of the
    loop started at 0. *)
Lemma walkBoxes_from_reached (data : Uint8Array) (o : Z) :
  Reaches data o ->
  forall fuel result, walkBoxes fuel data o = Some result ->
    exists fuel0, walkBoxes fuel0 data 0 = Some result.
Proof.
  induction 1 as [|o o' _ IH Hlen Hstep]; intros fuel result Hwalk; [eauto|].
  apply (IH (S fuel)). simpl.
  destruct (Z.leb_spec (o + 8) (len data)); [|lia].
  rewrite Hstep. assumption.
Qed.

(** A box whose declared size leads past the end of the buffer ends the
    pass with the offset of the box. *)
Lemma walkBox_oversized (data : Uint8Array) (o size : Z) :
  o + 8 <= len data ->
  declaredSize data o = Some size -> o + size > len data ->
  walkBox data o = Break o.
Proof.
  intros Hlen Hsize Hover. unfold declaredSize in Hsize. unfold walkBox, checkAdvance.
  destruct (getUint32 data o) as [s|]; [|discriminate].
  destruct (negb _); [reflexivity|].
  destruct (Z.eqb_spec s 1).
  - destruct (o + 16 >? len data); [reflexivity|].
    destruct (getUint32 data (o + 8)) as [hi|] eqn:Ehi; [|discriminate].
    apply getUint32_range in Ehi.
    destruct (Z.gtb_spec hi 0); [reflexivity|].
    destruct (getUint32 data (o + 12)) as [lo|]; [|discriminate].
    injection Hsize as <-.
    destruct (Z.gtb_spec (o + lo) (len data)); [reflexivity | lia].
  - injection Hsize as <-.
    destruct (Z.eqb_spec s 0); [lia|].
    destruct (Z.gtb_spec (o + s) (len data)); [reflexivity | lia].
Qed.

(** C5. When the walker reaches a box whose declared size would take the
    offset beyond the length of the buffer, the loop ends and the boundary
    is the offset at which that box starts. *)
Theorem m4a_oversized_box (data : Uint8Array) (o size : Z) :
  Reaches data o ->
  o + 8 <= len data ->
  declaredSize data o = Some size ->
  o + size > len data ->
  exists fuel, forall fuel', (fuel <= fuel')%nat -> walkBoxes fuel' data 0 = Some o.
Proof.
  intros Hreach Hlen Hsize Hover.
  assert (walkBoxes 1 data o = Some o) as Hone.
  { simpl. destruct (Z.leb_spec (o + 8) (len data)); [|lia].
    rewrite (walkBox_oversized data o size) by assumption. reflexivity. }
  destruct (walkBoxes_from_reached data o Hreach 1%nat o Hone) as [fuel Hfuel].
  exists fuel. intros fuel' Hle. eapply walkBoxes_more_fuel; eassumption.
Qed.

Lemma len_setUint32 (v : Z) : len (setUint32 v) = 4.
Proof. reflexivity. Qed.

Lemma len_box (size : Z) (boxType body : list byte) :
  len boxType = 4 -> len (box size boxType body) = 8 + len body.
Proof.
  intros H. unfold box. rewrite !len_app, len_setUint32, H. lia.
Qed.

(** The walker steps over a well-formed box that lies at the offset. *)
Lemma walkBox_box (size : Z) (boxType body rest : list byte) :
  wellFormedType boxType ->
  2 <= size < 4294967296 -> size = 8 + len body ->
  walkBox (box size boxType body ++ rest) 0 = Continue size.
Proof.
  intros [Hlen Htest] Hsize Hbody.
  assert (getUint32 (box size boxType body ++ rest) 0 = Some size) as Hget.
  { unfold box. rewrite <- app_assoc. rewrite getUint32_setUint32.
    rewrite Z.mod_small by lia. reflexivity. }
  assert (slice (box size boxType body ++ rest) (0 + 4) (0 + 8) = boxType) as Htag.
  { unfold box. rewrite <- !app_assoc.
    change (0 + 4) with (len (setUint32 size)).
    replace (0 + 8) with (len (setUint32 size) + len boxType) by (rewrite len_setUint32; lia).
    apply slice_app_middle. }
  assert (len (box size boxType body ++ rest) = 8 + len body + len rest) as Hdata
    by (rewrite len_app, len_box by assumption; reflexivity).
  unfold walkBox, checkAdvance, subarray. rewrite Hget, Htag, Htest, Hdata.
  simpl negb. cbv iota.
  destruct (Z.eqb_spec size 1); [lia|]. destruct (Z.eqb_spec size 0); [lia|].
  pose proof (len_nonneg rest).
  destruct (Z.gtb_spec (0 + size) (8 + len body + len rest)); [lia|]. reflexivity.
Qed.

Lemma walkBoxes_box (fuel : nat) (size : Z) (boxType body rest : list byte) :
  wellFormedType boxType ->
  2 <= size < 4294967296 -> size = 8 + len body ->
  walkBoxes (S fuel) (box size boxType body ++ rest) 0
  = option_map (Z.add size) (walkBoxes fuel rest 0).
Proof.
  intros Hwf Hsize Hbody. rewrite walkBoxes_S.
  rewrite len_app, len_box by apply Hwf. pose proof (len_nonneg rest). pose proof (len_nonneg body).
  destruct (Z.leb_spec (0 + 8) (8 + len body + len rest)); [|lia].
  rewrite walkBox_box by assumption.
  pose proof (walkBoxes_shift (box size boxType body) rest fuel 0 ltac:(lia)) as Hs.
  rewrite len_box in Hs by apply Hwf. rewrite Z.add_0_r, <- Hbody in Hs. exact Hs.
Qed.

(** The walker stops at bytes that begin with the EXE signature, unless
    they go on for 0x4D5A0000 bytes or more. *)
Lemma walkBoxes_exe (fuel : nat) (rest : list byte) :
  len (x4d :: x5a :: rest) < 1297743872 ->
  walkBoxes (S fuel) (x4d :: x5a :: rest) 0 = Some 0.
Proof.
  intros Hlen. rewrite walkBoxes_S.
  destruct (Z.leb_spec (0 + 8) (len (x4d :: x5a :: rest))); [|reflexivity].
  destruct rest as [|b2 [|b3 rest']];
    [rewrite !len_cons, ?len_nil in *; lia | rewrite !len_cons, ?len_nil in *; lia |].
  unfold walkBox, checkAdvance. rewrite getUint32_head.
  pose proof (toZ_range b2). pose proof (toZ_range b3).
  change (toZ x4d) with 77. change (toZ x5a) with 90.
  destruct (negb _); [reflexivity|].
  destruct (Z.eqb_spec (77 * 16777216 + 90 * 65536 + toZ b2 * 256 + toZ b3) 1); [lia|].
  destruct (Z.eqb_spec (77 * 16777216 + 90 * 65536 + toZ b2 * 256 + toZ b3) 0); [lia|].
  destruct (Z.gtb_spec (0 + (77 * 16777216 + 90 * 65536 + toZ b2 * 256 + toZ b3))
              (len (x4d :: x5a :: b2 :: b3 :: rest'))); [reflexivity | lia].
Qed.

Lemma startsWith_head_differs (data : Uint8Array) (b x : byte) (prefix : list byte) :
  byteAt data 0 = Some b -> b <> x -> startsWith data (x :: prefix) = false.
Proof.
  intros Hb Hne. unfold startsWith. destruct (len data <? len (x :: prefix)); [reflexivity|].
  simpl. rewrite Hb. destruct (Byte.eqb b x) eqn:E; [|reflexivity].
  apply Byte.byte_dec_bl in E. congruence.
Qed.

Section M4APath.

Context {P : Platform}.

(** A buffer that begins with a zero byte is left alone by the marker
    path. *)
Lemma decodeByMarkers_zero_head (fuel : nat) (data : Uint8Array) :
  byteAt data 0 = Some x00 -> decodeByMarkers fuel data = Some None.
Proof.
  intros H0. unfold decodeByMarkers, locateBoundary, PNG_header, JPEG_header, GIF_header.
  rewrite !(startsWith_head_differs data x00) by (try assumption; discriminate).
  reflexivity.
Qed.

(** C6 (amended). For a buffer of fewer than 32 + 0x4D5A0000 bytes made of
    three well-formed boxes of sizes 8, 16 and 8 followed by bytes that
    begin with the EXE signature 4D 5A, the walker ends at boundary 32; the
    decode of the M4A file returns the bytes from 32 on as [hidden.exe] when
    the hint is [exe], and no file when the hint is [apk] or absent. *)
Theorem m4a_three_boxes (t1 t2 t3 body rest : list byte) (polyglotFile : File.t)
    (fuel : nat) :
  wellFormedType t1 -> wellFormedType t2 -> wellFormedType t3 -> len body = 8 ->
  File.arrayBuffer polyglotFile
  = box 8 t1 [] ++ box 16 t2 body ++ box 8 t3 [] ++ x4d :: x5a :: rest ->
  isM4A polyglotFile = true ->
  len (x4d :: x5a :: rest) < 1297743872 ->
  (4 <= fuel)%nat ->
  walkBoxes fuel (File.arrayBuffer polyglotFile) 0 = Some 32
  /\ sliceFrom (File.arrayBuffer polyglotFile) 32 = x4d :: x5a :: rest
  /\ decodePolyglot fuel polyglotFile (withHint exe)
     = Some (Some (hintedFile EXE (x4d :: x5a :: rest)))
  /\ decodePolyglot fuel polyglotFile (withHint apk) = Some None
  /\ decodePolyglot fuel polyglotFile None = Some None.
Proof.
  intros H1 H2 H3 Hbody Hdata Hm4a Hshort Hfuel.
  set (payload := x4d :: x5a :: rest) in *.
  set (data := File.arrayBuffer polyglotFile) in *.
  assert (walkBoxes fuel data 0 = Some 32) as Hwalk.
  { do 4 (destruct fuel as [|fuel]; [lia|]). rewrite Hdata.
    rewrite walkBoxes_box by (try assumption; rewrite ?len_nil; lia).
    rewrite walkBoxes_box by (try assumption; lia).
    rewrite walkBoxes_box by (try assumption; rewrite ?len_nil; lia).
    unfold payload. rewrite walkBoxes_exe by assumption. reflexivity. }
  assert (len (box 8 t1 [] ++ box 16 t2 body ++ box 8 t3 []) = 32) as H32.
  { rewrite !len_app, !len_box by (apply H1 || apply H2 || apply H3).
    rewrite Hbody, len_nil. reflexivity. }
  assert (sliceFrom data 32 = payload) as Hslice.
  { rewrite Hdata. rewrite <- H32.
    replace (box 8 t1 [] ++ box 16 t2 body ++ box 8 t3 [] ++ payload)
      with ((box 8 t1 [] ++ box 16 t2 body ++ box 8 t3 []) ++ payload)
      by (rewrite <- !app_assoc; reflexivity).
    apply sliceFrom_app. }
  assert (len data = 32 + len payload) as Hlen.
  { rewrite Hdata.
    replace (box 8 t1 [] ++ box 16 t2 body ++ box 8 t3 [] ++ payload)
      with ((box 8 t1 [] ++ box 16 t2 body ++ box 8 t3 []) ++ payload)
      by (rewrite <- !app_assoc; reflexivity).
    rewrite len_app, H32. reflexivity. }
  assert (2 <= len payload) as Hpay
    by (unfold payload; rewrite !len_cons; pose proof (len_nonneg rest); lia).
  assert (byteAt data 0 = Some x00) as Hhead by (rewrite Hdata; reflexivity).
  assert (decodeM4AContainer fuel data exe = Some (Some (hintedFile EXE payload))) as Hexe.
  { unfold decodeM4AContainer, extractAt. rewrite Hwalk.
    destruct (Z.gtb_spec 32 0); [|lia]. destruct (Z.ltb_spec 32 (len data)); [|lia].
    simpl andb. cbv iota zeta. rewrite Hslice.
    change (lookupSignature (toUpperCase exe) signatures) with (Some EXE).
    cbv iota beta.
    rewrite (findSequence_found payload (sig EXE) 0 0); try reflexivity; try discriminate.
    intros j Hj; lia. }
  assert (decodeM4AContainer fuel data apk = Some None) as Hapk.
  { unfold decodeM4AContainer, extractAt. rewrite Hwalk.
    destruct (Z.gtb_spec 32 0); [|lia]. destruct (Z.ltb_spec 32 (len data)); [|lia].
    simpl andb. cbv iota zeta. rewrite Hslice.
    destruct (lookupSignature (toUpperCase apk) signatures) as [s|] eqn:Es; [|reflexivity].
    injection Es as <-. cbn [sig].
    destruct (findSequence_result payload [x50; x4b; x03; x04] 0 ltac:(discriminate) ltac:(lia))
      as [[E _] | (_ & Hm & _)].
    - rewrite E. reflexivity.
    - destruct (Z.eqb_spec (findSequence payload [x50; x4b; x03; x04] 0) 0) as [E0|]; [|reflexivity].
      rewrite E0 in Hm. discriminate. }
  split; [assumption|]. split; [assumption|].
  unfold decodePolyglot, withHint. rewrite Hm4a. cbn [executableType].
  fold data. rewrite Hexe, Hapk.
  rewrite decodeByMarkers_zero_head by assumption. repeat split; reflexivity.
Qed.

(** C7 (amended). On the M4A path, a file that [decodeM4AContainer]
    returns is the result of the decode; it is the whole of the bytes from
    the boundary on, which begin with the signature of the hinted type,
    named [hidden.<ext>] with the MIME of that type. The payload classifier
    and the envelope take no part in it. *)
Theorem m4a_path_result (fuel : nat) (polyglotFile : File.t)
    (expectedType : ExecutableType) (file : DecodedFile.t) :
  isM4A polyglotFile = true ->
  decodeM4AContainer fuel (File.arrayBuffer polyglotFile) expectedType = Some (Some file) ->
  decodePolyglot fuel polyglotFile (withHint expectedType) = Some (Some file)
  /\ exists splitIndex s,
       walkBoxes fuel (File.arrayBuffer polyglotFile) 0 = Some splitIndex
       /\ 0 < splitIndex < len (File.arrayBuffer polyglotFile)
       /\ lookupSignature (toUpperCase expectedType) signatures = Some s
       /\ matchAt (sliceFrom (File.arrayBuffer polyglotFile) splitIndex) (sig s) 0 = true
       /\ file = hintedFile s (sliceFrom (File.arrayBuffer polyglotFile) splitIndex).
Proof.
  intros Hm4a Hdec. split.
  - unfold decodePolyglot, withHint. rewrite Hm4a. cbn [executableType].
    rewrite Hdec. reflexivity.
  - unfold decodeM4AContainer in Hdec.
    destruct (walkBoxes fuel (File.arrayBuffer polyglotFile) 0) as [splitIndex|]; [|discriminate].
    injection Hdec as Hext. unfold extractAt in Hext.
    destruct (Z.gtb_spec splitIndex 0); [|discriminate].
    destruct (Z.ltb_spec splitIndex (len (File.arrayBuffer polyglotFile))); [|discriminate].
    simpl andb in Hext. cbv iota zeta in Hext.
    destruct (lookupSignature (toUpperCase expectedType) signatures) as [s|] eqn:Es; [|discriminate].
    destruct (Z.eqb_spec (findSequence (sliceFrom (File.arrayBuffer polyglotFile) splitIndex) (sig s) 0) 0)
      as [E0|]; [|discriminate].
    injection Hext as <-.
    exists splitIndex, s. repeat split; try lia.
    assert (sig s <> []) as Hne.
    { destruct expectedType; injection Es as <-; discriminate. }
    destruct (findSequence_result (sliceFrom (File.arrayBuffer polyglotFile) splitIndex)
                (sig s) 0 Hne ltac:(lia)) as [[E _] | (_ & Hm & _)]; [lia|].
    rewrite E0 in Hm. assumption.
Qed.

End M4APath.

(** An iteration that continues moves the offset forward, except at a box
    whose 32-bit size is 1 and whose extended size is 0. *)
Lemma walkBox_progress (data : Uint8Array) (o o' : Z) :
  walkBox data o = Continue o' ->
  o < o' \/ (o' = o /\ getUint32 data o = Some 1 /\ getUint32 data (o + 8) = Some 0
             /\ getUint32 data (o + 12) = Some 0).
Proof.
  unfold walkBox, checkAdvance.
  destruct (getUint32 data o) as [size|] eqn:Es; [|discriminate].
  pose proof (getUint32_range _ _ _ Es) as Hs.
  destruct (negb _); [discriminate|].
  destruct (Z.eqb_spec size 1).
  - destruct (o + 16 >? len data); [discriminate|].
    destruct (getUint32 data (o + 8)) as [hi|] eqn:Eh; [|discriminate].
    pose proof (getUint32_range _ _ _ Eh) as Hh.
    destruct (Z.gtb_spec hi 0); [discriminate|].
    destruct (getUint32 data (o + 12)) as [lo|] eqn:El; [|discriminate].
    pose proof (getUint32_range _ _ _ El) as Hl.
    destruct (o + lo >? len data); [discriminate|].
    intros E; injection E as <-.
    destruct (Z.eq_dec lo 0) as [->|]; [right | left; lia].
    subst size. assert (hi = 0) as -> by lia. repeat split; lia || reflexivity.
  - destruct (Z.eqb_spec size 0); [discriminate|].
    destruct (o + size >? len data); [discriminate|].
    intros E; injection E as <-. left. lia.
Qed.

(** C10 (defect). At a box whose 32-bit size field is 1 and whose extended
    size has a zero high word and a zero low word, a pass through the loop
    leaves the offset where it was and does not leave the loop: no amount
    of fuel ends the walk, and neither [decodeM4AContainer] nor
    [decodePolyglot] with a hint returns. *)
Theorem m4a_walker_stalls :
  walkBox stallingBuffer 0 = Continue 0
  /\ (forall fuel, walkBoxes fuel stallingBuffer 0 = None)
  /\ (forall fuel expectedType,
        decodeM4AContainer fuel stallingBuffer expectedType = None)
  /\ (forall (P : Platform) fuel expectedType,
        decodePolyglot fuel (m4aFile stallingBuffer) (withHint expectedType) = None).
Proof.
  assert (walkBox stallingBuffer 0 = Continue 0) as Hstep by reflexivity.
  assert (forall fuel, walkBoxes fuel stallingBuffer 0 = None) as Hloop.
  { induction fuel as [|fuel IH]; [reflexivity|].
    rewrite walkBoxes_S. rewrite Hstep. change (0 + 8 <=? len stallingBuffer) with true.
    cbv iota. assumption. }
  assert (forall fuel expectedType,
            decodeM4AContainer fuel stallingBuffer expectedType = None) as Hdec.
  { intros fuel expectedType. unfold decodeM4AContainer. rewrite Hloop. reflexivity. }
  split; [assumption|]. split; [assumption|]. split; [assumption|].
  intros P fuel expectedType. unfold decodePolyglot, withHint.
  change (isM4A (m4aFile stallingBuffer)) with true.
  cbn [executableType File.arrayBuffer m4aFile]. rewrite Hdec. reflexivity.
Qed.

(** ** The reference platform satisfies the laws *)

Module ReferenceFacts.

Import Reference.

Lemma hexValue_hexDigit (d : Z) : 0 <= d < 16 -> hexValue (hexDigit d) = Some d.
Proof.
  intros H.
  assert (d = 0 \/ d = 1 \/ d = 2 \/ d = 3 \/ d = 4 \/ d = 5 \/ d = 6 \/ d = 7
          \/ d = 8 \/ d = 9 \/ d = 10 \/ d = 11 \/ d = 12 \/ d = 13 \/ d = 14
          \/ d = 15) as Hd by lia.
  repeat (destruct Hd as [-> | Hd]; [reflexivity|]). subst d. reflexivity.
Qed.

Lemma hex4_digits (u : Z) :
  0 <= u < 65536 ->
  hex4 (hexDigit (u / 4096 mod 16)) (hexDigit (u / 256 mod 16))
       (hexDigit (u / 16 mod 16)) (hexDigit (u mod 16)) = Some u.
Proof.
  intros Hu. unfold hex4.
  rewrite !hexValue_hexDigit by (apply Z.mod_pos_bound; lia).
  f_equal. arith.
Qed.

Lemma parseChars_escape (a b c d : Z) (rest : list Z) :
  parseChars (92 :: 117 :: a :: b :: c :: d :: rest)
  = match hex4 a b c d with
    | Some v => consTo v (parseChars rest)
    | None => None
    end.
Proof. reflexivity. Qed.

Lemma parseChars_plain (u : Z) (rest : list Z) :
  u <> 34 -> u <> 92 -> 32 <= u ->
  parseChars (u :: rest) = consTo u (parseChars rest).
Proof.
  intros H34 H92 H32. simpl parseChars.
  destruct (Z.eqb_spec u 34); [contradiction|].
  destruct (Z.eqb_spec u 92); [contradiction|].
  destruct (Z.ltb_spec u 32); [lia | reflexivity].
Qed.

(** What is written for a code unit is read back as that code unit. *)
Lemma parseChars_quoteCodePoint (u : Z) (rest : list Z) :
  0 <= u < 65536 ->
  parseChars (quoteCodePoint u ++ rest) = consTo u (parseChars rest).
Proof.
  intros Hu. unfold quoteCodePoint.
  repeat match goal with
         | |- parseChars ((if ?c =? ?k then _ else _) ++ _) = _ =>
             destruct (Z.eqb_spec c k); [subst; reflexivity|]
         end.
  destruct ((u <? 32) || isSurrogate u) eqn:E.
  - unfold UnicodeEscape. cbn [app]. rewrite parseChars_escape.
    rewrite hex4_digits by assumption. reflexivity.
  - apply orb_false_iff in E. destruct E as [Hlow _].
    apply Z.ltb_ge in Hlow.
    unfold utf16Units. destruct (Z.ltb_spec u 65536); [|lia].
    cbn [app]. apply parseChars_plain; assumption.
Qed.

(** The characters of a quoted string are read back up to the closing
    quote. *)
Lemma parseChars_quotedChars (value : jsstring) (rest : list Z) :
  wfString value ->
  parseChars (quotedChars value ++ 34 :: rest) = Some (value, rest).
Proof.
  assert (forall n value, (List.length value <= n)%nat -> wfString value ->
            parseChars (quotedChars value ++ 34 :: rest) = Some (value, rest)) as H.
  { induction n as [|n IH]; intros [|u s] Hlen Hwf; try reflexivity;
      [simpl in Hlen; lia|].
    inversion Hwf as [|? ? Hu Hs]; subst.
    destruct (quotedChars_cases u s) as [(v & s' & -> & Hlead & Htrail & ->) | ->].
    - inversion Hs; subst.
      apply (proj1 (surrogate_bounds u)) in Hlead.
      apply (proj2 (surrogate_bounds v)) in Htrail.
      cbn [app]. rewrite !parseChars_plain by lia.
      rewrite IH by (try assumption; simpl in Hlen; lia). reflexivity.
    - rewrite <- app_assoc. rewrite parseChars_quoteCodePoint by assumption.
      rewrite IH by (try assumption; simpl in Hlen; lia). reflexivity. }
  intros Hwf. apply (H (List.length value)); [lia | assumption].
Qed.

Lemma parseValue_metadata (fuel : nat) (name type : jsstring) :
  wfString name -> wfString type ->
  parseValue (S (S (S (S fuel)))) (JSON_stringify (metadataObject name type))
  = Some (metadataObject name type, []).
Proof.
  intros Hn Ht. rewrite JSON_stringify_metadata.
  cbn [app parseValue parseMembers skipWs Z.eqb Pos.eqb orb].
  change (parseChars (110 :: 97 :: 109 :: 101 :: 34 :: 58 :: 34
            :: quotedChars name
               ++ 34 :: 44 :: 34 :: 116 :: 121 :: 112 :: 101 :: 34 :: 58 :: 34
                  :: quotedChars type ++ [34; 125]))
    with (Some (str "name", 58 :: 34
            :: quotedChars name
               ++ 34 :: 44 :: 34 :: 116 :: 121 :: 112 :: 101 :: 34 :: 58 :: 34
                  :: quotedChars type ++ [34; 125])).
  cbn [skipWs Z.eqb Pos.eqb orb].
  rewrite (parseChars_quotedChars name) by assumption.
  cbn [skipWs Z.eqb Pos.eqb orb parseMembers].
  change (parseChars (116 :: 121 :: 112 :: 101 :: 34 :: 58 :: 34
            :: quotedChars type ++ [34; 125]))
    with (Some (str "type", 58 :: 34 :: quotedChars type ++ [34; 125])).
  cbn [skipWs Z.eqb Pos.eqb orb parseValue].
  rewrite (parseChars_quotedChars type) by assumption.
  cbn [skipWs Z.eqb Pos.eqb orb]. reflexivity.
Qed.

Lemma parse_stringify_metadata (name type : jsstring) :
  wfString name -> wfString type ->
  parse (JSON_stringify (metadataObject name type)) = Some (metadataObject name type).
Proof.
  intros Hn Ht. unfold parse.
  assert (exists fuel, S (List.length (JSON_stringify (metadataObject name type)))
                       = S (S (S (S fuel)))) as [fuel ->].
  { rewrite JSON_stringify_metadata. cbn [app List.length]. eauto. }
  rewrite parseValue_metadata by assumption. reflexivity.
Qed.

Lemma laws : PlatformLaws platform.
Proof.
  split. intros name type Hn Ht. cbn [JSON_parse platform].
  apply parse_stringify_metadata; assumption.
Qed.

End ReferenceFacts.

(** ** Concrete runs *)

(** Checks by enumeration. *)

Lemma absentBelow16_check (payload : Uint8Array) (needle : list byte) :
  forallb (fun j => negb (matchAt payload needle (Z.of_nat j))) (seq 0 16) = true ->
  absentBelow16 payload needle.
Proof.
  intros H j Hj. rewrite forallb_forall in H.
  specialize (H (Z.to_nat j)). rewrite Z2Nat.id in H by lia.
  apply negb_true_iff. apply H. apply in_seq. lia.
Qed.

Lemma firstOccurrence_check (payload : Uint8Array) (needle : list byte) (i : nat) :
  matchAt payload needle (Z.of_nat i) = true ->
  forallb (fun j => negb (matchAt payload needle (Z.of_nat j))) (seq 0 i) = true ->
  firstOccurrence payload needle (Z.of_nat i).
Proof.
  intros Hm H. split; [lia|]. split; [assumption|]. intros j Hj.
  rewrite forallb_forall in H.
  specialize (H (Z.to_nat j)). rewrite Z2Nat.id in H by lia.
  apply negb_true_iff. apply H. apply in_seq. lia.
Qed.

Lemma noLaterOccurrence_check (data : Uint8Array) (needle : list byte) (p : Z) :
  needle <> [] -> -1 <= p ->
  forallb (fun j => negb (matchAt data needle (p + 1 + Z.of_nat j)))
          (seq 0 (List.length data)) = true ->
  forall q, p < q -> matchAt data needle q = false.
Proof.
  intros Hne Hp H q Hq. rewrite forallb_forall in H.
  destruct (Z.lt_ge_cases (q - (p + 1)) (len data)) as [L | G].
  - specialize (H (Z.to_nat (q - (p + 1)))).
    rewrite Z2Nat.id in H by lia.
    replace (p + 1 + (q - (p + 1))) with q in H by lia.
    apply negb_true_iff. apply H. apply in_seq. unfold len in L. lia.
  - apply matchAt_outside; [assumption|].
    destruct needle; [congruence|]. rewrite len_cons. pose proof (len_nonneg needle). lia.
Qed.

(** An enveloped blob is read back. *)
Lemma envelope_roundtrip_witness :
  exists result finalContainerFile,
    createPolyglot (P:=Reference.platform) sampleContainer sampleHidden false
    = Resolved result
    /\ finalContainer (P:=Reference.platform) sampleContainer false
       = Some finalContainerFile
    /\ processPayload (P:=Reference.platform)
         (sliceFrom (Blob.bytes (blob result))
                    (len (File.arrayBuffer finalContainerFile)))
       = Some (DecodedFile.mk (Blob.new [x68; x69] (str "text/plain"))
                 (str "note.txt") (str "text/plain") 2).
Proof.
  destruct (createPolyglot (P:=Reference.platform) sampleContainer sampleHidden false)
    as [result|] eqn:E.
  - destruct (envelope_roundtrip (laws:=ReferenceFacts.laws)
                sampleContainer sampleHidden false result E) as [f [Hf Hp]].
    + apply wfString_str.
    + apply wfString_str.
    + discriminate.
    + vm_compute. reflexivity.
    + exists result, f. split; [reflexivity|]. split; [exact Hf | exact Hp].
  - vm_compute in E. discriminate.
Defined.

(** A hidden file without a media type comes back with the default type;
    a hidden file without bytes does not come back at all: the blob's
    envelope itself is returned as a generic binary. *)
Lemma roundtrip_needs_type_and_bytes :
  (exists result file,
      createPolyglot (P:=Reference.platform) sampleContainer untypedHidden false
      = Resolved result
      /\ processPayload (P:=Reference.platform)
           (sliceFrom (Blob.bytes (blob result)) (len (File.arrayBuffer sampleContainer)))
         = Some file
      /\ DecodedFile.type file <> File.type untypedHidden)
  /\ (exists result file,
        createPolyglot (P:=Reference.platform) sampleContainer emptyHidden false
        = Resolved result
        /\ processPayload (P:=Reference.platform)
             (sliceFrom (Blob.bytes (blob result)) (len (File.arrayBuffer sampleContainer)))
           = Some file
        /\ Blob.bytes (DecodedFile.blob file) <> File.arrayBuffer emptyHidden
        /\ DecodedFile.name file <> File.name emptyHidden).
Proof.
  split.
  - destruct (createPolyglot (P:=Reference.platform) sampleContainer untypedHidden false)
      as [result|] eqn:E; [|vm_compute in E; discriminate].
    vm_compute in E. injection E as <-.
    eexists. eexists. split; [reflexivity|]. split; [vm_compute; reflexivity|].
    vm_compute. discriminate.
  - destruct (createPolyglot (P:=Reference.platform) sampleContainer emptyHidden false)
      as [result|] eqn:E; [|vm_compute in E; discriminate].
    vm_compute in E. injection E as <-.
    eexists. eexists. split; [reflexivity|]. split; [vm_compute; reflexivity|].
    split; vm_compute; discriminate.
Qed.

(** A length field of 9 over 2 remaining bytes, and a length field of 0. *)
Lemma envelope_bound_check_witness :
  (envelopeTier (P:=Reference.platform) [x00; x00; x00; x09; x7b; x7d] = Completed
   /\ processPayload (P:=Reference.platform) [x00; x00; x00; x09; x7b; x7d]
      = fallbackTiers [x00; x00; x00; x09; x7b; x7d])
  /\ (envelopeTier (P:=Reference.platform) [x00; x00; x00; x00; x7b; x7d] = Completed
      /\ processPayload (P:=Reference.platform) [x00; x00; x00; x00; x7b; x7d]
         = fallbackTiers [x00; x00; x00; x00; x7b; x7d]).
Proof.
  split.
  - apply (envelope_bound_check (P:=Reference.platform) [x00; x00; x00; x09; x7b; x7d] 9).
    + reflexivity.
    + right. vm_compute. reflexivity.
  - apply (envelope_bound_check (P:=Reference.platform) [x00; x00; x00; x00; x7b; x7d] 0).
    + reflexivity.
    + left. reflexivity.
Defined.

(** End markers at 4, 7 and 10: the boundary is 12. *)
Lemma jpeg_last_marker_witness :
  locateJPEG 20 jpegSample = Some 12 /\ locateBoundary 20 jpegSample = Some 12.
Proof.
  apply (jpeg_last_marker jpegSample 10 20).
  - reflexivity.
  - reflexivity.
  - apply noLaterOccurrence_check; [discriminate | lia | reflexivity].
  - vm_compute. lia.
Defined.

(** Trailer bytes at 3 and at the final index 5: the search finds 3. *)
Lemma gif_backward_search_witness :
  lastIndexOf gifSample GIF_eof (len gifSample - 2) = 3
  /\ locateGIF gifSample = 4
  /\ (forall fuel, locateBoundary fuel gifSample = Some 4).
Proof.
  apply (gif_backward_search gifSample 3).
  - reflexivity.
  - reflexivity.
  - vm_compute. discriminate.
  - intros q Hq. change (len gifSample - 2) with 4 in Hq.
    assert (q = 4) as -> by lia. discriminate.
Defined.

(** The final trailer byte is not what the locator returns. *)
Lemma gif_final_trailer_not_returned :
  startsWith gifSample GIF_header = true
  /\ byteAt gifSample 3 = Some GIF_eof
  /\ byteAt gifSample (len gifSample - 1) = Some GIF_eof
  /\ lastIndexOf gifSample GIF_eof (len gifSample - 2) <> len gifSample - 1
  /\ locateGIF gifSample <> (len gifSample - 1) + 1.
Proof.
  repeat split; try reflexivity; vm_compute; discriminate.
Qed.

(** A second box that declares 32 bytes where 8 remain: the boundary is its
    start, 8. *)
Lemma m4a_oversized_box_witness :
  exists fuel, forall fuel', (fuel <= fuel')%nat -> walkBoxes fuel' truncatedM4A 0 = Some 8.
Proof.
  apply (m4a_oversized_box truncatedM4A 8 32).
  - apply (Reaches_next truncatedM4A 0 8).
    + apply Reaches_start.
    + vm_compute. discriminate.
    + reflexivity.
  - vm_compute. discriminate.
  - reflexivity.
  - vm_compute. reflexivity.
Defined.

Lemma wellFormedType_ftyp : wellFormedType ftyp.
Proof. split; reflexivity. Qed.

Lemma wellFormedType_moov : wellFormedType moov.
Proof. split; reflexivity. Qed.

Lemma wellFormedType_free : wellFormedType free.
Proof. split; reflexivity. Qed.

Lemma wellFormedType_aaaa : wellFormedType aaaa.
Proof. split; reflexivity. Qed.

(** Boxes [ftyp], [moov], [free] and an executable of four bytes. *)
Lemma m4a_three_boxes_witness :
  walkBoxes 10 m4aSample 0 = Some 32
  /\ sliceFrom m4aSample 32 = x4d :: x5a :: exeTail
  /\ decodePolyglot (P:=Reference.platform) 10 (m4aFile m4aSample) (withHint exe)
     = Some (Some (hintedFile EXE (x4d :: x5a :: exeTail)))
  /\ decodePolyglot (P:=Reference.platform) 10 (m4aFile m4aSample) (withHint apk) = Some None
  /\ decodePolyglot (P:=Reference.platform) 10 (m4aFile m4aSample) None = Some None.
Proof.
  apply (m4a_three_boxes (P:=Reference.platform) ftyp moov free zeros8 exeTail
           (m4aFile m4aSample) 10).
  - exact wellFormedType_ftyp.
  - exact wellFormedType_moov.
  - exact wellFormedType_free.
  - reflexivity.
  - reflexivity.
  - reflexivity.
  - vm_compute. reflexivity.
  - vm_compute. lia.
Defined.

(** Bytes that begin with 4D 5A 00 00 and the tag [aaaa] read as the header
    of a box of 0x4D5A0000 bytes. *)
Lemma exe_bytes_as_box (zeros : list byte) :
  x4d :: x5a :: ([x00; x00] ++ aaaa ++ zeros) = box 1297743872 aaaa zeros.
Proof. reflexivity. Qed.

Lemma isM4A_m4aFile (data : Uint8Array) : isM4A (m4aFile data) = true.
Proof. reflexivity. Qed.

Lemma byteAt_box8_head (boxType body rest : list byte) :
  byteAt (box 8 boxType body ++ rest) 0 = Some x00.
Proof. reflexivity. Qed.

Lemma giant_length (zeros : list byte) :
  len zeros = 1297743864 -> len (giantBuffer zeros) = 1297743904.
Proof.
  intros Hz. unfold giantBuffer. rewrite exe_bytes_as_box.
  rewrite !len_app, !len_box by reflexivity.
  rewrite Hz. reflexivity.
Qed.

Lemma giant_walk (zeros : list byte) (fuel : nat) :
  len zeros = 1297743864 -> (5 <= fuel)%nat ->
  walkBoxes fuel (giantBuffer zeros) 0 = Some 1297743904.
Proof.
  intros Hz Hfuel. do 5 (destruct fuel as [|fuel]; [lia|]).
  unfold giantBuffer. rewrite exe_bytes_as_box.
  rewrite <- (app_nil_r (box 1297743872 aaaa zeros)).
  rewrite walkBoxes_box by (try exact wellFormedType_ftyp; rewrite ?len_nil; lia).
  rewrite walkBoxes_box by (try exact wellFormedType_moov; try lia; reflexivity).
  rewrite walkBoxes_box by (try exact wellFormedType_free; rewrite ?len_nil; lia).
  rewrite walkBoxes_box by (try exact wellFormedType_aaaa; rewrite ?Hz; lia).
  reflexivity.
Qed.

Lemma giant_decode {P : Platform} (zeros : list byte) :
  len zeros = 1297743864 ->
  decodePolyglot 5 (m4aFile (giantBuffer zeros)) (withHint exe) = Some None.
Proof.
  intros Hz. unfold decodePolyglot, withHint. rewrite isM4A_m4aFile.
  cbn [executableType File.arrayBuffer m4aFile].
  unfold decodeM4AContainer. rewrite giant_walk by (assumption || lia).
  unfold extractAt. rewrite giant_length by assumption.
  change ((1297743904 >? 0) && (1297743904 <? 1297743904)) with false. cbv iota.
  apply decodeByMarkers_zero_head. apply byteAt_box8_head.
Qed.

Lemma len_giant_zeros : len (repeat x00 (Z.to_nat 1297743864)) = 1297743864.
Proof. unfold len. rewrite repeat_length. lia. Qed.

(** Three well-formed boxes of sizes 8, 16 and 8 followed by 0x4D5A0000
    bytes that begin with 4D 5A 00 00 and the tag [aaaa]: the walker steps
    over those bytes as a fourth box, the boundary is the end of the
    buffer, and the decode with hint [exe] returns no file. *)
Lemma m4a_three_boxes_giant_payload :
  wellFormedType ftyp /\ wellFormedType moov /\ wellFormedType free
  /\ len zeros8 = 8
  /\ giantM4A
     = box 8 ftyp [] ++ box 16 moov zeros8 ++ box 8 free [] ++ x4d :: x5a :: giantTail
  /\ len giantM4A = 1297743904
  /\ (forall fuel, (5 <= fuel)%nat -> walkBoxes fuel giantM4A 0 = Some (len giantM4A))
  /\ (forall fuel, (5 <= fuel)%nat -> walkBoxes fuel giantM4A 0 <> Some 32)
  /\ decodePolyglot (P:=Reference.platform) 5 (m4aFile giantM4A) (withHint exe)
     = Some None.
Proof.
  assert (len giantM4A = 1297743904) as Hlen
    by exact (giant_length _ len_giant_zeros).
  assert (forall fuel, (5 <= fuel)%nat -> walkBoxes fuel giantM4A 0 = Some 1297743904)
    as Hwalk by exact (fun fuel => giant_walk _ fuel len_giant_zeros).
  assert (decodePolyglot (P:=Reference.platform) 5 (m4aFile giantM4A) (withHint exe)
          = Some None) as Hdec
    by exact (giant_decode (P:=Reference.platform) _ len_giant_zeros).
  split; [exact wellFormedType_ftyp|]. split; [exact wellFormedType_moov|].
  split; [exact wellFormedType_free|]. split; [reflexivity|].
  split; [reflexivity|]. split; [exact Hlen|].
  split; [|split].
  - intros fuel Hfuel. rewrite (Hwalk fuel Hfuel). rewrite Hlen. reflexivity.
  - intros fuel Hfuel. rewrite (Hwalk fuel Hfuel). discriminate.
  - exact Hdec.
Qed.

(** One box [ftyp] followed by three bytes of an executable. *)
Lemma m4a_path_result_witness :
  decodePolyglot (P:=Reference.platform) 5 (m4aFile shortM4A) (withHint exe)
  = Some (Some (hintedFile EXE [x4d; x5a; x90]))
  /\ exists splitIndex s,
       walkBoxes 5 (File.arrayBuffer (m4aFile shortM4A)) 0 = Some splitIndex
       /\ 0 < splitIndex < len (File.arrayBuffer (m4aFile shortM4A))
       /\ lookupSignature (toUpperCase exe) signatures = Some s
       /\ matchAt (sliceFrom (File.arrayBuffer (m4aFile shortM4A)) splitIndex) (sig s) 0 = true
       /\ hintedFile EXE [x4d; x5a; x90]
          = hintedFile s (sliceFrom (File.arrayBuffer (m4aFile shortM4A)) splitIndex).
Proof.
  apply (m4a_path_result (P:=Reference.platform) 5 (m4aFile shortM4A) exe
           (hintedFile EXE [x4d; x5a; x90])).
  - reflexivity.
  - reflexivity.
Defined.

(** On that file the M4A path and the payload classifier disagree: the
    former names the file [hidden.exe], the latter [hidden-file.exe]. *)
Lemma m4a_path_skips_classifier :
  exists fromPath fromClassifier,
    isM4A (m4aFile shortM4A) = true
    /\ walkBoxes 5 shortM4A 0 = Some 8
    /\ decodePolyglot (P:=Reference.platform) 5 (m4aFile shortM4A) (withHint exe)
       = Some (Some fromPath)
    /\ processPayload (P:=Reference.platform) (sliceFrom shortM4A 8)
       = Some fromClassifier
    /\ DecodedFile.name fromPath = str "hidden.exe"
    /\ DecodedFile.name fromClassifier = str "hidden-file.exe"
    /\ fromPath <> fromClassifier.
Proof.
  eexists. eexists.
  split; [reflexivity|]. split; [reflexivity|].
  split; [vm_compute; reflexivity|]. split; [vm_compute; reflexivity|].
  split; [reflexivity|]. split; [reflexivity|].
  discriminate.
Qed.

(** The oracle answers 3, 0, -1 and 13 for the 13 bytes of [jpegSample]. *)
Lemma oracle_split_index_witness :
  decodePolyglotWithAI (P:=Reference.platform) jpegFile (Some (oracleAnswer 3))
  = Resolved (processPayload (P:=Reference.platform) (sliceFrom jpegSample 3))
  /\ decodePolyglotWithAI (P:=Reference.platform) jpegFile (Some (oracleAnswer 0))
     = Resolved None
  /\ decodePolyglotWithAI (P:=Reference.platform) jpegFile (Some (oracleAnswer (-1)))
     = Resolved None
  /\ decodePolyglotWithAI (P:=Reference.platform) jpegFile (Some (oracleAnswer 13))
     = Resolved None.
Proof.
  split; [|split; [|split]].
  - apply (oracle_split_index (P:=Reference.platform) jpegFile (oracleAnswer 3)
             (JObject [(str "splitIndex", JNumber 3)]) 3);
      [reflexivity | reflexivity | vm_compute; split; reflexivity].
  - apply (oracle_split_index (P:=Reference.platform) jpegFile (oracleAnswer 0)
             (JObject [(str "splitIndex", JNumber 0)]) 0);
      [reflexivity | reflexivity | vm_compute; intros [H _]; discriminate].
  - apply (oracle_split_index (P:=Reference.platform) jpegFile (oracleAnswer (-1))
             (JObject [(str "splitIndex", JNumber (-1))]) (-1));
      [reflexivity | reflexivity | vm_compute; intros [H _]; discriminate].
  - apply (oracle_split_index (P:=Reference.platform) jpegFile (oracleAnswer 13)
             (JObject [(str "splitIndex", JNumber 13)]) 13);
      [reflexivity | reflexivity | vm_compute; intros [_ H]; discriminate].
Defined.

Lemma outcome_differs (outcome : tryOutcome) (file : DecodedFile.t) :
  outcome = Completed -> outcome <> Returned file.
Proof. intros ->. discriminate. Qed.

(** The PNG magic at offset 15, at offset 16, and the empty payload. *)
Lemma signature_window_witness :
  processPayload (P:=Reference.platform) pngAt15 = Some (signatureFile pngAt15 PNG 15)
  /\ processPayload (P:=Reference.platform) pngAt16 = Some (genericFile pngAt16)
  /\ processPayload (P:=Reference.platform) [] = None.
Proof.
  split; [|split].
  - apply (proj1 (signature_window (P:=Reference.platform) pngAt15
                    (fun file H => outcome_differs _ file eq_refl H))
             [] (tl signatures) "PNG"%string PNG 15).
    + reflexivity.
    + intros k' s' [].
    + apply (firstOccurrence_check pngAt15 (sig PNG) 15); reflexivity.
    + reflexivity.
  - apply (proj1 (proj2 (signature_window (P:=Reference.platform) pngAt16
                           (fun file H => outcome_differs _ file eq_refl H)))).
    + intros k s Hin. apply absentBelow16_check.
      unfold signatures in Hin. simpl in Hin.
      repeat (destruct Hin as [Hin | Hin]; [injection Hin as <- <-; reflexivity|]).
      contradiction.
    + discriminate.
  - apply (proj2 (proj2 (signature_window (P:=Reference.platform) []
                           (fun file H => outcome_differs _ file eq_refl H)))).
    reflexivity.
Defined.

(** * Further properties *)

(** ** findSequence *)

(** X1. [findSequence] returns the first index at or after [start] at
    which the needle occurs, an index that leaves room for the needle, and
    [-1] exactly when the needle occurs nowhere from [start] on. *)
Theorem findSequence_first_occurrence (h : Uint8Array) (needle : list byte) (start : Z) :
  needle <> [] -> 0 <= start ->
  (findSequence h needle start = -1
   <-> forall j, start <= j -> matchAt h needle j = false)
  /\ (forall r, r <> -1 ->
        (findSequence h needle start = r
         <-> start <= r <= len h - len needle
             /\ matchAt h needle r = true
             /\ forall j, start <= j < r -> matchAt h needle j = false)).
Proof.
  intros Hne H0. split.
  - split.
    + intros E. destruct (findSequence_result h needle start Hne H0)
        as [[_ Hall] | (Hr & _ & _)]; [assumption | lia].
    + intros Hall. apply findSequence_absent; assumption.
  - intros r Hr. split.
    + intros E. destruct (findSequence_result h needle start Hne H0)
        as [[E' _] | (Hs & Hm & Hfirst)]; [congruence|].
      rewrite E in *. pose proof (matchAt_bounds h needle r Hne Hm).
      repeat split; try assumption; lia.
    + intros (Hrange & Hm & Hfirst).
      apply findSequence_found; try assumption; lia.
Qed.

(** ** The payload classifier, continued *)

Lemma signatureHit_inversion (payload : Uint8Array) (s : Signature) (file : DecodedFile.t) :
  sig s <> [] -> signatureHit payload s = Some file ->
  exists i, 0 <= i < 16 /\ firstOccurrence payload (sig s) i
            /\ file = signatureFile payload s i.
Proof.
  intros Hne. unfold signatureHit.
  destruct (findSequence_result payload (sig s) 0 Hne ltac:(lia))
    as [[E _] | (Hr & Hm & Hfirst)].
  - rewrite E. simpl. discriminate.
  - destruct (Z.eqb_spec (findSequence payload (sig s) 0) (-1)); [discriminate|].
    destruct (Z.ltb_spec (findSequence payload (sig s) 0) 16); [|discriminate].
    simpl andb. cbv iota. intros E. injection E as <-.
    exists (findSequence payload (sig s) 0).
    split; [lia|]. split; [|reflexivity]. split; [lia|]. split; assumption.
Qed.

Lemma signatureScan_inversion (payload : Uint8Array) (table : list (string * Signature))
    (file : DecodedFile.t) :
  signatureScan payload table = Some file ->
  exists k s, In (k, s) table /\ signatureHit payload s = Some file.
Proof.
  induction table as [|[k s] table IH]; [discriminate|]. simpl.
  destruct (signatureHit payload s) as [f|] eqn:E.
  - intros H. injection H as <-. exists k, s. split; [left; reflexivity | assumption].
  - intros H. destruct (IH H) as (k' & s' & Hin & Hhit).
    exists k', s'. split; [right; assumption | assumption].
Qed.

Lemma sliceFrom_zero (a : Uint8Array) : sliceFrom a 0 = a.
Proof.
  rewrite sliceFrom_inside by (pose proof (len_nonneg a); lia). reflexivity.
Qed.

Lemma len_pos_nonempty (a : Uint8Array) : a <> [] -> 0 < len a.
Proof.
  destruct a; [congruence|]. intros _. rewrite len_cons. pose proof (len_nonneg a). lia.
Qed.

Section ClassifierFurther.

Context {P : Platform}.

(** The conditions under which the envelope tier returns a file. *)
Lemma envelopeTier_inversion (payload : Uint8Array) (file : DecodedFile.t) :
  envelopeTier payload = Returned file ->
  exists N metadata name type,
    getUint32 payload 0 = Some N /\ 0 < N /\ 4 + N < len payload
    /\ JSON_parse (TextDecoder_decode (slice payload 4 (4 + N))) = Some metadata
    /\ getProperty metadata (str "name") = Some (Some (JString name))
    /\ getProperty metadata (str "type") = Some (Some (JString type))
    /\ file = DecodedFile.mk (Blob.new (sliceFrom payload (4 + N)) type) name type
                (len (sliceFrom payload (4 + N))).
Proof.
  unfold envelopeTier.
  destruct (getUint32 payload 0) as [N|]; [|discriminate].
  destruct (Z.geb_spec (len payload) (4 + N)); [|discriminate].
  destruct (Z.gtb_spec N 0); [|discriminate].
  destruct (Z.ltb_spec N (len payload)); [|discriminate].
  simpl andb. cbv iota zeta.
  destruct (JSON_parse _) as [metadata|] eqn:Hparse; [|discriminate].
  destruct (getProperty metadata (str "name")) as [[[| | |name| |]|]|] eqn:Hname;
    try discriminate.
  cbn [asString].
  destruct (getProperty metadata (str "type")) as [[[| | |type| |]|]|] eqn:Htype;
    try discriminate.
  cbn [asString].
  destruct (Z.gtb_spec (len (sliceFrom payload (4 + N))) 0) as [Hpos|]; [|discriminate].
  intros E. injection E as <-. exists N, metadata, name, type.
  rewrite len_sliceFrom in Hpos by lia.
  repeat split; try assumption; lia.
Qed.

(** X2. The classifier returns no file exactly for the empty payload. *)
Theorem processPayload_none_iff_empty (payload : Uint8Array) :
  processPayload payload = None <-> payload = [].
Proof.
  split.
  - intros H. destruct payload as [|b payload]; [reflexivity|].
    destruct (processPayload_nonempty (b :: payload) ltac:(discriminate)) as [file Hfile].
    congruence.
  - intros ->. reflexivity.
Qed.

Lemma processPayload_suffix (payload : Uint8Array) (file : DecodedFile.t) :
  processPayload payload = Some file ->
  exists k, 0 <= k < len payload
            /\ Blob.bytes (DecodedFile.blob file) = sliceFrom payload k
            /\ DecodedFile.size file = Blob.size (DecodedFile.blob file).
Proof.
  unfold processPayload.
  assert (fallbackTiers payload = Some file ->
          exists k, 0 <= k < len payload
                    /\ Blob.bytes (DecodedFile.blob file) = sliceFrom payload k
                    /\ DecodedFile.size file = Blob.size (DecodedFile.blob file)) as Hfall.
  { unfold fallbackTiers.
    destruct (Z.gtb_spec (len payload) 0) as [Hlen|]; [|discriminate].
    destruct (signatureScan payload signatures) as [f|] eqn:Escan.
    - intros H. injection H as ->.
      destruct (signatureScan_inversion payload signatures file Escan) as (k & s & Hin & Hhit).
      pose proof (signatures_nonempty k s Hin) as Hne.
      destruct (signatureHit_inversion payload s file Hne Hhit)
        as (i & Hi & (_ & Hm & _) & ->).
      pose proof (matchAt_bounds payload (sig s) i Hne Hm) as [_ Hb].
      pose proof (len_pos_nonempty (sig s) Hne).
      exists i. split; [lia|]. split; reflexivity.
    - intros H. injection H as <-. exists 0. split; [lia|].
      cbn [DecodedFile.blob DecodedFile.size Blob.bytes Blob.new].
      rewrite sliceFrom_zero. split; reflexivity. }
  destruct (if len payload >? 4 then envelopeTier payload else Completed) as [f| |] eqn:Eenv;
    [|exact Hfall|exact Hfall].
  intros H. injection H as ->.
  destruct (len payload >? 4); [|discriminate].
  destruct (envelopeTier_inversion payload file Eenv)
    as (N & metadata & name & type & _ & HN & Hlt & _ & _ & _ & ->).
  exists (4 + N). split; [lia|]. split; reflexivity.
Qed.

(** X3. The bytes of a returned file are a suffix of the payload that is
    not empty, whatever tier returns it, and [size] is their number. *)
Theorem processPayload_returns_suffix (payload : Uint8Array) (file : DecodedFile.t) :
  processPayload payload = Some file ->
  exists k, 0 <= k < len payload
            /\ Blob.bytes (DecodedFile.blob file) = sliceFrom payload k
            /\ DecodedFile.size file = len payload - k
            /\ DecodedFile.size file = len (Blob.bytes (DecodedFile.blob file)).
Proof.
  intros Hfile.
  destruct (processPayload_suffix payload file Hfile) as (k & Hk & Hbytes & Hsize).
  exists k. split; [assumption|]. split; [assumption|].
  unfold Blob.size in Hsize. rewrite Hsize, Hbytes.
  split; [apply len_sliceFrom; lia | reflexivity].
Qed.

End ClassifierFurther.

Lemma signatureHit_names (payload : Uint8Array) (s : Signature) (file : DecodedFile.t) :
  signatureHit payload s = Some file ->
  DecodedFile.type file = mime s
  /\ DecodedFile.name file = str "hidden-file." ++ ext s.
Proof.
  unfold signatureHit. destruct (_ && _); [|discriminate].
  intros H. injection H as <-. split; reflexivity.
Qed.

Lemma signatureScan_some (payload : Uint8Array) (table : list (string * Signature))
    (k : string) (s : Signature) (file : DecodedFile.t) :
  In (k, s) table -> signatureHit payload s = Some file ->
  exists file', signatureScan payload table = Some file'.
Proof.
  induction table as [|[k' s'] table IH]; intros Hin Hhit; [contradiction|].
  simpl. destruct (signatureHit payload s') as [f|] eqn:E; [eauto|].
  destruct Hin as [Heq | Hin].
  - injection Heq as -> ->. congruence.
  - apply IH; assumption.
Qed.

Lemma signatureHit_same_sig (payload : Uint8Array) (s1 s2 : Signature) :
  sig s1 = sig s2 -> signatureHit payload s1 = None -> signatureHit payload s2 = None.
Proof.
  unfold signatureHit. intros <-. destruct (_ && _); [discriminate | reflexivity].
Qed.

(** X4. The signature and generic tiers never answer with the APK entry of
    the registry: its bytes are those of the ZIP entry, which comes first. *)
Theorem signature_tier_never_apk (payload : Uint8Array) (file : DecodedFile.t) :
  fallbackTiers payload = Some file ->
  DecodedFile.type file <> str "application/vnd.android.package-archive"
  /\ DecodedFile.name file <> str "hidden-file.apk".
Proof.
  unfold fallbackTiers. destruct (len payload >? 0); [|discriminate].
  unfold signatures. cbn [signatureScan].
  repeat match goal with
  | |- context [match signatureHit payload ?s with _ => _ end] =>
      let E := fresh "E" in
      destruct (signatureHit payload s) as [f|] eqn:E;
      [ cbv beta iota; intros H; injection H as <-;
        try (apply signatureHit_names in E; cbn [mime ext] in E;
             destruct E as [Et En]; rewrite Et, En;
             split; intros X; vm_compute in X; discriminate) | ]
  end.
  - match goal with
    | E1 : signatureHit payload ?s1 = None, E2 : signatureHit payload ?s2 = Some _ |- _ =>
        rewrite (signatureHit_same_sig payload s1 s2 eq_refl E1) in E2; discriminate
    end.
  - cbv beta iota. intros H. injection H as <-.
    split; intros X; vm_compute in X; discriminate.
Qed.

(** ** detectFileType *)

Lemma detectLoop_first (data : Uint8Array) (before after : list (string * Signature))
    (k : string) (s : Signature) :
  (forall k' s', In (k', s') before ->
     offset s' = None /\ matchAt data (sig s') 0 = false) ->
  offset s = None -> sig s <> [] -> matchAt data (sig s) 0 = true ->
  detectLoop data (before ++ (k, s) :: after) = Some (mime s, ext s).
Proof.
  induction before as [|[k' s'] before IH]; intros Hb Ho Hne Hm.
  - simpl. rewrite Ho. pose proof (matchAt_bounds data (sig s) 0 Hne Hm) as [_ Hlen].
    destruct (Z.ltb_spec (len data) (0 + len (sig s))); [lia|].
    rewrite Hm. reflexivity.
  - simpl. destruct (Hb k' s' (or_introl eq_refl)) as [Ho' Hm'].
    rewrite Ho', Hm'.
    destruct (len data <? 0 + len (sig s')); apply IH; try assumption;
      intros k'' s'' Hin; apply (Hb k''); right; assumption.
Qed.

Lemma detectLoop_none (data : Uint8Array) (table : list (string * Signature)) :
  (forall k s, In (k, s) table -> offset s = None /\ sig s <> []) ->
  (detectLoop data table = None
   <-> forall k s, In (k, s) table -> matchAt data (sig s) 0 = false).
Proof.
  induction table as [|[k s] table IH]; intros Ht.
  - simpl. split; [intros _ k s [] | reflexivity].
  - destruct (Ht k s (or_introl eq_refl)) as [Ho Hne].
    assert (forall k' s', In (k', s') table -> offset s' = None /\ sig s' <> []) as Ht'
      by (intros k' s' Hin; apply (Ht k'); right; assumption).
    specialize (IH Ht'). simpl. rewrite Ho.
    destruct (Z.ltb_spec (len data) (0 + len (sig s))) as [Hshort | Hlong].
    + rewrite IH. split.
      * intros Hall k' s' [Heq | Hin]; [|apply (Hall k'); assumption].
        injection Heq as <- <-. apply matchAt_outside; [assumption | lia].
      * intros Hall k' s' Hin. apply (Hall k'). right. assumption.
    + destruct (matchAt data (sig s) 0) eqn:Hm.
      * split; [discriminate|]. intros Hall.
        specialize (Hall k s (or_introl eq_refl)). congruence.
      * rewrite IH. split.
        -- intros Hall k' s' [Heq | Hin]; [|apply (Hall k'); assumption].
           injection Heq as <- <-. assumption.
        -- intros Hall k' s' Hin. apply (Hall k'). right. assumption.
Qed.

Lemma detectLoop_some (data : Uint8Array) (table : list (string * Signature))
    (m e : jsstring) :
  detectLoop data table = Some (m, e) ->
  exists k s, In (k, s) table /\ m = mime s /\ e = ext s
              /\ matchAt data (sig s) (match offset s with Some o => o | None => 0 end) = true.
Proof.
  induction table as [|[k s] table IH]; [discriminate|]. simpl.
  destruct (len data <? _).
  - intros H. destruct (IH H) as (k' & s' & Hin & Hrest).
    exists k', s'. split; [right; assumption | assumption].
  - destruct (matchAt data (sig s) _) eqn:Hm.
    + intros H. injection H as <- <-. exists k, s.
      split; [left; reflexivity|]. repeat split. assumption.
    + intros H. destruct (IH H) as (k' & s' & Hin & Hrest).
      exists k', s'. split; [right; assumption | assumption].
Qed.

Lemma signatures_offsets (k : string) (s : Signature) :
  In (k, s) signatures -> offset s = None.
Proof.
  unfold signatures. simpl.
  intros H; repeat (destruct H as [H | H]; [inversion H; subst; reflexivity|]).
  contradiction.
Qed.

(** X5. [detectFileType] answers with the first entry of the registry, in
    the order of the table, whose signature is at offset 0 of the data, and
    with nothing exactly when no signature is there; it never answers
    with the APK entry. *)
Theorem detectFileType_first_match (data : Uint8Array) :
  (detectFileType data = None
   <-> forall k s, In (k, s) signatures -> matchAt data (sig s) 0 = false)
  /\ (forall before k s after,
        signatures = before ++ (k, s) :: after ->
        matchAt data (sig s) 0 = true ->
        (forall k' s', In (k', s') before -> matchAt data (sig s') 0 = false) ->
        detectFileType data = Some (mime s, ext s))
  /\ (forall m e, detectFileType data = Some (m, e) -> e <> str "apk").
Proof.
  split; [|split].
  - apply detectLoop_none. intros k s Hin.
    split; [apply (signatures_offsets k) | apply (signatures_nonempty k)]; assumption.
  - intros before k s after Hsplit Hm Hb. unfold detectFileType. rewrite Hsplit.
    assert (forall k' s', In (k', s') (before ++ (k, s) :: after) ->
                          offset s' = None /\ sig s' <> []) as Hall.
    { rewrite <- Hsplit. intros k' s' Hin.
      split; [apply (signatures_offsets k') | apply (signatures_nonempty k')]; assumption. }
    apply detectLoop_first.
    + intros k' s' Hin. split; [|apply (Hb k'); assumption].
      apply (Hall k'). apply in_or_app. left. assumption.
    + apply (Hall k). apply in_or_app. right. left. reflexivity.
    + apply (Hall k). apply in_or_app. right. left. reflexivity.
    + assumption.
  - intros m e. unfold detectFileType, signatures. cbn [detectLoop offset sig mime ext].
    repeat match goal with
    | |- context [if len data <? ?n then _ else _] => destruct (len data <? n)
    | |- context [if matchAt data ?s 0 then _ else _] =>
        let E := fresh "E" in destruct (matchAt data s 0) eqn:E
    end;
    try discriminate;
    try (intros H; injection H as <- <-; intros X; vm_compute in X; discriminate);
    congruence.
Qed.

(** X6. Data in which [detectFileType] recognises a type is never filed as
    generic by the signature tier of the classifier. *)
Theorem detected_data_is_classified (data : Uint8Array) (m e : jsstring) :
  detectFileType data = Some (m, e) ->
  exists file, fallbackTiers data = Some file
               /\ DecodedFile.name file <> str "hidden-file.dat"
               /\ DecodedFile.type file <> str "application/octet-stream".
Proof.
  intros Hd. destruct (detectLoop_some data signatures m e Hd) as (k & s & Hin & _ & _ & Hm).
  rewrite (signatures_offsets k s Hin) in Hm.
  pose proof (signatures_nonempty k s Hin) as Hne.
  pose proof (matchAt_bounds data (sig s) 0 Hne Hm) as [_ Hlen].
  pose proof (len_pos_nonempty (sig s) Hne) as Hpos.
  assert (signatureHit data s = Some (signatureFile data s 0)) as Hhit.
  { apply signatureHit_found; [assumption | | lia].
    split; [lia|]. split; [assumption|]. intros j Hj. lia. }
  destruct (signatureScan_some data signatures k s _ Hin Hhit) as [file Hscan].
  exists file. unfold fallbackTiers.
  destruct (Z.gtb_spec (len data) 0); [|lia]. rewrite Hscan.
  split; [reflexivity|].
  destruct (signatureScan_inversion data signatures file Hscan) as (k' & s' & Hin' & Hhit').
  destruct (signatureHit_names data s' file Hhit') as [-> ->].
  unfold signatures in Hin'. simpl in Hin'.
  repeat (destruct Hin' as [Hin' | Hin'];
          [injection Hin' as <- <-; split; intros X; vm_compute in X; discriminate|]).
  contradiction.
Qed.

(** ** The box walker, continued *)

Lemma walkBox_break (data : Uint8Array) (o o' : Z) :
  walkBox data o = Break o' -> o' = o \/ o' = len data.
Proof.
  unfold walkBox, checkAdvance.
  destruct (getUint32 data o) as [size|]; [|intros H; injection H as <-; left; reflexivity].
  destruct (negb _); [intros H; injection H as <-; left; reflexivity|].
  destruct (size =? 1).
  - destruct (o + 16 >? len data); [intros H; injection H as <-; left; reflexivity|].
    destruct (getUint32 data (o + 8)) as [high|];
      [|intros H; injection H as <-; left; reflexivity].
    destruct (high >? 0); [intros H; injection H as <-; left; reflexivity|].
    destruct (getUint32 data (o + 12)) as [low|];
      [|intros H; injection H as <-; left; reflexivity].
    destruct (o + low >? len data); [|discriminate].
    intros H; injection H as <-; left; reflexivity.
  - destruct (size =? 0); [intros H; injection H as <-; right; reflexivity|].
    destruct (o + size >? len data); [|discriminate].
    intros H; injection H as <-; left; reflexivity.
Qed.

Lemma walkBoxes_range (data : Uint8Array) (fuel : nat) :
  forall o b, 0 <= o <= len data -> walkBoxes fuel data o = Some b -> o <= b <= len data.
Proof.
  induction fuel as [|fuel IH]; intros o b Ho; [discriminate|].
  rewrite walkBoxes_S. destruct (o + 8 <=? len data).
  - destruct (walkBox data o) as [o'|o'] eqn:E.
    + pose proof (walkBox_monotone data o o' E) as Hmono. intros Hwalk.
      specialize (IH o' b ltac:(lia) Hwalk). lia.
    + apply walkBox_break in E. intros Hwalk. injection Hwalk as <-. lia.
  - intros Hwalk. injection Hwalk as <-. lia.
Qed.

(** X7. The offset with which the walk ends lies inside the buffer, so the
    payload cut at it is a part of the file. *)
Theorem walkBoxes_within_buffer (fuel : nat) (data : Uint8Array) (splitIndex : Z) :
  walkBoxes fuel data 0 = Some splitIndex ->
  0 <= splitIndex <= len data
  /\ sliceFrom data splitIndex = skipn (Z.to_nat splitIndex) data.
Proof.
  intros H. pose proof (len_nonneg data).
  pose proof (walkBoxes_range data fuel 0 splitIndex ltac:(lia) H) as Hr.
  split; [assumption|]. apply sliceFrom_inside. assumption.
Qed.

Lemma walkBoxes_terminates_from (data : Uint8Array) :
  (forall o, Reaches data o ->
     getUint32 data o = Some 1 -> getUint32 data (o + 12) <> Some 0) ->
  forall (fuel : nat) (o : Z),
    Reaches data o -> (Z.to_nat (len data - o) < fuel)%nat ->
    exists b, walkBoxes fuel data o = Some b.
Proof.
  intros Hext. induction fuel as [|fuel IH]; intros o Hr Hfuel; [lia|].
  rewrite walkBoxes_S. destruct (Z.leb_spec (o + 8) (len data)) as [Hin|]; [|eauto].
  destruct (walkBox data o) as [o'|o'] eqn:E; [|eauto].
  pose proof (walkBox_monotone data o o' E).
  destruct (walkBox_progress data o o' E) as [Hlt | (_ & H1 & _ & H0)].
  - apply IH; [apply (Reaches_next data o o'); assumption | lia].
  - exfalso. exact (Hext o Hr H1 H0).
Qed.

(** X8. The walk ends within [length + 1] passes on every buffer in which
    no box that it reaches has the 32-bit size 1 with an extended size whose
    low word is 0. *)
Theorem walkBoxes_terminates (data : Uint8Array) :
  (forall o, Reaches data o ->
     getUint32 data o = Some 1 -> getUint32 data (o + 12) <> Some 0) ->
  exists splitIndex,
    walkBoxes (S (List.length data)) data 0 = Some splitIndex
    /\ forall expectedType,
         decodeM4AContainer (S (List.length data)) data expectedType
         = Some (extractAt data expectedType splitIndex).
Proof.
  intros Hext.
  destruct (walkBoxes_terminates_from data Hext (S (List.length data)) 0)
    as [b Hb]; [constructor | unfold len; lia |].
  exists b. split; [assumption|]. intros t. unfold decodeM4AContainer. rewrite Hb.
  reflexivity.
Qed.

Section WalkerFurther.

Context {P : Platform}.

(** X9. A buffer shorter than a box header, or whose first type tag fails
    the test, gives no file on the M4A path, and the decode goes on to the
    markers of the image formats. *)
Theorem m4a_path_without_leading_box (fuel : nat) (polyglotFile : File.t)
    (options : option DecodeOptions) :
  len (File.arrayBuffer polyglotFile) < 8
  \/ boxTypeTest (TextDecoder_decode (slice (File.arrayBuffer polyglotFile) 4 8)) = false ->
  (forall expectedType,
     decodeM4AContainer (S fuel) (File.arrayBuffer polyglotFile) expectedType = Some None)
  /\ decodePolyglot (S fuel) polyglotFile options
     = decodeByMarkers (S fuel) (File.arrayBuffer polyglotFile).
Proof.
  intros Hbad. set (data := File.arrayBuffer polyglotFile) in *.
  assert (walkBoxes (S fuel) data 0 = Some 0) as Hwalk.
  { rewrite walkBoxes_S. destruct (Z.leb_spec (0 + 8) (len data)) as [Hin|]; [|reflexivity].
    destruct Hbad as [Hshort | Htag]; [lia|].
    unfold walkBox, subarray. destruct (getUint32 data 0); [|reflexivity].
    change (0 + 4) with 4. change (0 + 8) with 8. rewrite Htag. reflexivity. }
  assert (forall t, decodeM4AContainer (S fuel) data t = Some None) as Hdec.
  { intros t. unfold decodeM4AContainer. rewrite Hwalk. reflexivity. }
  split; [assumption|].
  unfold decodePolyglot. fold data.
  destruct (isM4A polyglotFile); [|reflexivity].
  destruct options as [[[t|]]|]; cbn [executableType]; try reflexivity.
  rewrite Hdec. reflexivity.
Qed.

End WalkerFurther.

(** X10. A box of 32-bit size 0 that the walker reaches moves the boundary
    to the end of the buffer: nothing is left behind it, and the M4A path
    gives no file. *)
Theorem m4a_box_to_end_of_file (data : Uint8Array) (o : Z) :
  Reaches data o ->
  o + 8 <= len data ->
  getUint32 data o = Some 0 ->
  boxTypeTest (TextDecoder_decode (slice data (o + 4) (o + 8))) = true ->
  exists fuel, forall fuel', (fuel <= fuel')%nat ->
    walkBoxes fuel' data 0 = Some (len data)
    /\ forall expectedType, decodeM4AContainer fuel' data expectedType = Some None.
Proof.
  intros Hr Hin Hsize Htag.
  assert (walkBoxes 1 data o = Some (len data)) as Hone.
  { rewrite walkBoxes_S. destruct (Z.leb_spec (o + 8) (len data)); [|lia].
    unfold walkBox, subarray. rewrite Hsize, Htag. reflexivity. }
  destruct (walkBoxes_from_reached data o Hr 1%nat (len data) Hone) as [fuel Hfuel].
  exists fuel. intros fuel' Hle.
  pose proof (walkBoxes_more_fuel data fuel fuel' 0 (len data) Hfuel Hle) as Hwalk.
  split; [assumption|]. intros t. unfold decodeM4AContainer. rewrite Hwalk.
  unfold extractAt. destruct (Z.ltb_spec (len data) (len data)); [lia|].
  rewrite andb_false_r. reflexivity.
Qed.

(** ** The marker locators, continued *)

Lemma matchAt_app_inside (a b : Uint8Array) (needle : list byte) :
  forall j, 0 <= j -> j + len needle <= len a ->
    matchAt (a ++ b) needle j = matchAt a needle j.
Proof.
  induction needle as [|x needle IH]; intros j Hj Hlen; [reflexivity|].
  rewrite len_cons in Hlen. pose proof (len_nonneg needle).
  simpl. rewrite byteAt_app_l by lia.
  destruct (byteAt a j) as [y|]; [|reflexivity].
  destruct (Byte.eqb y x); [|reflexivity].
  apply IH; lia.
Qed.

Lemma matchAt_app_shift (pre rest : Uint8Array) (needle : list byte) :
  forall k, 0 <= k ->
    matchAt (pre ++ rest) needle (len pre + k) = matchAt rest needle k.
Proof.
  induction needle as [|x needle IH]; intros k Hk; [reflexivity|].
  simpl. rewrite byteAt_app_shift by lia.
  destruct (byteAt rest k) as [y|]; [|reflexivity].
  destruct (Byte.eqb y x); [|reflexivity].
  rewrite <- Z.add_assoc. apply IH. lia.
Qed.

Lemma startsWith_app (a b : Uint8Array) (prefix : list byte) :
  len prefix <= len a -> startsWith (a ++ b) prefix = startsWith a prefix.
Proof.
  intros Hlen. unfold startsWith. rewrite len_app. pose proof (len_nonneg b).
  destruct (Z.ltb_spec (len a + len b) (len prefix)); [lia|].
  destruct (Z.ltb_spec (len a) (len prefix)); [lia|].
  apply matchAt_app_inside; lia.
Qed.

Lemma startsWith_length (a : Uint8Array) (prefix : list byte) :
  startsWith a prefix = true -> len prefix <= len a.
Proof.
  unfold startsWith. destruct (Z.ltb_spec (len a) (len prefix)); [discriminate | lia].
Qed.

(** A needle that occurs has a last occurrence. *)
Lemma last_occurrence (data : Uint8Array) (needle : list byte) :
  needle <> [] ->
  forall (n : nat) (Q : Z),
    matchAt data needle Q = true -> len data - Q <= Z.of_nat n ->
    exists p, Q <= p /\ matchAt data needle p = true
              /\ forall q, p < q -> matchAt data needle q = false.
Proof.
  intros Hne. pose proof (len_pos_nonempty needle Hne) as Hpos.
  induction n as [|n IH]; intros Q Hm Hn.
  - pose proof (matchAt_bounds data needle Q Hne Hm). lia.
  - pose proof (matchAt_bounds data needle Q Hne Hm) as [HQ0 HQ1].
    destruct (findSequence_result data needle (Q + 1) Hne ltac:(lia))
      as [[_ Hall] | (Ht & Hmt & _)].
    + exists Q. split; [lia|]. split; [assumption|].
      intros q Hq. apply Hall. lia.
    + destruct (IH (findSequence data needle (Q + 1)) Hmt ltac:(lia)) as (p & Hp & Hmp & Hlast).
      exists p. split; [lia|]. split; assumption.
Qed.

Lemma jpegScan_total (data : Uint8Array) :
  forall (fuel : nat) (lastKnownIndex searchOffset : Z),
    0 <= searchOffset ->
    (Z.to_nat (len data - searchOffset) < fuel)%nat ->
    lastKnownIndex = -1 \/ 0 <= lastKnownIndex <= len data - 2 ->
    exists r, jpegScan fuel data lastKnownIndex searchOffset = Some r
              /\ (r = -1 \/ 0 <= r <= len data - 2).
Proof.
  induction fuel as [|fuel IH]; intros lastKnownIndex searchOffset Hs Hfuel Hlast; [lia|].
  simpl jpegScan. destruct (Z.ltb_spec searchOffset (len data)) as [Hin|]; [|eauto].
  destruct (findSequence_result data JPEG_eof searchOffset ltac:(discriminate) Hs)
    as [[E _] | (Ht & Hm & _)].
  - rewrite E. simpl. eauto.
  - pose proof (matchAt_bounds data JPEG_eof _ ltac:(discriminate) Hm) as [Hb0 Hb1].
    change (len JPEG_eof) with 2 in Hb1.
    destruct (Z.eqb_spec (findSequence data JPEG_eof searchOffset) (-1)); [lia|].
    simpl negb. cbv iota. apply IH; lia.
Qed.

(** X11. The scan of the JPEG branch ends within [length + 1] passes on
    every buffer; the boundary it yields is [-1] or lies between 2 and the
    length of the buffer, and it is [-1] when the end marker occurs nowhere. *)
Theorem locateJPEG_terminates (data : Uint8Array) :
  exists boundary,
    locateJPEG (S (List.length data)) data = Some boundary
    /\ (boundary = -1 \/ 2 <= boundary <= len data)
    /\ ((forall q, matchAt data JPEG_eof q = false) -> boundary = -1).
Proof.
  destruct (jpegScan_total data (S (List.length data)) (-1) 0)
    as (r & Hr & Hrange); [lia | unfold len; lia | left; reflexivity |].
  unfold locateJPEG. rewrite Hr.
  exists (if negb (r =? -1) then r + JPEG_eof_len else -1).
  split; [reflexivity|]. unfold JPEG_eof_len. split.
  - destruct (Z.eqb_spec r (-1)); simpl; lia.
  - intros Habs. destruct (Z.eqb_spec r (-1)); [reflexivity|]. exfalso.
    destruct data as [|b data]; [simpl in Hr; injection Hr as <-; lia|].
    simpl jpegScan in Hr.
    destruct (Z.ltb_spec 0 (len (b :: data)));
      [|rewrite len_cons in *; pose proof (len_nonneg data); lia].
    rewrite (findSequence_absent (b :: data) JPEG_eof 0) in Hr
      by (try lia; intros j _; apply Habs).
    simpl in Hr. injection Hr as <-. lia.
Qed.

Section Locators.

Context {P : Platform}.

(** X12. In a PNG container the boundary follows the first occurrence of
    the twelve bytes of the end chunk: the payload is what comes after it,
    and there is none when the chunk ends the buffer. *)
Theorem png_first_end_chunk (fuel : nat) (data : Uint8Array) (p : Z) :
  startsWith data PNG_header = true ->
  firstOccurrence data PNG_full_eof p ->
  locateBoundary fuel data = Some (p + 12)
  /\ (p + 12 < len data ->
      decodeByMarkers fuel data = Some (processPayload (sliceFrom data (p + 12))))
  /\ (p + 12 = len data -> decodeByMarkers fuel data = Some None).
Proof.
  intros Hsig (Hp0 & Hm & Hfirst).
  assert (locateBoundary fuel data = Some (p + 12)) as Hloc.
  { unfold locateBoundary, locatePNG. rewrite Hsig.
    rewrite (findSequence_found data PNG_full_eof 0 p) by (try assumption; discriminate).
    destruct (Z.eqb_spec p (-1)); [lia | reflexivity]. }
  split; [assumption|]. split.
  - intros Hlt. apply decodeByMarkers_classifies; [assumption | lia].
  - intros Heq. unfold decodeByMarkers. rewrite Hloc.
    destruct (Z.ltb_spec (p + 12) (len data)); [lia|].
    rewrite andb_false_r. reflexivity.
Qed.

(** X13. Without an end marker there is no payload: a PNG container
    without the end chunk, a JPEG container without FF D9, a GIF container
    without 3B below its final byte, and a buffer with none of the three
    headers all decode to no file. *)
Theorem decodeByMarkers_without_marker (fuel : nat) (data : Uint8Array) :
  (startsWith data PNG_header = true
   /\ forall j, matchAt data PNG_full_eof j = false)
  \/ (startsWith data JPEG_header = true
      /\ forall j, matchAt data JPEG_eof j = false)
  \/ (startsWith data GIF_header = true
      /\ forall j, j <= len data - 2 -> byteAt data j <> Some GIF_eof)
  \/ (startsWith data PNG_header = false /\ startsWith data JPEG_header = false
      /\ startsWith data GIF_header = false) ->
  locateBoundary (S fuel) data = Some (-1)
  /\ decodeByMarkers (S fuel) data = Some None.
Proof.
  intros Hcases.
  assert (locateBoundary (S fuel) data = Some (-1)) as Hloc.
  { unfold locateBoundary.
    destruct Hcases as [[Hsig Habs] | [[Hsig Habs] | [[Hsig Habs] | (H1 & H2 & H3)]]].
    - rewrite Hsig. unfold locatePNG.
      rewrite (findSequence_absent data PNG_full_eof 0) by (try lia; intros j _; apply Habs).
      reflexivity.
    - rewrite (startsWith_JPEG_not_PNG data Hsig), Hsig.
      unfold locateJPEG. simpl jpegScan.
      rewrite (findSequence_absent data JPEG_eof 0) by (try lia; intros j _; apply Habs).
      simpl. destruct (0 <? len data); reflexivity.
    - destruct (startsWith_GIF_not_others data Hsig) as [-> ->]. rewrite Hsig.
      unfold locateGIF.
      assert (lastIndexOf data GIF_eof (len data - 2) = -1) as ->; [|reflexivity].
      unfold lastIndexOf. destruct (len data =? 0); [reflexivity|].
      set (k := if 0 <=? len data - 2 then Z.min (len data - 2) (len data - 1)
                else len data + (len data - 2)).
      pose proof (startsWith_length data GIF_header Hsig) as Hlen.
      change (len GIF_header) with 3 in Hlen.
      assert (k <= len data - 2) as Hk
        by (unfold k; destruct (Z.leb_spec 0 (len data - 2)); lia).
      clearbody k. generalize (Z.to_nat (k + 1)). intros n. revert k Hk.
      induction n as [|n IH]; intros k Hk; [reflexivity|].
      simpl lastIndexDown. specialize (Habs k Hk).
      destruct (byteAt data k) as [b|].
      + destruct (Byte.eqb b GIF_eof) eqn:E.
        * apply Byte.byte_dec_bl in E. congruence.
        * apply IH. lia.
      + apply IH. lia.
    - rewrite H1, H2, H3. reflexivity. }
  split; [assumption|]. unfold decodeByMarkers. rewrite Hloc. reflexivity.
Qed.

End Locators.

(** ** Encoding and decoding together *)

Lemma len_appended (hiddenFile : File.t) :
  len (appended hiddenFile)
  = 4 + len (metadataBufferOf hiddenFile) + len (File.arrayBuffer hiddenFile).
Proof.
  unfold appended. rewrite !len_app, len_setUint32. lia.
Qed.

Lemma metadataBufferOf_head (hiddenFile : File.t) :
  exists rest, metadataBufferOf hiddenFile = [x7b; x22; x6e; x61] ++ rest.
Proof.
  unfold metadataBufferOf. cbv zeta. rewrite JSON_stringify_metadata. cbn [app].
  eexists. do 4 (rewrite TextEncoder_encode_unit by reflexivity). reflexivity.
Qed.

Lemma setUint32_head (n : Z) (rest : Uint8Array) :
  0 <= n < 16777216 -> byteAt (setUint32 n ++ rest) 0 = Some x00.
Proof.
  intros Hn. unfold setUint32. cbv zeta. cbn [app].
  rewrite Z.mod_small by lia. rewrite Z.div_small by lia. reflexivity.
Qed.

(** The walker stops at the envelope: the bytes after its length field are
    no type tag. *)
Lemma walkBoxes_appended (hiddenFile : File.t) (fuel : nat) :
  walkBoxes (S fuel) (appended hiddenFile) 0 = Some 0.
Proof.
  rewrite walkBoxes_S. destruct (0 + 8 <=? len (appended hiddenFile)); [|reflexivity].
  unfold walkBox, subarray. destruct (getUint32 (appended hiddenFile) 0); [|reflexivity].
  unfold appended. destruct (metadataBufferOf_head hiddenFile) as [rest ->].
  rewrite <- app_assoc.
  change (0 + 4) with (len (setUint32 (len ([x7b; x22; x6e; x61] ++ rest)))).
  change (0 + 8) with (len (setUint32 (len ([x7b; x22; x6e; x61] ++ rest)))
                       + len [x7b; x22; x6e; x61]).
  rewrite slice_app_middle. reflexivity.
Qed.

Lemma walkBoxes_Boxes (container : Uint8Array) :
  Boxes container ->
  forall (tail : Uint8Array) (fuel : nat) (r : Z),
    walkBoxes fuel tail 0 = Some r ->
    exists fuel', walkBoxes fuel' (container ++ tail) 0 = Some (len container + r).
Proof.
  induction 1 as [|size boxType body rest Htype Hsize Hbound Hrest IH];
    intros tail fuel r Hwalk.
  - exists fuel. assumption.
  - destruct (IH tail fuel r Hwalk) as [fuel' Hfuel'].
    exists (S fuel'). rewrite <- app_assoc. pose proof (len_nonneg body).
    rewrite walkBoxes_box by (try assumption; lia).
    rewrite Hfuel'. cbn [option_map]. rewrite len_app.
    rewrite len_box by (apply Htype). f_equal. lia.
Qed.

Lemma Boxes_head (container : Uint8Array) :
  Boxes container -> len container < 16777216 ->
  container = [] \/ byteAt container 0 = Some x00.
Proof.
  intros [|size boxType body rest Htype Hsize Hbound Hrest] Hlen; [left; reflexivity|].
  right. rewrite len_app, len_box in Hlen by (apply Htype).
  pose proof (len_nonneg body). pose proof (len_nonneg rest).
  unfold box. rewrite <- !app_assoc. apply setUint32_head. lia.
Qed.

Lemma findSequence_not_at_head (data : Uint8Array) (b x : byte) (needle : list byte) :
  byteAt data 0 = Some b -> b <> x -> (findSequence data (x :: needle) 0 =? 0) = false.
Proof.
  intros Hb Hneq. apply Z.eqb_neq. intros E0.
  destruct (findSequence_result data (x :: needle) 0 ltac:(discriminate) ltac:(lia))
    as [[E _] | (_ & Hm & _)]; [lia|].
  rewrite E0 in Hm. apply matchAt_head in Hm. congruence.
Qed.

Section EndToEnd.

Context {P : Platform} {laws : PlatformLaws P}.

Lemma createPolyglot_blob (containerFile hiddenFile : File.t) (autoConvert : bool)
    (result : CreatePolyglotResult) (finalContainerFile : File.t) :
  createPolyglot containerFile hiddenFile autoConvert = Resolved result ->
  finalContainer containerFile autoConvert = Some finalContainerFile ->
  Blob.bytes (blob result) = File.arrayBuffer finalContainerFile ++ appended hiddenFile.
Proof.
  intros Hcreate Hfinal. rewrite createPolyglot_bytes, Hfinal in Hcreate.
  injection Hcreate as <-. reflexivity.
Qed.

Lemma decodePolyglot_no_hint (fuel : nat) (polyglotFile : File.t) :
  decodePolyglot fuel polyglotFile None
  = decodeByMarkers fuel (File.arrayBuffer polyglotFile).
Proof.
  unfold decodePolyglot. destruct (isM4A polyglotFile); reflexivity.
Qed.

Lemma processPayload_appended (hiddenFile : File.t) :
  wfString (File.name hiddenFile) -> wfString (File.type hiddenFile) ->
  File.arrayBuffer hiddenFile <> [] ->
  len (metadataBufferOf hiddenFile) < 4294967296 ->
  processPayload (appended hiddenFile) = Some (recoveredFile hiddenFile).
Proof.
  intros Hname Htype Hbytes Hbound. unfold processPayload.
  pose proof (len_appended hiddenFile) as Hlen.
  pose proof (len_nonneg (metadataBufferOf hiddenFile)).
  pose proof (len_pos_nonempty _ Hbytes).
  destruct (Z.gtb_spec (len (appended hiddenFile)) 4); [|lia].
  unfold appended. rewrite envelopeTier_envelope by assumption. reflexivity.
Qed.

(** X14. A hidden file written behind a PNG container whose first end chunk
    closes it is read back by [decodePolyglot]: same bytes, same name, and
    the recorded media type. *)
Theorem png_polyglot_roundtrip (containerFile hiddenFile : File.t) (autoConvert : bool)
    (result : CreatePolyglotResult) (finalContainerFile polyglotFile : File.t)
    (fuel : nat) :
  createPolyglot containerFile hiddenFile autoConvert = Resolved result ->
  finalContainer containerFile autoConvert = Some finalContainerFile ->
  File.arrayBuffer polyglotFile = Blob.bytes (blob result) ->
  startsWith (File.arrayBuffer finalContainerFile) PNG_header = true ->
  firstOccurrence (File.arrayBuffer finalContainerFile) PNG_full_eof
    (len (File.arrayBuffer finalContainerFile) - 12) ->
  wfString (File.name hiddenFile) -> wfString (File.type hiddenFile) ->
  File.arrayBuffer hiddenFile <> [] ->
  len (metadataBufferOf hiddenFile) < 4294967296 ->
  decodePolyglot fuel polyglotFile None = Some (Some (recoveredFile hiddenFile)).
Proof.
  intros Hcreate Hfinal Hdata Hsig (Hp0 & Hm & Hfirst) Hname Htype Hbytes Hbound.
  rewrite decodePolyglot_no_hint, Hdata.
  rewrite (createPolyglot_blob _ _ _ _ _ Hcreate Hfinal).
  set (c := File.arrayBuffer finalContainerFile) in *.
  pose proof (len_appended hiddenFile) as Hlen.
  pose proof (len_nonneg (metadataBufferOf hiddenFile)).
  pose proof (len_nonneg (File.arrayBuffer hiddenFile)).
  rewrite (decodeByMarkers_classifies fuel (c ++ appended hiddenFile) (len c)).
  - rewrite sliceFrom_app. f_equal. apply processPayload_appended; assumption.
  - unfold locateBoundary, locatePNG.
    rewrite startsWith_app by (apply startsWith_length; assumption). rewrite Hsig.
    rewrite (findSequence_found _ PNG_full_eof 0 (len c - 12)).
    + destruct (Z.eqb_spec (len c - 12) (-1)); [lia|]. simpl negb. cbv iota.
      unfold PNG_eof_len. f_equal. lia.
    + discriminate.
    + assumption.
    + rewrite matchAt_app_inside by (change (len PNG_full_eof) with 12; lia). assumption.
    + intros j Hj. rewrite matchAt_app_inside by (change (len PNG_full_eof) with 12; lia).
      apply Hfirst. assumption.
  - rewrite len_app. lia.
Qed.

(** X15. A hidden file written behind a JPEG container that ends with the
    marker FF D9 is read back by [decodePolyglot] when the marker does not
    occur in the bytes written behind the container. *)
Theorem jpeg_polyglot_roundtrip (containerFile hiddenFile : File.t) (autoConvert : bool)
    (result : CreatePolyglotResult) (finalContainerFile polyglotFile : File.t)
    (fuel : nat) :
  createPolyglot containerFile hiddenFile autoConvert = Resolved result ->
  finalContainer containerFile autoConvert = Some finalContainerFile ->
  File.arrayBuffer polyglotFile = Blob.bytes (blob result) ->
  startsWith (File.arrayBuffer finalContainerFile) JPEG_header = true ->
  matchAt (File.arrayBuffer finalContainerFile) JPEG_eof
    (len (File.arrayBuffer finalContainerFile) - 2) = true ->
  (forall q, 0 <= q -> matchAt (appended hiddenFile) JPEG_eof q = false) ->
  wfString (File.name hiddenFile) -> wfString (File.type hiddenFile) ->
  File.arrayBuffer hiddenFile <> [] ->
  len (metadataBufferOf hiddenFile) < 4294967296 ->
  (List.length (File.arrayBuffer polyglotFile) < fuel)%nat ->
  decodePolyglot fuel polyglotFile None = Some (Some (recoveredFile hiddenFile)).
Proof.
  intros Hcreate Hfinal Hdata Hsig Hm Habs Hname Htype Hbytes Hbound Hfuel.
  rewrite decodePolyglot_no_hint. rewrite Hdata in *.
  rewrite (createPolyglot_blob _ _ _ _ _ Hcreate Hfinal) in *.
  set (c := File.arrayBuffer finalContainerFile) in *.
  pose proof (len_appended hiddenFile) as Hlen.
  pose proof (len_nonneg (metadataBufferOf hiddenFile)).
  pose proof (len_nonneg (File.arrayBuffer hiddenFile)).
  pose proof (matchAt_bounds c JPEG_eof _ ltac:(discriminate) Hm) as [Hc0 _].
  assert (List.length (c ++ appended hiddenFile) = Z.to_nat (len (c ++ appended hiddenFile)))
    as Hnat by (unfold len; lia).
  rewrite len_app in Hnat.
  rewrite (decodeByMarkers_classifies fuel (c ++ appended hiddenFile) (len c)).
  - rewrite sliceFrom_app. f_equal. apply processPayload_appended; assumption.
  - assert (startsWith (c ++ appended hiddenFile) JPEG_header = true) as Hsig'
      by (rewrite startsWith_app by (apply startsWith_length; assumption); assumption).
    unfold locateBoundary. rewrite (startsWith_JPEG_not_PNG _ Hsig'), Hsig'.
    unfold locateJPEG.
    rewrite (jpegScan_last (c ++ appended hiddenFile) (len c - 2)).
    + destruct (Z.eqb_spec (len c - 2) (-1)); [lia|]. simpl negb. cbv iota.
      unfold JPEG_eof_len. f_equal. lia.
    + rewrite matchAt_app_inside by (change (len JPEG_eof) with 2; lia). assumption.
    + intros q Hq. destruct (Z.eq_dec q (len c - 1)) as [-> | Hne].
      * simpl in Hm. destruct (byteAt c (len c - 2)) as [b0|]; [|discriminate].
        destruct (Byte.eqb b0 xff); [|discriminate].
        replace (len c - 2 + 1) with (len c - 1) in Hm by lia.
        simpl. rewrite byteAt_app_l by lia.
        destruct (byteAt c (len c - 1)) as [b1|]; [|reflexivity].
        destruct (Byte.eqb b1 xd9) eqn:E1; [|discriminate].
        apply Byte.byte_dec_bl in E1. subst b1. reflexivity.
      * replace q with (len c + (q - len c)) by lia.
        rewrite matchAt_app_shift by lia. apply Habs. lia.
    + lia.
    + lia.
  - rewrite len_app. lia.
Qed.

(** X16. A hidden file in which FF D9 occurs is never read back from a JPEG
    container: the boundary is put behind the last such marker, and a file
    that comes out of the decode has fewer bytes than the hidden file. *)
Theorem jpeg_marker_in_hidden_file (containerFile hiddenFile : File.t) (autoConvert : bool)
    (result : CreatePolyglotResult) (finalContainerFile polyglotFile : File.t)
    (fuel : nat) (q : Z) :
  createPolyglot containerFile hiddenFile autoConvert = Resolved result ->
  finalContainer containerFile autoConvert = Some finalContainerFile ->
  File.arrayBuffer polyglotFile = Blob.bytes (blob result) ->
  startsWith (File.arrayBuffer finalContainerFile) JPEG_header = true ->
  matchAt (File.arrayBuffer hiddenFile) JPEG_eof q = true ->
  (List.length (File.arrayBuffer polyglotFile) < fuel)%nat ->
  (exists outcome, decodePolyglot fuel polyglotFile None = Some outcome)
  /\ (forall file, decodePolyglot fuel polyglotFile None = Some (Some file) ->
        DecodedFile.size file < len (File.arrayBuffer hiddenFile) - q - 1)
  /\ decodePolyglot fuel polyglotFile None <> Some (Some (recoveredFile hiddenFile)).
Proof.
  intros Hcreate Hfinal Hdata Hsig Hm Hfuel.
  rewrite decodePolyglot_no_hint. rewrite Hdata in *.
  rewrite (createPolyglot_blob _ _ _ _ _ Hcreate Hfinal) in *.
  set (c := File.arrayBuffer finalContainerFile) in *.
  set (h := File.arrayBuffer hiddenFile) in *.
  set (data := c ++ appended hiddenFile) in *.
  pose proof (matchAt_bounds h JPEG_eof q ltac:(discriminate) Hm) as [Hq0 Hq1].
  change (len JPEG_eof) with 2 in Hq1.
  pose proof (len_nonneg (metadataBufferOf hiddenFile)) as Hmd.
  pose proof (len_nonneg c) as Hc.
  assert (len data = len c + 4 + len (metadataBufferOf hiddenFile) + len h) as Hlen
    by (unfold data; rewrite len_app, len_appended; fold h; lia).
  assert (matchAt data JPEG_eof (len c + 4 + len (metadataBufferOf hiddenFile) + q) = true)
    as Hocc.
  { unfold data, appended. fold h.
    rewrite !app_assoc.
    replace (len c + 4 + len (metadataBufferOf hiddenFile))
      with (len ((c ++ setUint32 (len (metadataBufferOf hiddenFile)))
                 ++ metadataBufferOf hiddenFile))
      by (rewrite !len_app, len_setUint32; lia).
    rewrite matchAt_app_shift by lia. assumption. }
  destruct (last_occurrence data JPEG_eof ltac:(discriminate)
              (Z.to_nat (len data)) _ Hocc ltac:(lia)) as (p & Hp & Hmp & Hlast).
  pose proof (matchAt_bounds data JPEG_eof p ltac:(discriminate) Hmp) as [Hp0 Hp1].
  change (len JPEG_eof) with 2 in Hp1.
  assert (locateBoundary fuel data = Some (p + 2)) as Hloc.
  { assert (startsWith data JPEG_header = true) as Hsig'
      by (unfold data; rewrite startsWith_app by (apply startsWith_length; assumption);
          assumption).
    unfold locateBoundary. rewrite (startsWith_JPEG_not_PNG _ Hsig'), Hsig'.
    unfold locateJPEG.
    rewrite (jpegScan_last data p Hmp Hlast) by (unfold len in *; lia).
    destruct (Z.eqb_spec p (-1)); [lia | reflexivity]. }
  assert (forall file, decodeByMarkers fuel data = Some (Some file) ->
                       DecodedFile.size file < len h - q - 1) as Hsize.
  { intros file. unfold decodeByMarkers. rewrite Hloc.
    destruct (negb (p + 2 =? -1) && (p + 2 <? len data)); [|discriminate].
    intros Hfile. injection Hfile as Hfile.
    destruct (processPayload_suffix _ file Hfile) as (k & Hk & Hbytes & Hks).
    unfold Blob.size in Hks. rewrite Hbytes in Hks.
    rewrite len_sliceFrom in Hk by lia.
    rewrite len_sliceFrom in Hks by (rewrite len_sliceFrom by lia; lia).
    rewrite len_sliceFrom in Hks by lia. lia. }
  split; [|split].
  - unfold decodeByMarkers. rewrite Hloc.
    destruct (negb (p + 2 =? -1) && (p + 2 <? len data)); eauto.
  - assumption.
  - intros Hrec. specialize (Hsize _ Hrec). unfold recoveredFile in Hsize.
    cbn [DecodedFile.size] in Hsize. fold h in Hsize. lia.
Qed.


(** X18. A hidden file written behind an M4A container is not found again:
    the walker stops at the length field of the envelope, which is not the
    signature of an executable, and the buffer begins with no image header;
    [decodePolyglot] gives no file, with or without a hint. *)
Theorem m4a_polyglot_not_decoded (containerFile hiddenFile : File.t)
    (autoConvert : bool) (result : CreatePolyglotResult)
    (finalContainerFile polyglotFile : File.t) (options : option DecodeOptions) :
  createPolyglot containerFile hiddenFile autoConvert = Resolved result ->
  finalContainer containerFile autoConvert = Some finalContainerFile ->
  File.arrayBuffer polyglotFile = Blob.bytes (blob result) ->
  Boxes (File.arrayBuffer finalContainerFile) ->
  len (File.arrayBuffer finalContainerFile) < 16777216 ->
  len (metadataBufferOf hiddenFile) < 16777216 ->
  exists fuel, forall fuel', (fuel <= fuel')%nat ->
    decodePolyglot fuel' polyglotFile options = Some None.
Proof.
  intros Hcreate Hfinal Hdata Hboxes Hclen Hmdlen.
  set (c := File.arrayBuffer finalContainerFile) in *.
  pose proof (len_nonneg (metadataBufferOf hiddenFile)) as Hmd.
  assert (byteAt (appended hiddenFile) 0 = Some x00) as Htail
    by (apply setUint32_head; lia).
  assert (byteAt (c ++ appended hiddenFile) 0 = Some x00) as Hhead.
  { destruct (Boxes_head c Hboxes Hclen) as [-> | Hc0]; [assumption|].
    pose proof (byteAt_range c 0 x00 Hc0). rewrite byteAt_app_l by lia. assumption. }
  destruct (walkBoxes_Boxes c Hboxes (appended hiddenFile) 1%nat 0
              (walkBoxes_appended hiddenFile 0%nat)) as [fuel Hfuel].
  rewrite Z.add_0_r in Hfuel.
  exists fuel. intros fuel' Hle.
  pose proof (walkBoxes_more_fuel _ fuel fuel' 0 (len c) Hfuel Hle) as Hwalk.
  unfold decodePolyglot. rewrite Hdata.
  rewrite (createPolyglot_blob _ _ _ _ _ Hcreate Hfinal). fold c.
  rewrite (decodeByMarkers_zero_head fuel' _ Hhead).
  destruct (if isM4A polyglotFile
            then match options with Some o => executableType o | None => None end
            else None) as [expectedType|]; [|reflexivity].
  unfold decodeM4AContainer. rewrite Hwalk. unfold extractAt.
  destruct ((len c >? 0) && (len c <? len (c ++ appended hiddenFile))); [|reflexivity].
  cbv zeta. rewrite sliceFrom_app.
  destruct expectedType; cbn [toUpperCase lookupSignature signatures String.eqb Ascii.eqb Bool.eqb sig];
    rewrite (findSequence_not_at_head _ x00) by (try assumption; discriminate);
    reflexivity.
Qed.

End EndToEnd.

(** ** The encoder, continued *)

Lemma jsstring_eqb_eq (s t : jsstring) : jsstring_eqb s t = true -> s = t.
Proof.
  revert t. induction s as [|u s IH]; intros [|v t]; simpl; try discriminate.
  - reflexivity.
  - intros H. apply andb_true_iff in H as [Huv Hst].
    apply Z.eqb_eq in Huv. subst v. f_equal. apply IH. assumption.
Qed.

Section EncoderFurther.

Context {P : Platform}.

(** X19. The blob of a polyglot is laid out as container, big-endian length
    of the metadata, metadata, hidden bytes: the container is a prefix, the
    hidden bytes are the suffix, and the parts are found again at the offsets
    the lengths give. *)
Theorem createPolyglot_layout (containerFile hiddenFile : File.t) (autoConvert : bool)
    (result : CreatePolyglotResult) :
  createPolyglot containerFile hiddenFile autoConvert = Resolved result ->
  exists finalContainerFile,
    let c := File.arrayBuffer finalContainerFile in
    let md := metadataBufferOf hiddenFile in
    let bytes := Blob.bytes (blob result) in
    finalContainer containerFile autoConvert = Some finalContainerFile
    /\ newContainerName result = File.name finalContainerFile
    /\ Blob.type (blob result) = Blob.normalizeType (File.type finalContainerFile)
    /\ Blob.size (blob result) = len c + 4 + len md + len (File.arrayBuffer hiddenFile)
    /\ slice bytes 0 (len c) = c
    /\ getUint32 bytes (len c) = Some (len md mod 4294967296)
    /\ slice bytes (len c + 4) (len c + 4 + len md) = md
    /\ sliceFrom bytes (len c + 4 + len md) = File.arrayBuffer hiddenFile.
Proof.
  intros Hcreate. rewrite createPolyglot_bytes in Hcreate.
  destruct (finalContainer containerFile autoConvert) as [f|]; [|discriminate].
  exists f. cbv zeta.
  set (c := File.arrayBuffer f) in *. set (md := metadataBufferOf hiddenFile) in *.
  set (h := File.arrayBuffer hiddenFile) in *.
  assert (blob result = Blob.new (c ++ setUint32 (len md) ++ md ++ h) (File.type f)) as ->
    by (injection Hcreate as <-; reflexivity).
  assert (newContainerName result = File.name f) as ->
    by (injection Hcreate as <-; reflexivity).
  unfold Blob.size. cbn [Blob.bytes Blob.type Blob.new].
  pose proof (len_nonneg c). pose proof (len_nonneg md). pose proof (len_nonneg h).
  pose proof (len_setUint32 (len md)) as HL.
  repeat split.
  - rewrite !len_app, HL. lia.
  - change (c ++ setUint32 (len md) ++ md ++ h)
      with ([] ++ c ++ (setUint32 (len md) ++ md ++ h)).
    change 0 with (len (@nil byte)) at 1.
    replace (len c) with (len (@nil byte) + len c) at 1 by (rewrite len_nil; lia).
    apply slice_app_middle.
  - replace (len c) with (len c + 0) at 1 by lia.
    rewrite getUint32_app_shift by lia. apply getUint32_setUint32.
  - rewrite (app_assoc c).
    replace (len c + 4) with (len (c ++ setUint32 (len md)))
      by (rewrite len_app, HL; lia).
    apply slice_app_middle.
  - rewrite (app_assoc c), (app_assoc (c ++ _)).
    replace (len c + 4 + len md) with (len ((c ++ setUint32 (len md)) ++ md))
      by (rewrite !len_app, HL; lia).
    apply sliceFrom_app.
Qed.


End EncoderFurther.

(** ** Names *)

Lemma lastIndexOfUnit_absent (s : jsstring) (u : Z) :
  ~ In u s -> forall i, lastIndexOfUnit s u i = -1.
Proof.
  induction s as [|v s IH]; intros Hnot i; [reflexivity|].
  simpl. rewrite IH by (intros Hin; apply Hnot; right; assumption).
  simpl. destruct (Z.eqb_spec v u); [|reflexivity].
  exfalso. apply Hnot. left. assumption.
Qed.

Lemma lastIndexOfUnit_last (base ext : jsstring) (u : Z) :
  ~ In u ext ->
  forall i, 0 <= i ->
    lastIndexOfUnit (base ++ u :: ext) u i = i + Z.of_nat (List.length base).
Proof.
  intros Hnot. induction base as [|v base IH]; intros i Hi.
  - simpl. rewrite (lastIndexOfUnit_absent ext u Hnot). simpl.
    rewrite Z.eqb_refl. lia.
  - cbn [app lastIndexOfUnit]. rewrite IH by lia.
    destruct (Z.eqb_spec (i + 1 + Z.of_nat (List.length base)) (-1)); [lia|].
    simpl negb. cbv iota. cbn [List.length]. lia.
Qed.

(** X21. The name without its extension is the part before the last dot;
    a name without a dot, and a name whose only dot comes first, are kept
    whole. *)
Theorem originalNameNoExt_cases :
  (forall name, ~ In 46 name -> originalNameNoExt name = name)
  /\ (forall base ext, base <> [] -> ~ In 46 ext ->
        originalNameNoExt (base ++ 46 :: ext) = base)
  /\ (forall ext, ~ In 46 ext -> originalNameNoExt (46 :: ext) = 46 :: ext).
Proof.
  split; [|split].
  - intros name Hnot. unfold originalNameNoExt.
    rewrite (lastIndexOfUnit_absent name 46 Hnot). reflexivity.
  - intros base ext Hne Hnot. unfold originalNameNoExt, substring0.
    rewrite (lastIndexOfUnit_last base ext 46 Hnot 0) by lia.
    rewrite Z.add_0_l, Nat2Z.id.
    rewrite firstn_app, Nat.sub_diag, firstn_all. cbn [firstn]. rewrite app_nil_r.
    destruct base; [congruence | reflexivity].
  - intros ext Hnot. unfold originalNameNoExt, substring0.
    change (46 :: ext) with ([] ++ 46 :: ext) at 1 2.
    rewrite (lastIndexOfUnit_last [] ext 46 Hnot 0) by lia. reflexivity.
Qed.

Lemma split_absent (sep : Z) (s : jsstring) : ~ In sep s -> split sep s = [s].
Proof.
  induction s as [|u s IH]; intros Hnot; [reflexivity|].
  simpl. destruct (Z.eqb_spec u sep) as [->|]; [exfalso; apply Hnot; left; reflexivity|].
  rewrite IH by (intros Hin; apply Hnot; right; assumption). reflexivity.
Qed.

Lemma split_nonempty (sep : Z) (s : jsstring) : split sep s <> [].
Proof.
  destruct s as [|u s]; [discriminate|]. simpl.
  destruct (u =? sep); [discriminate|]. destruct (split sep s); discriminate.
Qed.

Lemma split_app (sep : Z) (a rest : jsstring) :
  ~ In sep a -> split sep (a ++ sep :: rest) = a :: split sep rest.
Proof.
  induction a as [|u a IH]; intros Hnot.
  - simpl. rewrite Z.eqb_refl. reflexivity.
  - cbn [app split].
    destruct (Z.eqb_spec u sep) as [->|]; [exfalso; apply Hnot; left; reflexivity|].
    rewrite IH by (intros Hin; apply Hnot; right; assumption). reflexivity.
Qed.

(** X22. The image service names its result after the subtype of the target
    media type, [dat] when the target has no subtype, and rejects a file
    whose type does not begin with [image/]. *)
Theorem convertImage_name (imageFile : File.t) (canvas : Blob.t) :
  startsWithStr (File.type imageFile) (str "image/") = true ->
  (forall major subtype,
     ~ In 47 major -> ~ In 47 subtype -> subtype <> [] ->
     ImageService.convertImage imageFile (major ++ str "/" ++ subtype) (Some canvas)
     = Resolved (ConvertResult.mk canvas
                   (originalNameNoExt (File.name imageFile) ++ str "." ++ subtype)))
  /\ (forall target,
        ~ In 47 target \/ (exists major, ~ In 47 major /\ target = major ++ str "/") ->
        ImageService.convertImage imageFile target (Some canvas)
        = Resolved (ConvertResult.mk canvas
                      (originalNameNoExt (File.name imageFile) ++ str ".dat")))
  /\ (forall target other,
        startsWithStr (File.type other) (str "image/") = false ->
        ImageService.convertImage other target (Some canvas) = Rejected).
Proof.
  intros Himage. split; [|split].
  - intros major subtype Hmajor Hsub Hne. unfold ImageService.convertImage.
    rewrite Himage. cbn [negb]. do 3 f_equal. unfold newExtension.
    change (str "/" ++ subtype) with (47 :: subtype).
    rewrite split_app by assumption. rewrite (split_absent 47 subtype Hsub).
    cbn [nth_error]. destruct subtype; [congruence | reflexivity].
  - intros target Htarget. unfold ImageService.convertImage.
    rewrite Himage. cbn [negb]. do 2 f_equal.
    assert (newExtension target = str "dat") as ->; [|reflexivity].
    unfold newExtension. destruct Htarget as [Hnot | (major & Hnot & ->)].
    + rewrite (split_absent 47 target Hnot). reflexivity.
    + change (str "/") with [47]. rewrite split_app by assumption. reflexivity.
  - intros target other Hother. unfold ImageService.convertImage.
    rewrite Hother. reflexivity.
Qed.

Section ConvertedName.

Context {P : Platform}.

(** X23. When the automatic conversion applies, the polyglot is typed
    [image/png] and named after the container with [.png] in place of the
    extension; for the image types sent to the image service this is the
    name that the service gives its result. *)
Theorem converted_container_name (containerFile hiddenFile : File.t)
    (result : CreatePolyglotResult) (canvas : Blob.t) :
  startsWithStr (File.type containerFile) (str "text/")
  || existsb (jsstring_eqb (File.type containerFile))
             [str "image/bmp"; str "image/webp"; str "image/tiff"] = true ->
  createPolyglot containerFile hiddenFile true = Resolved result ->
  newContainerName result = originalNameNoExt (File.name containerFile) ++ str ".png"
  /\ Blob.type (blob result) = str "image/png"
  /\ (startsWithStr (File.type containerFile) (str "text/") = false ->
      ImageService.convertImage containerFile (str "image/png") (Some canvas)
      = Resolved (ConvertResult.mk canvas (newContainerName result))).
Proof.
  intros Happlies Hcreate. rewrite createPolyglot_bytes in Hcreate.
  unfold finalContainer in Hcreate. cbv zeta in Hcreate.
  rewrite Happlies in Hcreate. cbn [andb] in Hcreate.
  assert (match substring0 (File.name containerFile)
                  (lastIndexOfUnit (File.name containerFile) 46 0) with
          | [] => File.name containerFile
          | _ :: _ =>
              substring0 (File.name containerFile)
                (lastIndexOfUnit (File.name containerFile) 46 0)
          end = originalNameNoExt (File.name containerFile)) as Hname.
  { unfold originalNameNoExt. destruct (substring0 _ _); reflexivity. }
  rewrite Hname in Hcreate.
  destruct (if startsWithStr (File.type containerFile) (str "text/")
            then convertTextToPng (TextDecoder_decode (File.arrayBuffer containerFile))
            else convertImage containerFile (str "image/png")) as [converted|];
    [|discriminate].
  assert (newContainerName result = originalNameNoExt (File.name containerFile) ++ str ".png")
    as Hn by (injection Hcreate as <-; reflexivity).
  assert (Blob.type (blob result) = str "image/png")
    as Ht by (injection Hcreate as <-; reflexivity).
  split; [assumption|]. split; [assumption|].
  intros Htext. rewrite Htext in Happlies. cbn [orb existsb] in Happlies.
  rewrite Hn. unfold ImageService.convertImage.
  assert (startsWithStr (File.type containerFile) (str "image/") = true) as ->.
  { repeat (apply orb_true_iff in Happlies as [Happlies | Happlies];
            [apply jsstring_eqb_eq in Happlies; rewrite Happlies; reflexivity|]).
    discriminate. }
  reflexivity.
Qed.

End ConvertedName.

(** ** bytesToHex and the request to the oracle *)

Lemma hexDigit_inj (a b : Z) :
  0 <= a < 16 -> 0 <= b < 16 -> hexDigit a = hexDigit b -> a = b.
Proof.
  unfold hexDigit. intros Ha Hb.
  destruct (Z.ltb_spec a 10); destruct (Z.ltb_spec b 10); lia.
Qed.

Lemma byteToHex_inj (b1 b2 : byte) : byteToHex b1 = byteToHex b2 -> b1 = b2.
Proof.
  unfold byteToHex. intros H. injection H as Hhigh Hlow.
  pose proof (toZ_range b1). pose proof (toZ_range b2).
  apply hexDigit_inj in Hhigh; [|arith|arith].
  apply hexDigit_inj in Hlow; [|arith|arith].
  rewrite <- (byteOfZ_toZ b1), <- (byteOfZ_toZ b2). f_equal. arith.
Qed.

Lemma length_bytesToHex (bytes : Uint8Array) :
  List.length (bytesToHex bytes) = (2 * List.length bytes)%nat.
Proof.
  induction bytes as [|b bytes IH]; [reflexivity|].
  cbn [bytesToHex flat_map byteToHex app List.length] in *.
  unfold bytesToHex in IH. rewrite IH. lia.
Qed.

(** X24. [bytesToHex] writes two lower-case hexadecimal digits for each
    byte, and different byte sequences are written differently. *)
Theorem bytesToHex_faithful :
  (forall bytes, List.length (bytesToHex bytes) = (2 * List.length bytes)%nat)
  /\ (forall bytes,
        Forall (fun u => 48 <= u <= 57 \/ 97 <= u <= 102) (bytesToHex bytes))
  /\ (forall bytes1 bytes2, bytesToHex bytes1 = bytesToHex bytes2 -> bytes1 = bytes2).
Proof.
  split; [|split].
  - exact length_bytesToHex.
  - induction bytes as [|b bytes IH]; [constructor|].
    pose proof (toZ_range b).
    cbn [bytesToHex flat_map byteToHex app].
    constructor; [|constructor; [|exact IH]]; unfold hexDigit.
    + destruct (Z.ltb_spec (toZ b / 16) 10); arith.
    + destruct (Z.ltb_spec (toZ b mod 16) 10); arith.
  - induction bytes1 as [|b1 bytes1 IH]; intros [|b2 bytes2]; try discriminate.
    + reflexivity.
    + cbn [bytesToHex flat_map byteToHex app]. intros H.
      injection H as Hhigh Hlow Hrest.
      f_equal.
      * apply byteToHex_inj. unfold byteToHex. congruence.
      * apply IH. exact Hrest.
Qed.

(** X25. The two excerpts of the request are the first 256 and the last
    1024 bytes of the file, at most 512 and 2048 digits; a file of at most
    256 bytes is written out whole in both. *)
Theorem prompt_excerpts (data : Uint8Array) :
  promptFirstBytes data = bytesToHex (firstn 256 data)
  /\ promptLastBytes data = bytesToHex (skipn (List.length data - 1024) data)
  /\ (List.length (promptFirstBytes data) <= 512)%nat
  /\ (List.length (promptLastBytes data) <= 2048)%nat
  /\ (len data <= 256 ->
      promptFirstBytes data = bytesToHex data /\ promptLastBytes data = bytesToHex data).
Proof.
  assert (promptFirstBytes data = bytesToHex (firstn 256 data)) as Hfirst.
  { unfold promptFirstBytes. f_equal. unfold slice, relIndex.
    change (0 <? 0) with false. change (256 <? 0) with false. cbv iota.
    pose proof (len_nonneg data). rewrite (Z.min_l 0) by assumption.
    rewrite Z.sub_0_r. change (Z.to_nat 0) with 0%nat. cbn [skipn].
    unfold len in *.
    destruct (Z.le_ge_cases (Z.of_nat (List.length data)) 256).
    - rewrite Z.min_r by lia. rewrite Nat2Z.id.
      rewrite !firstn_all2 by lia. reflexivity.
    - rewrite Z.min_l by lia. reflexivity. }
  assert (promptLastBytes data = bytesToHex (skipn (List.length data - 1024) data)) as Hlast.
  { unfold promptLastBytes. f_equal. unfold sliceFrom, slice, relIndex.
    change (-1024 <? 0) with true. cbv iota.
    pose proof (len_nonneg data).
    destruct (Z.ltb_spec (len data) 0); [lia|]. rewrite Z.min_id.
    replace (Z.to_nat (Z.max (len data + -1024) 0)) with (List.length data - 1024)%nat
      by (unfold len; lia).
    apply firstn_all2. rewrite length_skipn. unfold len. lia. }
  split; [assumption|]. split; [assumption|].
  rewrite Hfirst, Hlast, !length_bytesToHex.
  split; [rewrite length_firstn; lia|].
  split; [rewrite length_skipn; lia|].
  intros Hshort. unfold len in Hshort.
  rewrite firstn_all2 by lia.
  replace (List.length data - 1024)%nat with 0%nat by lia.
  split; reflexivity.
Qed.

(** ** The decode handler *)

Section Handler.

Context {P : Platform}.

(** X26. After a decode that returns, the page holds either the extracted
    file or an error message, never both and never neither; a file found by
    the standard decode is kept whatever the oracle would answer; the oracle
    is not asked unless AI decoding is switched on; and an extracted file
    comes from the standard decode or, when that found nothing, from the
    oracle. *)
Theorem handleDecodeFile_outcome (fuel : nat) (previous : DecodeState) (decodeFile : File.t)
    (useAiDecode isM4aFile : bool) (executableType : ExecutableType)
    (response : option jsstring) (state : DecodeState) :
  handleDecodeFile fuel previous (Some decodeFile) useAiDecode isM4aFile executableType
    response = Some state ->
  let standard :=
    decodePolyglot fuel decodeFile (if isM4aFile then withHint executableType else None) in
  (extractedFile state = None <-> decodeError state <> None)
  /\ (forall file, standard = Some (Some file) ->
        state = {| extractedFile := Some file; decodeError := None |})
  /\ (useAiDecode = false ->
      forall response',
        handleDecodeFile fuel previous (Some decodeFile) useAiDecode isM4aFile
          executableType response' = Some state)
  /\ (forall file, extractedFile state = Some file ->
        standard = Some (Some file)
        \/ (useAiDecode = true /\ standard = Some None
            /\ decodePolyglotWithAI decodeFile response = Resolved (Some file))).
Proof.
  unfold handleDecodeFile, withHint. cbv zeta.
  destruct (decodePolyglot fuel decodeFile _) as [[found|]|]; [| |discriminate].
  - intros H. injection H as <-. cbn [extractedFile decodeError].
    split; [split; [discriminate | intros X; exfalso; apply X; reflexivity]|].
    split; [intros file E; injection E as <-; reflexivity|].
    split; [intros _ response'; reflexivity|].
    intros file E. left. congruence.
  - destruct useAiDecode.
    + destruct (decodePolyglotWithAI decodeFile response) as [[file|]|];
        intros H; injection H as <-; cbn [extractedFile decodeError].
      * split; [split; [discriminate | intros X; exfalso; apply X; reflexivity]|].
        split; [intros file' E; discriminate|].
        split; [discriminate|].
        intros file' E. injection E as <-. right. repeat split.
      * split; [split; [intros _; discriminate | reflexivity]|].
        split; [intros file' E; discriminate|].
        split; [discriminate|].
        intros file' E. discriminate.
      * split; [split; [intros _; discriminate | reflexivity]|].
        split; [intros file' E; discriminate|].
        split; [discriminate|].
        intros file' E. discriminate.
    + intros H. injection H as <-. cbn [extractedFile decodeError].
      split; [split; [intros _; discriminate | reflexivity]|].
      split; [intros file E; discriminate|].
      split; [intros _ response'; reflexivity|].
      intros file E. discriminate.
Qed.

End Handler.

(** ** The lines of a text container *)

Lemma join_cons (sep part : jsstring) (rest : list jsstring) :
  rest <> [] -> join sep (part :: rest) = part ++ sep ++ join sep rest.
Proof.
  destruct rest; [congruence | reflexivity].
Qed.

Lemma join_split (sep : Z) (s : jsstring) : join [sep] (split sep s) = s.
Proof.
  induction s as [|u s IH]; [reflexivity|].
  cbn [split]. destruct (Z.eqb_spec u sep) as [->|].
  - rewrite join_cons by (apply split_nonempty). rewrite IH. reflexivity.
  - destruct (split sep s) as [|w ws] eqn:E; [exfalso; exact (split_nonempty _ _ E)|].
    destruct ws as [|w' ws].
    + simpl in IH. subst w. reflexivity.
    + rewrite join_cons in IH by discriminate. rewrite join_cons by discriminate.
      rewrite <- IH. reflexivity.
Qed.

Lemma wrapWords_nonempty (fits : jsstring -> bool) (words : list jsstring) :
  forall currentLine, wrapWords fits currentLine words <> [].
Proof.
  induction words as [|word rest IH]; intros currentLine; [discriminate|].
  simpl. destruct (fits _); [apply IH | discriminate].
Qed.

Lemma wrapWords_join (fits : jsstring -> bool) (words : list jsstring) :
  forall currentLine,
    join (str " ") (wrapWords fits currentLine words)
    = join (str " ") (currentLine :: words).
Proof.
  induction words as [|word rest IH]; intros currentLine; [reflexivity|].
  cbn [wrapWords]. destruct (fits _).
  - rewrite IH. rewrite (join_cons _ currentLine) by discriminate.
    destruct rest as [|word' rest].
    + reflexivity.
    + rewrite !join_cons by discriminate. rewrite <- !app_assoc. reflexivity.
  - rewrite join_cons by (apply wrapWords_nonempty). rewrite IH.
    rewrite (join_cons _ currentLine) by discriminate. reflexivity.
Qed.

Lemma wrapWords_fit (fits : jsstring -> bool) (words : list jsstring) :
  forall currentLine line,
    In line (wrapWords fits currentLine words) ->
    fits line = true \/ line = currentLine \/ In line words.
Proof.
  induction words as [|word rest IH]; intros currentLine line Hin.
  - destruct Hin as [<- | []]. right. left. reflexivity.
  - cbn [wrapWords] in Hin. destruct (fits (currentLine ++ str " " ++ word)) eqn:E.
    + destruct (IH _ _ Hin) as [H | [-> | H]].
      * left. assumption.
      * left. assumption.
      * right. right. right. assumption.
    + destruct Hin as [<- | Hin]; [right; left; reflexivity|].
      destruct (IH _ _ Hin) as [H | [-> | H]].
      * left. assumption.
      * right. right. left. reflexivity.
      * right. right. right. assumption.
Qed.

Lemma wrapParagraph_words (fits : jsstring -> bool) (paragraph : jsstring) :
  exists first rest,
    split 32 paragraph = first :: rest
    /\ wrapParagraph fits paragraph = wrapWords fits first rest.
Proof.
  unfold wrapParagraph.
  destruct (split 32 paragraph) as [|first rest] eqn:E;
    [exfalso; exact (split_nonempty _ _ E)|].
  exists first, rest. split; reflexivity.
Qed.

(** X27. The lines drawn for a text keep the text: the lines of a paragraph
    joined by spaces are the paragraph, and the paragraphs joined by line
    feeds are the text. Every paragraph gives at least one line, so the
    canvas is at least 60 high; and a line that does not fit the width is a
    single word of its paragraph. *)
Theorem textLines_preserve_text (fits : jsstring -> bool) (text : jsstring) :
  join [10] (map (fun paragraph => join (str " ") (wrapParagraph fits paragraph))
                 (split 10 text)) = text
  /\ (List.length (split 10 text) <= List.length (textLines fits text))%nat
  /\ 60 <= canvasHeight fits text
  /\ (forall paragraph line,
        In line (wrapParagraph fits paragraph) ->
        fits line = true \/ In line (split 32 paragraph)).
Proof.
  assert (List.length (split 10 text) <= List.length (textLines fits text))%nat as Hcount.
  { unfold textLines. induction (split 10 text) as [|paragraph rest IH]; [simpl; lia|].
    cbn [flat_map List.length]. rewrite length_app.
    destruct (wrapParagraph_words fits paragraph) as (first & words & _ & ->).
    pose proof (wrapWords_nonempty fits words first) as Hne.
    destruct (wrapWords fits first words); [congruence|]. cbn [List.length]. lia. }
  split; [|split; [|split]].
  - rewrite <- (join_split 10 text) at 2. f_equal.
    rewrite <- (map_id (split 10 text)) at 2. apply map_ext.
    intros paragraph. destruct (wrapParagraph_words fits paragraph) as (first & rest & E & ->).
    rewrite wrapWords_join, <- E. apply (join_split 32).
  - assumption.
  - unfold canvasHeight.
    assert (1 <= List.length (split 10 text))%nat.
    { pose proof (split_nonempty 10 text). destruct (split 10 text); [congruence|].
      cbn [List.length]. lia. }
    lia.
  - intros paragraph line Hin.
    destruct (wrapParagraph_words fits paragraph) as (first & rest & E & Hw).
    rewrite Hw in Hin. rewrite E.
    destruct (wrapWords_fit fits rest first line Hin) as [H | [-> | H]].
    + left. assumption.
    + right. left. reflexivity.
    + right. right. assumption.
Qed.

(** ** GIF containers and the request, continued *)

Section GifRoundTrip.

Context {P : Platform} {laws : PlatformLaws P}.

(** X28. A hidden file written behind a GIF container that ends with the
    trailer 3B is read back by [decodePolyglot] when the byte 3B does not
    occur in what is written behind the container, its final byte apart. *)
Theorem gif_polyglot_roundtrip (containerFile hiddenFile : File.t) (autoConvert : bool)
    (result : CreatePolyglotResult) (finalContainerFile polyglotFile : File.t)
    (fuel : nat) :
  createPolyglot containerFile hiddenFile autoConvert = Resolved result ->
  finalContainer containerFile autoConvert = Some finalContainerFile ->
  File.arrayBuffer polyglotFile = Blob.bytes (blob result) ->
  startsWith (File.arrayBuffer finalContainerFile) GIF_header = true ->
  byteAt (File.arrayBuffer finalContainerFile)
    (len (File.arrayBuffer finalContainerFile) - 1) = Some GIF_eof ->
  (forall q, 0 <= q <= len (appended hiddenFile) - 2 ->
     byteAt (appended hiddenFile) q <> Some GIF_eof) ->
  wfString (File.name hiddenFile) -> wfString (File.type hiddenFile) ->
  File.arrayBuffer hiddenFile <> [] ->
  len (metadataBufferOf hiddenFile) < 4294967296 ->
  decodePolyglot fuel polyglotFile None = Some (Some (recoveredFile hiddenFile)).
Proof.
  intros Hcreate Hfinal Hdata Hsig Hlast Habs Hname Htype Hbytes Hbound.
  rewrite decodePolyglot_no_hint, Hdata.
  rewrite (createPolyglot_blob _ _ _ _ _ Hcreate Hfinal).
  set (c := File.arrayBuffer finalContainerFile) in *.
  pose proof (len_appended hiddenFile) as Hlen.
  pose proof (len_nonneg (metadataBufferOf hiddenFile)).
  pose proof (len_nonneg (File.arrayBuffer hiddenFile)).
  pose proof (byteAt_range c _ _ Hlast) as Hc.
  assert (startsWith (c ++ appended hiddenFile) GIF_header = true) as Hsig'
    by (rewrite startsWith_app by (apply startsWith_length; assumption); assumption).
  rewrite (decodeByMarkers_classifies fuel (c ++ appended hiddenFile) (len c)).
  - rewrite sliceFrom_app. f_equal. apply processPayload_appended; assumption.
  - unfold locateBoundary.
    destruct (startsWith_GIF_not_others _ Hsig') as [-> ->]. rewrite Hsig'.
    unfold locateGIF, lastIndexOf. rewrite len_app.
    destruct (Z.eqb_spec (len c + len (appended hiddenFile)) 0); [lia|].
    destruct (Z.leb_spec 0 (len c + len (appended hiddenFile) - 2)); [|lia].
    rewrite Z.min_l by lia.
    rewrite (lastIndexDown_found (c ++ appended hiddenFile) GIF_eof (len c - 1)).
    + destruct (Z.eqb_spec (len c - 1) (-1)); [lia|]. simpl negb. cbv iota.
      unfold GIF_eof_len. f_equal. lia.
    + rewrite byteAt_app_l by lia. assumption.
    + lia.
    + lia.
    + intros q Hq. replace q with (len c + (q - len c)) by lia.
      rewrite byteAt_app_shift by lia. apply Habs. lia.
  - rewrite len_app. lia.
Qed.

End GifRoundTrip.

Lemma jsstring_eqb_refl (s : jsstring) : jsstring_eqb s s = true.
Proof.
  induction s as [|u s IH]; [reflexivity|]. simpl. rewrite Z.eqb_refl. assumption.
Qed.

(** X29. The request names the media type of the file; for the type
    [application/octet-stream] it names what [detectFileType] finds in the
    bytes; a file without a media type is announced as [unknown], and its
    bytes are not looked at. *)
Theorem promptContainerType_cases (polyglotFile : File.t) :
  (File.type polyglotFile = [] -> promptContainerType polyglotFile = str "unknown")
  /\ (File.type polyglotFile = str "application/octet-stream" ->
      promptContainerType polyglotFile
      = match detectFileType (File.arrayBuffer polyglotFile) with
        | Some (mime, _) => mime
        | None => str "application/octet-stream"
        end)
  /\ (File.type polyglotFile <> [] ->
      File.type polyglotFile <> str "application/octet-stream" ->
      promptContainerType polyglotFile = File.type polyglotFile).
Proof.
  unfold promptContainerType. cbv zeta. split; [|split].
  - intros ->. reflexivity.
  - intros ->. reflexivity.
  - intros Hne Hoctet.
    destruct (File.type polyglotFile) as [|u ty] eqn:E; [congruence|].
    destruct (jsstring_eqb (u :: ty) (str "application/octet-stream")) eqn:Eq.
    + apply jsstring_eqb_eq in Eq. congruence.
    + reflexivity.
Qed.

(** ** Concrete runs, continued *)

Lemma absent_check (data : Uint8Array) (needle : list byte) :
  needle <> [] ->
  forallb (fun j => negb (matchAt data needle (Z.of_nat j)))
          (seq 0 (List.length data)) = true ->
  forall q, matchAt data needle q = false.
Proof.
  intros Hne H q. destruct (matchAt data needle q) eqn:E; [|reflexivity].
  pose proof (matchAt_bounds data needle q Hne E) as [Hq0 Hq1].
  pose proof (len_pos_nonempty needle Hne).
  rewrite forallb_forall in H. specialize (H (Z.to_nat q)).
  rewrite Z2Nat.id in H by lia. rewrite E in H.
  assert (negb true = true) as X; [|discriminate X].
  apply H. apply in_seq. unfold len in *. lia.
Qed.

Lemma getUint32_check (data : Uint8Array) (v : Z) :
  forallb (fun j => match getUint32 data (Z.of_nat j) with
                    | Some w => negb (w =? v)
                    | None => true
                    end) (seq 0 (List.length data)) = true ->
  forall o, getUint32 data o <> Some v.
Proof.
  intros H o E. rewrite forallb_forall in H.
  assert (0 <= o < len data) as Ho.
  { unfold getUint32 in E. destruct (byteAt data o) as [b|] eqn:Eb; [|discriminate].
    exact (byteAt_range data o b Eb). }
  specialize (H (Z.to_nat o)). rewrite Z2Nat.id in H by lia. rewrite E in H.
  rewrite Z.eqb_refl in H. assert (false = true) as X; [|discriminate X].
  apply H. apply in_seq. unfold len in *. lia.
Qed.

Lemma byteAt_check (data : Uint8Array) (x : byte) (q : Z) :
  forallb (fun b => negb (Byte.eqb b x)) data = true -> byteAt data q <> Some x.
Proof.
  intros H E. rewrite forallb_forall in H.
  unfold byteAt in E. destruct (q <? 0); [discriminate|].
  apply nth_error_In in E. specialize (H x E).
  assert (Byte.eqb x x = true) as Hx by (apply Byte.byte_dec_lb; reflexivity).
  rewrite Hx in H. discriminate.
Qed.

Lemma not_In_check (u : Z) (s : jsstring) : forallb (fun v => negb (v =? u)) s = true -> ~ In u s.
Proof.
  intros H Hin. rewrite forallb_forall in H. specialize (H u Hin).
  rewrite Z.eqb_refl in H. discriminate.
Qed.

(** From index 5 the next marker of the sample is at 7; from 11 there is
    none. *)
Lemma findSequence_first_occurrence_witness :
  findSequence jpegSample JPEG_eof 5 = 7 /\ findSequence jpegSample JPEG_eof 11 = -1.
Proof.
  split.
  - apply (proj2 (findSequence_first_occurrence jpegSample JPEG_eof 5
                    ltac:(discriminate) ltac:(lia)) 7 ltac:(lia)).
    split; [vm_compute; split; discriminate|]. split; [reflexivity|].
    intros j Hj. assert (j = 5 \/ j = 6) as [-> | ->] by lia; reflexivity.
  - apply (proj1 (findSequence_first_occurrence jpegSample JPEG_eof 11
                    ltac:(discriminate) ltac:(lia))).
    intros j Hj.
    apply (noLaterOccurrence_check jpegSample JPEG_eof 10);
      [discriminate | lia | reflexivity | lia].
Defined.

(** A payload with the PNG signature at offset 15: the file is the suffix
    from 15. *)
Lemma processPayload_returns_suffix_witness :
  exists k, 0 <= k < len pngAt15
            /\ Blob.bytes (DecodedFile.blob (signatureFile pngAt15 PNG 15))
               = sliceFrom pngAt15 k
            /\ DecodedFile.size (signatureFile pngAt15 PNG 15) = len pngAt15 - k
            /\ DecodedFile.size (signatureFile pngAt15 PNG 15)
               = len (Blob.bytes (DecodedFile.blob (signatureFile pngAt15 PNG 15))).
Proof.
  apply (processPayload_returns_suffix (P:=Reference.platform) pngAt15
           (signatureFile pngAt15 PNG 15)).
  vm_compute. reflexivity.
Defined.

(** The bytes of a ZIP archive, which are also those of an APK. *)
Lemma signature_tier_never_apk_witness :
  DecodedFile.type (signatureFile zipSample ZIP 0)
  <> str "application/vnd.android.package-archive"
  /\ DecodedFile.name (signatureFile zipSample ZIP 0) <> str "hidden-file.apk".
Proof.
  apply (signature_tier_never_apk zipSample (signatureFile zipSample ZIP 0)).
  vm_compute. reflexivity.
Defined.

Lemma detected_data_is_classified_witness :
  exists file, fallbackTiers pngStart = Some file
               /\ DecodedFile.name file <> str "hidden-file.dat"
               /\ DecodedFile.type file <> str "application/octet-stream".
Proof.
  apply (detected_data_is_classified pngStart (str "image/png") (str "png")).
  vm_compute. reflexivity.
Defined.

Lemma walkBoxes_within_buffer_witness :
  0 <= 32 <= len m4aSample
  /\ sliceFrom m4aSample 32 = skipn (Z.to_nat 32) m4aSample.
Proof.
  apply (walkBoxes_within_buffer 10 m4aSample 32). vm_compute. reflexivity.
Defined.

(** No four bytes of the sample read as the size 1. *)
Lemma walkBoxes_terminates_witness :
  exists splitIndex,
    walkBoxes (S (List.length m4aSample)) m4aSample 0 = Some splitIndex
    /\ forall expectedType,
         decodeM4AContainer (S (List.length m4aSample)) m4aSample expectedType
         = Some (extractAt m4aSample expectedType splitIndex).
Proof.
  apply (walkBoxes_terminates m4aSample).
  intros o _ H1. exfalso.
  exact (getUint32_check m4aSample 1 ltac:(vm_compute; reflexivity) o H1).
Defined.

(** A PNG file under the name of an M4A file. *)
Lemma m4a_path_without_leading_box_witness :
  (forall expectedType, decodeM4AContainer 1 pngStart expectedType = Some None)
  /\ decodePolyglot (P:=Reference.platform) 1 (m4aFile pngStart) (withHint exe)
     = decodeByMarkers (P:=Reference.platform) 1 pngStart.
Proof.
  apply (m4a_path_without_leading_box (P:=Reference.platform) 0 (m4aFile pngStart)
           (withHint exe)).
  right. vm_compute. reflexivity.
Defined.

Lemma m4a_box_to_end_of_file_witness :
  exists fuel, forall fuel', (fuel <= fuel')%nat ->
    walkBoxes fuel' sizeZeroM4A 0 = Some (len sizeZeroM4A)
    /\ forall expectedType, decodeM4AContainer fuel' sizeZeroM4A expectedType = Some None.
Proof.
  apply (m4a_box_to_end_of_file sizeZeroM4A 8).
  - apply (Reaches_next sizeZeroM4A 0 8).
    + apply Reaches_start.
    + vm_compute. discriminate.
    + vm_compute. reflexivity.
  - vm_compute. discriminate.
  - vm_compute. reflexivity.
  - vm_compute. reflexivity.
Defined.

(** The end chunk at 4, two bytes behind it. *)
Lemma png_first_end_chunk_witness :
  locateBoundary 0 (pngBytes ++ [x01; x02]) = Some (4 + 12)
  /\ (4 + 12 < len (pngBytes ++ [x01; x02]) ->
      decodeByMarkers (P:=Reference.platform) 0 (pngBytes ++ [x01; x02])
      = Some (processPayload (P:=Reference.platform)
                (sliceFrom (pngBytes ++ [x01; x02]) (4 + 12))))
  /\ (4 + 12 = len (pngBytes ++ [x01; x02]) ->
      decodeByMarkers (P:=Reference.platform) 0 (pngBytes ++ [x01; x02]) = Some None).
Proof.
  apply (png_first_end_chunk (P:=Reference.platform) 0 (pngBytes ++ [x01; x02]) 4).
  - reflexivity.
  - apply (firstOccurrence_check (pngBytes ++ [x01; x02]) PNG_full_eof 4); reflexivity.
Defined.

(** A JPEG header without an end marker. *)
Lemma decodeByMarkers_without_marker_witness :
  locateBoundary 1 jpegHeaderOnly = Some (-1)
  /\ decodeByMarkers (P:=Reference.platform) 1 jpegHeaderOnly = Some None.
Proof.
  apply (decodeByMarkers_without_marker (P:=Reference.platform) 0 jpegHeaderOnly).
  right. left. split; [reflexivity|].
  apply absent_check; [discriminate | reflexivity].
Defined.

Lemma png_polyglot_roundtrip_witness :
  decodePolyglot (P:=Reference.platform) 0 (polyglotOf pngContainer sampleHidden) None
  = Some (Some (recoveredFile sampleHidden)).
Proof.
  apply (png_polyglot_roundtrip (laws:=ReferenceFacts.laws) pngContainer sampleHidden false
           (polyglotResult pngContainer sampleHidden) pngContainer).
  - vm_compute. reflexivity.
  - reflexivity.
  - reflexivity.
  - reflexivity.
  - apply (firstOccurrence_check pngBytes PNG_full_eof 4); reflexivity.
  - apply wfString_str.
  - apply wfString_str.
  - discriminate.
  - vm_compute. reflexivity.
Defined.

Lemma jpeg_polyglot_roundtrip_witness :
  decodePolyglot (P:=Reference.platform) 200 (polyglotOf jpegContainer sampleHidden) None
  = Some (Some (recoveredFile sampleHidden)).
Proof.
  apply (jpeg_polyglot_roundtrip (laws:=ReferenceFacts.laws) jpegContainer sampleHidden false
           (polyglotResult jpegContainer sampleHidden) jpegContainer).
  - vm_compute. reflexivity.
  - reflexivity.
  - reflexivity.
  - reflexivity.
  - reflexivity.
  - intros q _. apply absent_check; [discriminate | vm_compute; reflexivity].
  - apply wfString_str.
  - apply wfString_str.
  - discriminate.
  - vm_compute. reflexivity.
  - vm_compute. lia.
Defined.

(** A JPEG file hidden behind a JPEG file. *)
Lemma jpeg_marker_in_hidden_file_witness :
  (exists outcome,
     decodePolyglot (P:=Reference.platform) 200 (polyglotOf jpegContainer jpegHidden) None
     = Some outcome)
  /\ (forall file,
        decodePolyglot (P:=Reference.platform) 200 (polyglotOf jpegContainer jpegHidden) None
        = Some (Some file) ->
        DecodedFile.size file < len (File.arrayBuffer jpegHidden) - 4 - 1)
  /\ decodePolyglot (P:=Reference.platform) 200 (polyglotOf jpegContainer jpegHidden) None
     <> Some (Some (recoveredFile jpegHidden)).
Proof.
  apply (jpeg_marker_in_hidden_file (P:=Reference.platform) jpegContainer jpegHidden false
           (polyglotResult jpegContainer jpegHidden) jpegContainer).
  - vm_compute. reflexivity.
  - reflexivity.
  - reflexivity.
  - reflexivity.
  - reflexivity.
  - vm_compute. lia.
Defined.


(** Boxes [ftyp] and [moov] as the container. *)
Lemma m4a_polyglot_not_decoded_witness :
  exists fuel, forall fuel', (fuel <= fuel')%nat ->
    decodePolyglot (P:=Reference.platform) fuel' (polyglotOf m4aContainer sampleHidden)
      (withHint exe) = Some None.
Proof.
  apply (m4a_polyglot_not_decoded (P:=Reference.platform) m4aContainer sampleHidden false
           (polyglotResult m4aContainer sampleHidden) m4aContainer).
  - vm_compute. reflexivity.
  - reflexivity.
  - reflexivity.
  - apply (Boxes_cons 8 ftyp []); [exact wellFormedType_ftyp | reflexivity | lia |].
    apply (Boxes_cons 16 moov zeros8); [exact wellFormedType_moov | reflexivity | lia |].
    apply Boxes_nil.
  - vm_compute. reflexivity.
  - vm_compute. reflexivity.
Defined.

Lemma createPolyglot_layout_witness :
  exists finalContainerFile,
    finalContainer (P:=Reference.platform) pngContainer false = Some finalContainerFile
    /\ newContainerName (polyglotResult pngContainer sampleHidden)
       = File.name finalContainerFile
    /\ sliceFrom (Blob.bytes (blob (polyglotResult pngContainer sampleHidden)))
         (len (File.arrayBuffer finalContainerFile) + 4
          + len (metadataBufferOf sampleHidden))
       = File.arrayBuffer sampleHidden.
Proof.
  destruct (createPolyglot_layout (P:=Reference.platform) pngContainer sampleHidden false
              (polyglotResult pngContainer sampleHidden) ltac:(vm_compute; reflexivity))
    as (f & Hf & Hn & _ & _ & _ & _ & _ & Hh).
  exists f. split; [exact Hf|]. split; [exact Hn | exact Hh].
Defined.

Lemma convertImage_name_witness :
  ImageService.convertImage bmpContainer (str "image/png") (Some pngCanvas)
  = Resolved (ConvertResult.mk pngCanvas (str "scan.old.png"))
  /\ ImageService.convertImage bmpContainer (str "png") (Some pngCanvas)
     = Resolved (ConvertResult.mk pngCanvas (str "scan.old.dat")).
Proof.
  split.
  - apply (proj1 (convertImage_name bmpContainer pngCanvas eq_refl)
             (str "image") (str "png")).
    + apply not_In_check. reflexivity.
    + apply not_In_check. reflexivity.
    + discriminate.
  - apply (proj1 (proj2 (convertImage_name bmpContainer pngCanvas eq_refl)) (str "png")).
    left. apply not_In_check. reflexivity.
Defined.

Lemma converted_container_name_witness :
  newContainerName (convertedResult sampleHidden)
  = originalNameNoExt (File.name bmpContainer) ++ str ".png"
  /\ Blob.type (blob (convertedResult sampleHidden)) = str "image/png"
  /\ (startsWithStr (File.type bmpContainer) (str "text/") = false ->
      ImageService.convertImage bmpContainer (str "image/png") (Some pngCanvas)
      = Resolved (ConvertResult.mk pngCanvas
                    (newContainerName (convertedResult sampleHidden)))).
Proof.
  apply (converted_container_name (P:=convertingPlatform) bmpContainer sampleHidden
           (convertedResult sampleHidden) pngCanvas).
  - reflexivity.
  - vm_compute. reflexivity.
Defined.

(** A PNG polyglot, decoded with AI decoding switched on and no answer from
    the oracle. *)
Lemma handleDecodeFile_outcome_witness :
  let state := foundState sampleHidden in
  let standard :=
    decodePolyglot (P:=Reference.platform) 0 (polyglotOf pngContainer sampleHidden) None in
  (extractedFile state = None <-> decodeError state <> None)
  /\ (forall file, standard = Some (Some file) ->
        state = {| extractedFile := Some file; decodeError := None |})
  /\ (true = false ->
      forall response',
        handleDecodeFile (P:=Reference.platform) 0 emptyState
          (Some (polyglotOf pngContainer sampleHidden)) true false exe response'
        = Some state)
  /\ (forall file, extractedFile state = Some file ->
        standard = Some (Some file)
        \/ (true = true /\ standard = Some None
            /\ decodePolyglotWithAI (P:=Reference.platform)
                 (polyglotOf pngContainer sampleHidden) None = Resolved (Some file))).
Proof.
  apply (handleDecodeFile_outcome (P:=Reference.platform) 0 emptyState
           (polyglotOf pngContainer sampleHidden) true false exe None
           (foundState sampleHidden)).
  vm_compute. reflexivity.
Defined.

(** A GIF file of header and trailer as the container. *)
Lemma gif_polyglot_roundtrip_witness :
  decodePolyglot (P:=Reference.platform) 0 (polyglotOf gifContainer sampleHidden) None
  = Some (Some (recoveredFile sampleHidden)).
Proof.
  apply (gif_polyglot_roundtrip (laws:=ReferenceFacts.laws) gifContainer sampleHidden false
           (polyglotResult gifContainer sampleHidden) gifContainer).
  - vm_compute. reflexivity.
  - reflexivity.
  - reflexivity.
  - reflexivity.
  - reflexivity.
  - intros q Hq. apply byteAt_check. vm_compute. reflexivity.
  - apply wfString_str.
  - apply wfString_str.
  - discriminate.
  - vm_compute. reflexivity.
Defined.
